(** * discedit: the synchronisation engine of main.go, embedded in Rocq

    The development follows [main.go]: the entity model ([Post],
    [DraftData], [Draft], [Topic]) with its baseline accessors, the
    conflict check, the remote client ([Forum.do], [SaveTopic],
    [SaveDraft], [LoadDraft]), the watcher loop of [edit] and the final
    reconciliation of [run].

    Conventions.
    - A Go [string] is a sequence of bytes: [String.string].
    - A Go [int] is a [Z]; [time.Time] values are kept as [Z] stamps.
    - A Go pointer that may be [nil] is an [option]; dereferencing [nil]
      is the outcome [Panic].
    - A Go [error] result is an [option error] ([None] is [nil]). *)

From Stdlib Require Import ZArith String Ascii List Bool Lia ZifyBool.
From Stdlib Require DecimalString DecimalZ DecimalPos DecimalFacts.
Import ListNotations.
Local Open Scope string_scope.
Local Open Scope Z_scope.
Set Warnings "-register-all".

(** ** Outcomes: a call either returns or panics *)

Inductive outcome (A : Type) : Type :=
| Done (a : A)
| Panic.
Arguments Done {A} a.
Arguments Panic {A}.

Definition obind {A B} (o : outcome A) (k : A -> outcome B) : outcome B :=
  match o with
  | Done a => k a
  | Panic => Panic
  end.

(** [deref p] is the Go expression [*p] (or a field access through [p]). *)
Definition deref {A} (p : option A) : outcome A :=
  match p with
  | Some a => Done a
  | None => Panic
  end.

(** ** Errors

    [fmt.Errorf] values are kept as the format with its arguments; the
    [*NotFoundError] type has its message. [SysError] stands for an error
    handed back by the operating system or by a library. *)

Inductive error : Type :=
| Errorf (format : string) (args : list fmtarg)
| NotFoundError (Message : string)
| SysError (msg : string)
with fmtarg : Type :=
| ArgStr (s : string)
| ArgInt (n : Z)
| ArgErr (e : error).

Definition isNotFound (err : error) : bool :=
  match err with
  | NotFoundError _ => true
  | _ => false
  end.

(** ** Entity model *)

Module Post.
Record t : Type := mk {
  ID : Z;
  Username : string;
  Cooked : string;
  Raw : string;
  UpdatedAt : Z;
  TopicID : Z;
  Blurb : string;
  DraftSequence : Z
}.

Definition EditText (p : t) : string := Raw p.
Definition OriginalText (p : t) : string := Raw p.

Definition set_Raw (raw : string) (p : t) : t :=
  mk (ID p) (Username p) (Cooked p) raw (UpdatedAt p) (TopicID p) (Blurb p)
     (DraftSequence p).
End Post.

Module DraftData.
Record t : Type := mk {
  Action : string;
  Title : string;
  Reply : string;
  OriginalText : string;
  ComposerTime : Z;
  TypingTime : Z;
  PostID : Z;
  Whisper : bool
}.
End DraftData.

Module Draft.
Record t : Type := mk {
  Key : string;
  TopicID : Z;
  Sequence : Z;
  Data : option DraftData.t
}.

Definition EditText (d : t) : outcome string :=
  obind (deref (Data d)) (fun dd => Done (DraftData.Reply dd)).

Definition OriginalText (d : t) : outcome string :=
  obind (deref (Data d)) (fun dd => Done (DraftData.OriginalText dd)).
End Draft.

Module Topic.
Record t : Type := mk {
  ID : Z;
  Slug : string;
  Title : string;
  Category : Z;
  BumpedAt : Z;
  DraftKey : string;
  DraftSequence : Z;
  Post : option Post.t;
  Draft : option Draft.t;
  content : string
}.

Definition set_Post (p : option Post.t) (x : t) : t :=
  mk (ID x) (Slug x) (Title x) (Category x) (BumpedAt x) (DraftKey x)
     (DraftSequence x) p (Draft x) (content x).

Definition set_Draft (d : option Draft.t) (x : t) : t :=
  mk (ID x) (Slug x) (Title x) (Category x) (BumpedAt x) (DraftKey x)
     (DraftSequence x) (Post x) d (content x).

Definition set_DraftSequence (n : Z) (x : t) : t :=
  mk (ID x) (Slug x) (Title x) (Category x) (BumpedAt x) (DraftKey x)
     n (Post x) (Draft x) (content x).

Definition EditText (x : t) : outcome string :=
  match Draft x with
  | Some d => Draft.EditText d
  | None => obind (deref (Post x)) (fun p => Done (Post.EditText p))
  end.

Definition OriginalText (x : t) : outcome string :=
  match Draft x with
  | Some d => Draft.OriginalText d
  | None => obind (deref (Post x)) (fun p => Done (Post.OriginalText p))
  end.

Definition CheckDraft (x : t) : outcome (option error) :=
  match Draft x with
  | Some d =>
      obind (Draft.OriginalText d) (fun dtext =>
      obind (deref (Post x)) (fun p =>
      if negb (String.eqb dtext (Post.OriginalText p))
      then Done (Some (Errorf "content was changed after existing draft started (see -ignore-draft and -force-draft)" []))
      else Done None))
  | None => Done None
  end.
End Topic.

(** ** Bytes and UTF-8, as the Go library reads them

    [encoding/json] decodes strings rune by rune with
    [utf8.DecodeRuneInString] and writes runes back with
    [utf8.EncodeRune]. Their behaviour is spelled out here on the byte
    values: the first byte selects the length of the sequence and the
    range accepted for the second byte, continuation bytes lie in
    [0x80, 0xBF], and a byte that starts no valid sequence decodes to
    [RuneError] with size one. *)

Definition byteval (c : ascii) : Z := Z.of_N (N_of_ascii c).
Definition bytechr (z : Z) : ascii := ascii_of_N (Z.to_N z).

Fixpoint str_drop (n : nat) (s : string) : string :=
  match n, s with
  | O, _ => s
  | S n', String _ s' => str_drop n' s'
  | S _, EmptyString => EmptyString
  end.

Fixpoint str_take (n : nat) (s : string) : string :=
  match n, s with
  | O, _ => EmptyString
  | S n', String c s' => String c (str_take n' s')
  | S _, EmptyString => EmptyString
  end.

Module utf8.
Definition RuneError : Z := 0xFFFD.
Definition RuneSelf : Z := 0x80.
Definition MaxRune : Z := 0x10FFFF.

Definition is_cont (b : Z) : bool := (0x80 <=? b) && (b <=? 0xBF).

Definition DecodeRuneInString (s : string) : Z * nat :=
  match s with
  | EmptyString => (RuneError, 0%nat)
  | String c0 t0 =>
    let s0 := byteval c0 in
    if s0 <? RuneSelf then (s0, 1%nat)
    else if (s0 <? 0xC2) || (0xF4 <? s0) then (RuneError, 1%nat)
    else
      let sz := if s0 <? 0xE0 then 2%nat else if s0 <? 0xF0 then 3%nat else 4%nat in
      let lo := if s0 =? 0xE0 then 0xA0 else if s0 =? 0xF0 then 0x90 else 0x80 in
      let hi := if s0 =? 0xED then 0x9F else if s0 =? 0xF4 then 0x8F else 0xBF in
      if (String.length s <? sz)%nat then (RuneError, 1%nat)
      else
        match t0 with
        | EmptyString => (RuneError, 1%nat)
        | String c1 t1 =>
          let s1 := byteval c1 in
          if (s1 <? lo) || (hi <? s1) then (RuneError, 1%nat)
          else if (sz <=? 2)%nat
          then (Z.lor (Z.shiftl (Z.land s0 0x1F) 6) (Z.land s1 0x3F), 2%nat)
          else
            match t1 with
            | EmptyString => (RuneError, 1%nat)
            | String c2 t2 =>
              let s2 := byteval c2 in
              if negb (is_cont s2) then (RuneError, 1%nat)
              else if (sz <=? 3)%nat
              then (Z.lor (Z.lor (Z.shiftl (Z.land s0 0x0F) 12)
                                 (Z.shiftl (Z.land s1 0x3F) 6))
                          (Z.land s2 0x3F), 3%nat)
              else
                match t2 with
                | EmptyString => (RuneError, 1%nat)
                | String c3 _ =>
                  let s3 := byteval c3 in
                  if negb (is_cont s3) then (RuneError, 1%nat)
                  else (Z.lor (Z.lor (Z.lor (Z.shiftl (Z.land s0 0x07) 18)
                                             (Z.shiftl (Z.land s1 0x3F) 12))
                                      (Z.shiftl (Z.land s2 0x3F) 6))
                              (Z.land s3 0x3F), 4%nat)
                end
            end
        end
  end.

Definition enc3 (r : Z) : string :=
  String (bytechr (Z.lor 0xE0 (Z.shiftr r 12)))
 (String (bytechr (Z.lor 0x80 (Z.land (Z.shiftr r 6) 0x3F)))
 (String (bytechr (Z.lor 0x80 (Z.land r 0x3F))) EmptyString)).

(** [EncodeRune r] is the byte sequence [utf8.EncodeRune] writes; runes
    out of range and surrogates are written as [RuneError]. *)
Definition EncodeRune (r : Z) : string :=
  if (0 <=? r) && (r <=? 0x7F) then String (bytechr r) EmptyString
  else if (0 <=? r) && (r <=? 0x7FF) then
    String (bytechr (Z.lor 0xC0 (Z.shiftr r 6)))
   (String (bytechr (Z.lor 0x80 (Z.land r 0x3F))) EmptyString)
  else if (r <? 0) || (MaxRune <? r) || ((0xD800 <=? r) && (r <=? 0xDFFF))
  then enc3 RuneError
  else if r <=? 0xFFFF then enc3 r
  else
    String (bytechr (Z.lor 0xF0 (Z.shiftr r 18)))
   (String (bytechr (Z.lor 0x80 (Z.land (Z.shiftr r 12) 0x3F)))
   (String (bytechr (Z.lor 0x80 (Z.land (Z.shiftr r 6) 0x3F)))
   (String (bytechr (Z.lor 0x80 (Z.land r 0x3F))) EmptyString))).

(** [ValidString s]: decoding [s] never meets an invalid byte. *)
Fixpoint valid_fuel (fuel : nat) (s : string) : bool :=
  match fuel with
  | O => match s with EmptyString => true | _ => false end
  | S fuel' =>
    match s with
    | EmptyString => true
    | _ =>
      let '(r, size) := DecodeRuneInString s in
      if (r =? RuneError) && (size =? 1)%nat then false
      else valid_fuel fuel' (str_drop size s)
    end
  end.

Definition ValidString (s : string) : bool := valid_fuel (String.length s) s.
End utf8.

(** ** The JSON encoder of [encoding/json], for the values this program sends

    [json.Marshal] writes a Go string between double quotes, byte by
    byte: bytes of the HTML-safe set are copied, the others are escaped;
    an invalid UTF-8 byte is written as the replacement rune, and the two
    line separators U+2028 and U+2029 are escaped. Integers are written in
    decimal, booleans as [true] and [false], a struct as an object with
    its fields in declaration order, a map with its keys sorted. *)

Definition dquote : ascii := ascii_of_nat 34.
Definition backslash : ascii := ascii_of_nat 92.
Definition str1 (c : ascii) : string := String c EmptyString.

Module strconv.
Definition Itoa (n : Z) : string := DecimalString.NilZero.string_of_int (Z.to_int n).
End strconv.

Module json.
Definition hexdigit (n : Z) : ascii :=
  if n <? 10 then bytechr (48 + n) else bytechr (87 + n).

Definition htmlSafeSet (b : Z) : bool :=
  (0x20 <=? b) && (b <? 0x80) &&
  negb ((b =? 0x22) || (b =? 0x26) || (b =? 0x3C) || (b =? 0x3E) || (b =? 0x5C)).

(** The escape written for an ASCII byte outside the safe set. The bytes
    0x08 and 0x0C take the six-byte form here, as the library wrote them
    before it got short forms for them; the decoder reads both. *)
Definition escapeByte (b : Z) : string :=
  String backslash
    (if (b =? 0x5C) || (b =? 0x22) then str1 (bytechr b)
     else if b =? 0x0A then "n"
     else if b =? 0x0D then "r"
     else if b =? 0x09 then "t"
     else "u00" ++ str1 (hexdigit (Z.shiftr b 4)) ++ str1 (hexdigit (Z.land b 0xF))).

Fixpoint encodeRunes (fuel : nat) (s : string) : string :=
  match fuel with
  | O => EmptyString
  | S fuel' =>
    match s with
    | EmptyString => EmptyString
    | String c rest =>
      let b := byteval c in
      if b <? utf8.RuneSelf then
        if htmlSafeSet b then String c (encodeRunes fuel' rest)
        else escapeByte b ++ encodeRunes fuel' rest
      else
        let '(r, size) := utf8.DecodeRuneInString s in
        if (r =? utf8.RuneError) && (size =? 1)%nat
        then String backslash "ufffd" ++ encodeRunes fuel' (str_drop size s)
        else if (r =? 0x2028) || (r =? 0x2029)
        then String backslash "u202" ++ str1 (hexdigit (Z.land r 0xF))
               ++ encodeRunes fuel' (str_drop size s)
        else str_take size s ++ encodeRunes fuel' (str_drop size s)
    end
  end.

(** [encodeString s] is the JSON text of the Go string [s]. *)
Definition encodeString (s : string) : string :=
  String dquote (encodeRunes (String.length s) s ++ str1 dquote).

Definition encodeInt (n : Z) : string := strconv.Itoa n.
Definition encodeBool (b : bool) : string := if b then "true" else "false".

(** An object member [ "name":value ]. *)
Definition member (name value : string) : string :=
  String dquote (name ++ String dquote (String ":" value)).

Fixpoint joinMembers (ms : list string) : string :=
  match ms with
  | [] => EmptyString
  | [m] => m
  | m :: ms' => m ++ String "," (joinMembers ms')
  end.

Definition object (ms : list string) : string :=
  String "{" (joinMembers ms ++ "}").

(** [json.Marshal] at type [*draftData]: the plain struct encoding. *)
Definition Marshal_draftData (dd : DraftData.t) : string * option error :=
  (object
     [ member "action" (encodeString (DraftData.Action dd));
       member "title" (encodeString (DraftData.Title dd));
       member "reply" (encodeString (DraftData.Reply dd));
       member "originalText" (encodeString (DraftData.OriginalText dd));
       member "composerTime" (encodeInt (DraftData.ComposerTime dd));
       member "typingTime" (encodeInt (DraftData.TypingTime dd));
       member "postId" (encodeInt (DraftData.PostID dd));
       member "whisper" (encodeBool (DraftData.Whisper dd)) ],
   None).

(** [json.Marshal] at type [string]. *)
Definition Marshal_string (s : string) : string * option error :=
  (encodeString s, None).
End json.

(** [DraftData.MarshalJSON]: the payload is encoded, and the encoding is
    encoded again as a JSON string. *)
Definition DraftData_MarshalJSON (dd : DraftData.t) : string * option error :=
  let '(raw, err) := json.Marshal_draftData dd in
  match err with
  | Some e => (EmptyString, Some e)
  | None => json.Marshal_string raw
  end.

(** ** The JSON decoder of [encoding/json], for the values this program reads

    [json.Unmarshal] first checks that its input is one JSON value, then
    stores it. The value is read here into a tree: a string is unquoted
    (escapes resolved, bytes that are not UTF-8 replaced), a number is
    kept as its literal. Storing into a Go string or into the [draftData]
    struct follows the library: [null] stores nothing, a value of the
    wrong kind is recorded as an error and skipped (the first such error
    is the one returned), object keys select a field by exact name, or
    else by name up to case folding, and unknown keys are skipped. *)

Module utf16.
Definition DecodeRune (r1 r2 : Z) : Z :=
  if (0xD800 <=? r1) && (r1 <? 0xDC00) && (0xDC00 <=? r2) && (r2 <? 0xE000)
  then Z.lor (Z.shiftl (r1 - 0xD800) 10) (r2 - 0xDC00) + 0x10000
  else 0xFFFD.

Definition IsSurrogate (r : Z) : bool := (0xD800 <=? r) && (r <? 0xE000).
End utf16.

Inductive jvalue : Type :=
| JNull
| JBool (b : bool)
| JNumber (lit : string)
| JString (s : string)
| JArray (elems : list jvalue)
| JObject (members : list (string * jvalue)).

Module jsondec.
Definition SyntaxError : error := SysError "json: syntax error".
Definition UnmarshalTypeError : error := SysError "json: cannot unmarshal value into Go value".

Definition isSpace (b : Z) : bool :=
  (b =? 0x20) || (b =? 0x09) || (b =? 0x0D) || (b =? 0x0A).

Fixpoint skipWS (s : string) : string :=
  match s with
  | String c s' => if isSpace (byteval c) then skipWS s' else s
  | EmptyString => s
  end.

Definition hexval (b : Z) : option Z :=
  if (0x30 <=? b) && (b <=? 0x39) then Some (b - 0x30)
  else if (0x61 <=? b) && (b <=? 0x66) then Some (b - 0x61 + 10)
  else if (0x41 <=? b) && (b <=? 0x46) then Some (b - 0x41 + 10)
  else None.

(** [getu4 s]: the code unit of an escape [\uXXXX] at the head of [s],
    or [-1]. *)
Definition getu4 (s : string) : Z :=
  match s with
  | String b (String u (String h1 (String h2 (String h3 (String h4 _))))) =>
      if (byteval b =? 0x5C) && (byteval u =? 0x75) then
        match hexval (byteval h1), hexval (byteval h2),
              hexval (byteval h3), hexval (byteval h4) with
        | Some d1, Some d2, Some d3, Some d4 => ((d1 * 16 + d2) * 16 + d3) * 16 + d4
        | _, _, _, _ => -1
        end
      else -1
  | _ => -1
  end.

Definition prepend (p : string) (r : option (string * string)) : option (string * string) :=
  match r with
  | Some (s, rest) => Some (p ++ s, rest)
  | None => None
  end.

(** [unquote fuel s]: [s] is the text after an opening quote; the result
    is the Go string up to the closing quote and the text after it. *)
Fixpoint unquote (fuel : nat) (s : string) : option (string * string) :=
  match fuel with
  | O => None
  | S fuel' =>
    match s with
    | EmptyString => None
    | String c rest =>
      let b := byteval c in
      if b =? 0x22 then Some (EmptyString, rest)
      else if b =? 0x5C then
        match rest with
        | EmptyString => None
        | String e rest' =>
          let eb := byteval e in
          if (eb =? 0x22) || (eb =? 0x5C) || (eb =? 0x2F)
          then prepend (str1 e) (unquote fuel' rest')
          else if eb =? 0x62 then prepend (str1 (bytechr 0x08)) (unquote fuel' rest')
          else if eb =? 0x66 then prepend (str1 (bytechr 0x0C)) (unquote fuel' rest')
          else if eb =? 0x6E then prepend (str1 (bytechr 0x0A)) (unquote fuel' rest')
          else if eb =? 0x72 then prepend (str1 (bytechr 0x0D)) (unquote fuel' rest')
          else if eb =? 0x74 then prepend (str1 (bytechr 0x09)) (unquote fuel' rest')
          else if eb =? 0x75 then
            let rr := getu4 s in
            if rr <? 0 then None
            else
              let after := str_drop 6 s in
              if utf16.IsSurrogate rr then
                let dec := utf16.DecodeRune rr (getu4 after) in
                if negb (dec =? 0xFFFD)
                then prepend (utf8.EncodeRune dec) (unquote fuel' (str_drop 6 after))
                else prepend (utf8.EncodeRune 0xFFFD) (unquote fuel' after)
              else prepend (utf8.EncodeRune rr) (unquote fuel' after)
          else None
        end
      else if b <? 0x20 then None
      else if b <? utf8.RuneSelf then prepend (str1 c) (unquote fuel' rest)
      else
        let '(rr, size) := utf8.DecodeRuneInString s in
        prepend (utf8.EncodeRune rr) (unquote fuel' (str_drop size s))
    end
  end.

Definition isDigit (b : Z) : bool := (0x30 <=? b) && (b <=? 0x39).

Fixpoint spanDigits (s : string) : string * string :=
  match s with
  | String c s' =>
      if isDigit (byteval c)
      then let '(ds, rest) := spanDigits s' in (String c ds, rest)
      else (EmptyString, s)
  | EmptyString => (EmptyString, EmptyString)
  end.

(** The number grammar: an optional minus, [0] or a digit string without
    leading zero, an optional fraction, an optional exponent. *)
Definition scanNumber (s : string) : option (string * string) :=
  let '(sign, s1) :=
    match s with
    | String c r => if byteval c =? 0x2D then (str1 c, r) else (EmptyString, s)
    | EmptyString => (EmptyString, s)
    end in
  match s1 with
  | EmptyString => None
  | String c r =>
    let intpart :=
      if byteval c =? 0x30 then Some (str1 c, r)
      else if isDigit (byteval c)
      then let '(ds, r') := spanDigits r in Some (String c ds, r')
      else None in
    match intpart with
    | None => None
    | Some (ip, s2) =>
      let frac :=
        match s2 with
        | String d r2 =>
            if byteval d =? 0x2E then
              match spanDigits r2 with
              | (EmptyString, _) => None
              | (ds, r3) => Some (String d ds, r3)
              end
            else Some (EmptyString, s2)
        | EmptyString => Some (EmptyString, s2)
        end in
      match frac with
      | None => None
      | Some (fp, s3) =>
        let exp :=
          match s3 with
          | String e r3 =>
              if (byteval e =? 0x65) || (byteval e =? 0x45) then
                let '(esign, r4) :=
                  match r3 with
                  | String g r4 =>
                      if (byteval g =? 0x2B) || (byteval g =? 0x2D)
                      then (str1 g, r4) else (EmptyString, r3)
                  | EmptyString => (EmptyString, r3)
                  end in
                match spanDigits r4 with
                | (EmptyString, _) => None
                | (ds, r5) => Some (String e (esign ++ ds), r5)
                end
              else Some (EmptyString, s3)
          | EmptyString => Some (EmptyString, s3)
          end in
        match exp with
        | None => None
        | Some (ep, s4) => Some (sign ++ ip ++ fp ++ ep, s4)
        end
      end
    end
  end.

Definition stripPrefix (p s : string) : option string :=
  if String.eqb (str_take (String.length p) s) p
  then Some (str_drop (String.length p) s) else None.

Fixpoint parseValue (fuel : nat) (s : string) : option (jvalue * string) :=
  match fuel with
  | O => None
  | S fuel' =>
    match skipWS s with
    | EmptyString => None
    | String c rest =>
      let b := byteval c in
      if b =? 0x7B then
        match skipWS rest with
        | String c' rest' =>
            if byteval c' =? 0x7D then Some (JObject [], rest')
            else
              match parseMembers fuel' rest with
              | Some (ms, r) => Some (JObject ms, r)
              | None => None
              end
        | EmptyString => None
        end
      else if b =? 0x5B then
        match skipWS rest with
        | String c' rest' =>
            if byteval c' =? 0x5D then Some (JArray [], rest')
            else
              match parseElements fuel' rest with
              | Some (vs, r) => Some (JArray vs, r)
              | None => None
              end
        | EmptyString => None
        end
      else if b =? 0x22 then
        match unquote (String.length rest) rest with
        | Some (str, r) => Some (JString str, r)
        | None => None
        end
      else if b =? 0x74 then option_map (pair (JBool true)) (stripPrefix "true" (String c rest))
      else if b =? 0x66 then option_map (pair (JBool false)) (stripPrefix "false" (String c rest))
      else if b =? 0x6E then option_map (pair JNull) (stripPrefix "null" (String c rest))
      else
        match scanNumber (String c rest) with
        | Some (lit, r) => Some (JNumber lit, r)
        | None => None
        end
    end
  end
with parseMembers (fuel : nat) (s : string) : option (list (string * jvalue) * string) :=
  match fuel with
  | O => None
  | S fuel' =>
    match skipWS s with
    | String c rest =>
      if byteval c =? 0x22 then
        match unquote (String.length rest) rest with
        | Some (key, r1) =>
          match skipWS r1 with
          | String colon r2 =>
            if byteval colon =? 0x3A then
              match parseValue fuel' r2 with
              | Some (v, r3) =>
                match skipWS r3 with
                | String sep r4 =>
                    if byteval sep =? 0x7D then Some ([(key, v)], r4)
                    else if byteval sep =? 0x2C then
                      match parseMembers fuel' r4 with
                      | Some (ms, r5) => Some ((key, v) :: ms, r5)
                      | None => None
                      end
                    else None
                | EmptyString => None
                end
              | None => None
              end
            else None
          | EmptyString => None
          end
        | None => None
        end
      else None
    | EmptyString => None
    end
  end
with parseElements (fuel : nat) (s : string) : option (list jvalue * string) :=
  match fuel with
  | O => None
  | S fuel' =>
    match parseValue fuel' s with
    | Some (v, r1) =>
      match skipWS r1 with
      | String sep r2 =>
          if byteval sep =? 0x5D then Some ([v], r2)
          else if byteval sep =? 0x2C then
            match parseElements fuel' r2 with
            | Some (vs, r3) => Some (v :: vs, r3)
            | None => None
            end
          else None
      | EmptyString => None
      end
    | None => None
    end
  end.

(** The whole input must be one value, white space around it apart. *)
Definition parse (data : string) : option jvalue :=
  match parseValue (S (String.length data)) data with
  | Some (v, rest) =>
      match skipWS rest with
      | EmptyString => Some v
      | _ => None
      end
  | None => None
  end.

(** [strconv.ParseInt lit 10 64] *)
Definition ParseInt (lit : string) : option Z :=
  let '(neg, digits) :=
    match lit with
    | String c r =>
        if byteval c =? 0x2D then (true, r)
        else if byteval c =? 0x2B then (false, r)
        else (false, lit)
    | EmptyString => (false, lit)
    end in
  match DecimalString.NilZero.uint_of_string digits with
  | Some d =>
      let v := if neg then - Z.of_uint d else Z.of_uint d in
      if (- 2 ^ 63 <=? v) && (v <? 2 ^ 63) then Some v else None
  | None => None
  end.

(** Case folding of an object key: ASCII letters to upper case, and the
    two letters outside ASCII that fold to an ASCII one (the long s,
    bytes C5 BF, and the Kelvin sign, bytes E2 84 AA). *)
Fixpoint foldName (s : string) : string :=
  match s with
  | EmptyString => EmptyString
  | String c rest =>
    let b := byteval c in
    if (0x61 <=? b) && (b <=? 0x7A) then String (bytechr (b - 0x20)) (foldName rest)
    else
      match rest with
      | String c1 rest1 =>
        if (b =? 0xC5) && (byteval c1 =? 0xBF) then String "S" (foldName rest1)
        else
          match rest1 with
          | String c2 rest2 =>
            if (b =? 0xE2) && (byteval c1 =? 0x84) && (byteval c2 =? 0xAA)
            then String "K" (foldName rest2)
            else String c (foldName rest)
          | EmptyString => String c (foldName rest)
          end
      | EmptyString => String c (foldName rest)
      end
  end.

Inductive field : Type :=
| FAction | FTitle | FReply | FOriginalText
| FComposerTime | FTypingTime | FPostID | FWhisper.

Definition fieldName (fd : field) : string :=
  match fd with
  | FAction => "action"
  | FTitle => "title"
  | FReply => "reply"
  | FOriginalText => "originalText"
  | FComposerTime => "composerTime"
  | FTypingTime => "typingTime"
  | FPostID => "postId"
  | FWhisper => "whisper"
  end.

Definition allFields : list field :=
  [FAction; FTitle; FReply; FOriginalText; FComposerTime; FTypingTime; FPostID; FWhisper].

Definition findField (key : string) : option field :=
  match find (fun fd => String.eqb (fieldName fd) key) allFields with
  | Some fd => Some fd
  | None =>
      find (fun fd => String.eqb (foldName (fieldName fd)) (foldName key)) allFields
  end.

Definition storeString (v : jvalue) (old : string) : string * option error :=
  match v with
  | JString s => (s, None)
  | JNull => (old, None)
  | _ => (old, Some UnmarshalTypeError)
  end.

Definition storeInt (v : jvalue) (old : Z) : Z * option error :=
  match v with
  | JNumber lit =>
      match ParseInt lit with
      | Some n => (n, None)
      | None => (old, Some UnmarshalTypeError)
      end
  | JNull => (old, None)
  | _ => (old, Some UnmarshalTypeError)
  end.

Definition storeBool (v : jvalue) (old : bool) : bool * option error :=
  match v with
  | JBool b => (b, None)
  | JNull => (old, None)
  | _ => (old, Some UnmarshalTypeError)
  end.

Definition storeField (fd : field) (v : jvalue) (dd : DraftData.t)
  : DraftData.t * option error :=
  let '(DraftData.mk action title reply original composer typing postid whisper) := dd in
  match fd with
  | FAction =>
      let '(x, e) := storeString v action in
      (DraftData.mk x title reply original composer typing postid whisper, e)
  | FTitle =>
      let '(x, e) := storeString v title in
      (DraftData.mk action x reply original composer typing postid whisper, e)
  | FReply =>
      let '(x, e) := storeString v reply in
      (DraftData.mk action title x original composer typing postid whisper, e)
  | FOriginalText =>
      let '(x, e) := storeString v original in
      (DraftData.mk action title reply x composer typing postid whisper, e)
  | FComposerTime =>
      let '(x, e) := storeInt v composer in
      (DraftData.mk action title reply original x typing postid whisper, e)
  | FTypingTime =>
      let '(x, e) := storeInt v typing in
      (DraftData.mk action title reply original composer x postid whisper, e)
  | FPostID =>
      let '(x, e) := storeInt v postid in
      (DraftData.mk action title reply original composer typing x whisper, e)
  | FWhisper =>
      let '(x, e) := storeBool v whisper in
      (DraftData.mk action title reply original composer typing postid x, e)
  end.

Definition saveError (saved e : option error) : option error :=
  match saved with
  | Some _ => saved
  | None => e
  end.

Fixpoint storeMembers (ms : list (string * jvalue)) (dd : DraftData.t)
    (saved : option error) : DraftData.t * option error :=
  match ms with
  | [] => (dd, saved)
  | (key, v) :: ms' =>
      match findField key with
      | None => storeMembers ms' dd saved
      | Some fd =>
          let '(dd', e) := storeField fd v dd in
          storeMembers ms' dd' (saveError saved e)
      end
  end.

(** [json.Unmarshal] into a [*draftData] that holds [dd]. *)
Definition Unmarshal_draftData (data : string) (dd : DraftData.t)
  : DraftData.t * option error :=
  match parse data with
  | None => (dd, Some SyntaxError)
  | Some (JObject ms) => storeMembers ms dd None
  | Some JNull => (dd, None)
  | Some _ => (dd, Some UnmarshalTypeError)
  end.

(** [json.Unmarshal] into a [*string] that holds [old]. *)
Definition Unmarshal_string (data : string) (old : string) : string * option error :=
  match parse data with
  | None => (old, Some SyntaxError)
  | Some v => storeString v old
  end.
End jsondec.

(** [DraftData.UnmarshalJSON] on a receiver that holds [dd]: the input
    is decoded as a JSON string, and that string as the payload. *)
Definition DraftData_UnmarshalJSON (data : string) (dd : DraftData.t)
  : DraftData.t * option error :=
  let '(raw, err) := jsondec.Unmarshal_string data EmptyString in
  match err with
  | Some e => (dd, Some e)
  | None => jsondec.Unmarshal_draftData raw dd
  end.

Definition zeroDraftData : DraftData.t :=
  DraftData.mk EmptyString EmptyString EmptyString EmptyString 0 0 0 false.

(** ** Request bodies

    [Forum.do] takes its body as an [interface{}]; this program passes
    the map built by [SaveTopic] and the [*Draft] built by [SaveDraft]. *)

Inductive ReqBody : Type :=
| PostUpdate (raw raw_old : string)
| DraftEnvelope (d : Draft.t).

(** [json.Marshal] of a request body. The [data] member of a draft is what
    [DraftData.MarshalJSON] returns (a JSON string, which the library
    copies unchanged), or [null] for a nil pointer. *)
Definition json_Marshal_body (b : ReqBody) : string * option error :=
  match b with
  | PostUpdate raw raw_old =>
      (json.object
         [ json.member "post"
             (json.object [ json.member "raw" (json.encodeString raw);
                            json.member "raw_old" (json.encodeString raw_old) ]) ],
       None)
  | DraftEnvelope d =>
      let '(data, err) :=
        match Draft.Data d with
        | None => ("null", None)
        | Some dd => DraftData_MarshalJSON dd
        end in
      match err with
      | Some e => (EmptyString, Some e)
      | None =>
          (json.object
             [ json.member "draft_key" (json.encodeString (Draft.Key d));
               json.member "topic_id" (json.encodeInt (Draft.TopicID d));
               json.member "sequence" (json.encodeInt (Draft.Sequence d));
               json.member "data" data ],
           None)
      end
  end.

(** ** The world outside the program

    Calls to the operating system and to the network are recorded in a
    history; what a call answers is decided by the environment from the
    history so far, so that a file may read differently from one call to
    the next (the editor writes it meanwhile) and the server may answer
    anything. *)

Record Request : Type := mkRequest {
  req_verb : string;
  req_url : string;
  req_username : string;
  req_key : string;
  req_body : option string
}.

Inductive Call : Type :=
| CallReadFile (filename : string)
| CallStat (filename : string)
| CallRemove (filename : string)
| CallRename (oldpath newpath : string)
| CallHTTP (req : Request).

(** What [httpClient.Do] and [ioutil.ReadAll] make of one request. *)
Inductive HTTPOutcome : Type :=
| TransportFails (err : error)
| ReadBodyFails (StatusCode : Z) (err : error)
| Response (StatusCode : Z) (data : string).

Record Env : Type := mkEnv {
  os_ReadFile : list Call -> string -> string * option error;
  os_Stat : list Call -> string -> Z * option error;
  os_Remove : list Call -> string -> option error;
  os_Rename : list Call -> string -> string -> option error;
  http_Do : list Call -> Request -> HTTPOutcome
}.

(** Library functions the program calls and whose code is not part of it:
    the validation of a request's method and URL, whitespace trimming and
    the decoding of the server's answers into the
    result structs of [SaveTopic], [LoadDraft], [SaveDraft] and [do]. A
    decoder returns the struct it filled and the error of
    [json.Unmarshal]. *)
Record Lib : Type := mkLib {
  http_NewRequest : string -> string -> option error;
  bytes_TrimSpace : string -> string;
  strings_TrimSpace : string -> string;
  Unmarshal_postResult : string -> option Post.t * option error;
  Unmarshal_loadDraftResult : string -> (option DraftData.t * Z) * option error;
  Unmarshal_saveDraftResult : string -> (string * Z) * option error;
  Unmarshal_errorsResult : string -> list string * option error
}.

Record Flags : Type := mkFlags {
  debug : bool;
  ignoreDraft : bool;
  forceDraft : bool;
  liveEdit : bool
}.

Record LogLine : Type := mkLogLine {
  log_format : string;
  log_args : list fmtarg
}.

(** The state the program threads: the object behind the shared [*Topic],
    the global [quietMode], the history of calls and what was logged. *)
Record World : Type := mkWorld {
  topic : Topic.t;
  quietMode : bool;
  calls : list Call;
  logged : list LogLine
}.

Definition M (A : Type) : Type := World -> outcome A * World.

Definition ret {A} (a : A) : M A := fun w => (Done a, w).

Definition bind {A B} (m : M A) (k : A -> M B) : M B :=
  fun w =>
    match m w with
    | (Done a, w') => k a w'
    | (Panic, w') => (Panic, w')
    end.

Declare Scope go_scope.
Delimit Scope go_scope with go.
Notation "x <- m ;; k" := (bind m (fun x => k))
  (at level 61, m at next level, right associativity) : go_scope.
Notation "' pat <- m ;; k" := (bind m (fun x => match x with pat => k end))
  (at level 61, pat pattern, m at next level, right associativity) : go_scope.
Notation "m ;;; k" := (bind m (fun _ => k))
  (at level 61, right associativity) : go_scope.
Local Open Scope go_scope.

Definition lift {A} (o : outcome A) : M A := fun w => (o, w).

Definition getTopic : M Topic.t := fun w => (Done (topic w), w).

(** [topic.EditText()] and [topic.OriginalText()] on the shared topic. *)
Definition topicEditText : M string :=
  fun w => (Topic.EditText (topic w), w).

Definition topicOriginalText : M string :=
  fun w => (Topic.OriginalText (topic w), w).

Definition topicCheckDraft : M (option error) :=
  fun w => (Topic.CheckDraft (topic w), w).

Definition modifyTopic (f : Topic.t -> Topic.t) : M unit :=
  fun w => (Done tt, mkWorld (f (topic w)) (quietMode w) (calls w) (logged w)).

Definition setQuietMode (q : bool) : M unit :=
  fun w => (Done tt, mkWorld (topic w) q (calls w) (logged w)).

Definition record (c : Call) (w : World) : World :=
  mkWorld (topic w) (quietMode w) (calls w ++ [c]) (logged w).

Definition logf (format : string) (args : list fmtarg) : M unit :=
  fun w =>
    if quietMode w then (Done tt, w)
    else (Done tt, mkWorld (topic w) (quietMode w) (calls w)
                           (logged w ++ [mkLogLine format args])).

Definition Topic_String (x : Topic.t) : string :=
  "/" ++ Topic.Slug x ++ "/" ++ strconv.Itoa (Topic.ID x).

Record ForumConfig : Type := mkForumConfig {
  Username : string;
  Key : string
}.

Record Forum : Type := mkForum {
  config : ForumConfig;
  baseURL : string
}.

Definition isSome {A} (o : option A) : bool :=
  match o with Some _ => true | None => false end.

(** [withDefer d m]: [m] runs with [d] deferred; [d] runs when [m]
    returns and also when it panics. *)
Definition withDefer {A} (d : M unit) (m : M A) : M A :=
  fun w =>
    match m w with
    | (Done a, w') =>
        match d w' with
        | (Done _, w'') => (Done a, w'')
        | (Panic, w'') => (Panic, w'')
        end
    | (Panic, w') => (Panic, snd (d w'))
    end.

Section Engine.
Variable lib : Lib.
Variable env : Env.
Variable flags : Flags.
Variable configPath : string.

Definition debugf (format : string) (args : list fmtarg) : M unit :=
  fun w =>
    if debug flags
    then (Done tt, mkWorld (topic w) (quietMode w) (calls w)
                           (logged w ++ [mkLogLine ("[DEBUG] " ++ format) args]))
    else (Done tt, w).

Definition ioutil_ReadFile (filename : string) : M (string * option error) :=
  fun w => (Done (os_ReadFile env (calls w) filename), record (CallReadFile filename) w).

Definition osStat (filename : string) : M (Z * option error) :=
  fun w => (Done (os_Stat env (calls w) filename), record (CallStat filename) w).

Definition osRemove (filename : string) : M (option error) :=
  fun w => (Done (os_Remove env (calls w) filename), record (CallRemove filename) w).

Definition osRename (oldpath newpath : string) : M (option error) :=
  fun w => (Done (os_Rename env (calls w) oldpath newpath),
            record (CallRename oldpath newpath) w).

Definition httpClient_Do (req : Request) : M HTTPOutcome :=
  fun w => (Done (http_Do env (calls w) req), record (CallHTTP req) w).

(** [Forum.do]. The result struct is returned with the error: [zero] when
    nothing was decoded into it. *)
Definition do {R} (f : Forum) (verb path : string) (body : option ReqBody)
    (zero : R) (unmarshal : string -> R * option error) : M (R * option error) :=
  let marshalled :=
    match body with
    | Some b =>
        let '(data, err) := json_Marshal_body b in
        match err with
        | Some e => inl e
        | None => inr (Some data)
        end
    | None => inr None
    end in
  match marshalled with
  | inl e =>
      ret (zero, Some (Errorf "internal error: cannot marshal request body: %v" [ArgErr e]))
  | inr rbody =>
      match rbody with
      | Some data => debugf "%s on %s with %s" [ArgStr verb; ArgStr path; ArgStr data]
      | None => debugf "%s on %s" [ArgStr verb; ArgStr path]
      end ;;;
      match http_NewRequest lib verb (baseURL f ++ path) with
      | Some e => ret (zero, Some (Errorf "cannot create request: %v" [ArgErr e]))
      | None =>
          resp <- httpClient_Do
                    (mkRequest verb (baseURL f ++ path) (Username (config f))
                               (Key (config f)) rbody) ;;
          match resp with
          | TransportFails e =>
              ret (zero, Some (Errorf "cannot perform request on %s: %v"
                                      [ArgStr path; ArgErr e]))
          | ReadBodyFails status e =>
              ret (zero, Some (Errorf "cannot read response (status %d): %v"
                                      [ArgInt status; ArgErr e]))
          | Response status data =>
              debugf "Got response %d with %s" [ArgInt status; ArgStr data] ;;;
              if status =? 200 then
                let '(r, err) := unmarshal data in
                match err with
                | Some e =>
                    ret (r, Some (Errorf "cannot decode response from %s: %v"
                                         [ArgStr path; ArgErr e]))
                | None => ret (r, None)
                end
              else if (status =? 401) || (status =? 404) then
                ret (zero, Some (NotFoundError ("resource not found: " ++ path)))
              else if status =? 409 then
                ret (zero, Some (Errorf "someone else edited the same content meanwhile" []))
              else
                let '(errors, err) := Unmarshal_errorsResult lib data in
                match err, errors with
                | None, msg :: _ =>
                    ret (zero, Some (Errorf "cannot perform request: %s" [ArgStr msg]))
                | _, _ =>
                    ret (zero, Some (Errorf "cannot perform request: %s"
                                            [ArgStr ("got " ++ strconv.Itoa status ++ " status")]))
                end
          end
      end
  end.
(** [Forum.SaveTopic] *)
Definition SaveTopic (f : Forum) (filename : string) : M (option error) :=
  '(content, err) <- ioutil_ReadFile filename ;;
  match err with
  | Some e =>
      ret (Some (Errorf "cannot read edited content at %s: %v" [ArgStr filename; ArgErr e]))
  | None =>
      t <- getTopic ;;
      logf "Saving topic %s ..." [ArgStr (Topic_String t)] ;;;
      let raw := bytes_TrimSpace lib content in
      raw_old <- topicOriginalText ;;
      post <- lift (deref (Topic.Post t)) ;;
      '(result, err) <- do f "PUT" ("/posts/" ++ strconv.Itoa (Post.ID post) ++ ".json")
                           (Some (PostUpdate raw raw_old)) None
                           (Unmarshal_postResult lib) ;;
      match err with
      | Some e => ret (Some e)
      | None =>
          logf "Saved %s." [ArgStr (Topic_String t)] ;;;
          modifyTopic (Topic.set_Post result) ;;;
          newpost <- lift (deref result) ;;
          modifyTopic (Topic.set_Post (Some (Post.set_Raw raw newpost))) ;;;
          modifyTopic (Topic.set_Draft None) ;;;
          modifyTopic (Topic.set_DraftSequence (Post.DraftSequence newpost)) ;;;
          ret None
      end
  end.

(** [Forum.LoadDraft] *)
Definition LoadDraft (f : Forum) : M (option error) :=
  t <- getTopic ;;
  logf "Loading draft for topic %d..." [ArgInt (Topic.ID t)] ;;;
  let key := "topic_" ++ strconv.Itoa (Topic.ID t) in
  '(result, err) <- do f "GET" ("/draft.json?draft_key=" ++ key) None (None, 0)
                       (Unmarshal_loadDraftResult lib) ;;
  match err with
  | Some e => ret (Some e)
  | None =>
      let '(data, sequence) := result in
      modifyTopic (Topic.set_DraftSequence sequence) ;;;
      match data with
      | Some dd =>
          modifyTopic (Topic.set_Draft
                         (Some (Draft.mk key (Topic.ID t) sequence (Some dd))))
      | None => ret tt
      end ;;;
      ret None
  end.

(** The draft [SaveDraft] builds from the topic and the file's content. *)
Definition newDraft (t : Topic.t) (content : string) : outcome Draft.t :=
  obind (deref (Topic.Post t)) (fun post =>
  obind (Topic.OriginalText t) (fun original =>
  Done (Draft.mk ("topic_" ++ strconv.Itoa (Topic.ID t)) (Topic.ID t)
                 (Topic.DraftSequence t)
                 (Some (DraftData.mk "edit" (Topic.Title t) content original
                                     4321 1234 (Post.ID post) false))))).

(** [Forum.SaveDraft] *)
Definition SaveDraft (f : Forum) (filename : string) : M (option error) :=
  '(content, err) <- ioutil_ReadFile filename ;;
  match err with
  | Some e =>
      ret (Some (Errorf "cannot read edited content at %s: %v" [ArgStr filename; ArgErr e]))
  | None =>
      t <- getTopic ;;
      logf "Saving draft for %s ..." [ArgStr (Topic_String t)] ;;;
      draft <- lift (newDraft t content) ;;
      '(result, err) <- do f "POST" "/draft.json" (Some (DraftEnvelope draft))
                           (EmptyString, 0) (Unmarshal_saveDraftResult lib) ;;
      match err with
      | Some e => ret (Some e)
      | None =>
          let '(success, draft_sequence) := result in
          if negb (String.eqb success "OK") then
            let msg := if String.eqb success EmptyString then "unknown error" else success in
            ret (Some (Errorf "cannot update draft: %q" [ArgStr msg]))
          else
            modifyTopic (Topic.set_Draft (Some draft)) ;;;
            modifyTopic (Topic.set_DraftSequence draft_sequence) ;;;
            logf "Saved draft for %s." [ArgStr (Topic_String t)] ;;;
            ret None
      end
  end.

(** [run], between [LoadTopic] and [edit]: unless [-ignore-draft] is
    given the draft is loaded (a missing draft is no error) and checked;
    with [-force-draft] a conflict is logged and passed over. The result
    is the error [run] returns at this point, if any. *)
Definition checkLoaded : M (option error) :=
  err <- topicCheckDraft ;;
  match err with
  | Some e =>
      if forceDraft flags then
        logf "Previous draft has problems: %s" [ArgErr e] ;;;
        logf "Using draft anyway due to -force-draft" [] ;;;
        ret None
      else ret (Some e)
  | None => ret None
  end.

Definition loadAndCheck (f : Forum) : M (option error) :=
  if ignoreDraft flags then ret None
  else
    err <- LoadDraft f ;;
    match err with
    | Some e => if negb (isNotFound e) then ret (Some e) else checkLoaded
    | None => checkLoaded
    end.

(** [fileChanged] *)
Definition fileChanged (filename original : string) : M (bool * bool * option error) :=
  '(data, err) <- ioutil_ReadFile filename ;;
  match err with
  | Some e =>
      ret (false, false,
           Some (Errorf "cannot tell whether %s changed: %v" [ArgStr filename; ArgErr e]))
  | None =>
      let trimmed := bytes_TrimSpace lib data in
      let different := negb (String.eqb trimmed (strings_TrimSpace lib original)) in
      let empty := (String.length trimmed =? 0)%nat in
      ret (different, empty, None)
  end.

(** [renameToLast] *)
Definition renameToLast (filename : string) : M unit :=
  renameErr <- osRename filename (configPath ++ ".last.md") ;;
  match renameErr with
  | Some e => logf "WARNING: Cannot save backup: %v" [ArgErr e]
  | None => logf ("Saved backup: " ++ configPath ++ ".last.md") []
  end.

(** The variables the watcher's closure shares with [edit]: the [stat] of
    the file as last saved (its modification time) and the baseline
    [text]. *)
Record WatchVars : Type := mkWatchVars {
  wv_stat : Z;
  wv_text : string
}.

(** One iteration of the watcher's loop, after its [select]. *)
Definition watcherBody (f : Forum) (filename : string) (v : WatchVars) : M WatchVars :=
  '(curstat, err) <- osStat filename ;;
  match err with
  | Some e => debugf "Error stating file for draft: %v" [ArgErr e] ;;; ret v
  | None =>
      if curstat =? wv_stat v then ret v
      else
        '(different, empty, err) <- fileChanged filename (wv_text v) ;;
        if isSome err || negb different || empty then ret v
        else
          err <- (if liveEdit flags
                  then
                    err <- SaveTopic f filename ;;
                    match err with
                    | Some e => debugf "Error saving live edit: %v" [ArgErr e]
                    | None => ret tt
                    end ;;;
                    ret err
                  else ret err) ;;
          if negb (liveEdit flags) || isSome err then
            err <- SaveDraft f filename ;;
            match err with
            | Some e => debugf "Error saving draft: %v" [ArgErr e] ;;; ret v
            | None =>
                text <- topicEditText ;;
                ret (mkWatchVars curstat text)
            end
          else
            text <- topicEditText ;;
            ret (mkWatchVars curstat text)
  end.

(** The action the specification words for a detected change, to be
    compared with [watcherBody]: with live edit, save the post and fall
    back to a draft when that fails; without, save a draft; after a save
    that worked, take the baseline from the topic's [EditText]. *)
Definition refreshBaseline (curstat : Z) : M WatchVars :=
  text <- topicEditText ;;
  ret (mkWatchVars curstat text).

Definition draftAction (f : Forum) (filename : string) (curstat : Z) (v : WatchVars)
  : M WatchVars :=
  err <- SaveDraft f filename ;;
  match err with
  | Some e => debugf "Error saving draft: %v" [ArgErr e] ;;; ret v
  | None => refreshBaseline curstat
  end.

Definition watcherAction (f : Forum) (filename : string) (curstat : Z) (v : WatchVars)
  : M WatchVars :=
  if liveEdit flags then
    err <- SaveTopic f filename ;;
    match err with
    | Some e =>
        debugf "Error saving live edit: %v" [ArgErr e] ;;;
        draftAction f filename curstat v
    | None => refreshBaseline curstat
    end
  else draftAction f filename curstat v.

(** The state after the watcher has found the file modified and read it:
    [os.Stat], then the read of [fileChanged]. *)
Definition afterChangeCheck (filename : string) (w : World) : World :=
  record (CallReadFile filename) (record (CallStat filename) w).

(** The file, as the watcher sees it at its iteration, is a real change:
    its modification time differs from the recorded one and its trimmed
    content is not empty and differs from the trimmed baseline. *)
Definition detectedChange (filename : string) (v : WatchVars) (w : World) (curstat : Z)
  : Prop :=
  exists data,
    os_Stat env (calls w) filename = (curstat, None) /\
    curstat <> wv_stat v /\
    os_ReadFile env (calls (record (CallStat filename) w)) filename = (data, None) /\
    bytes_TrimSpace lib data <> EmptyString /\
    bytes_TrimSpace lib data <> strings_TrimSpace lib (wv_text v).

(** The reconciliation finds a real edit: [edit] returned a file name and
    no error, and the file, trimmed, is not empty and differs from the
    topic's trimmed original text. *)
Definition realEdit (filename : string) (w : World) : Prop :=
  exists original data,
    filename <> EmptyString /\
    Topic.OriginalText (topic w) = Done original /\
    os_ReadFile env (calls w) filename = (data, None) /\
    bytes_TrimSpace lib data <> EmptyString /\
    bytes_TrimSpace lib data <> strings_TrimSpace lib original.

(** [run], from the call of [edit] on: [initial] is the original text
    before editing, [filename] and [editErr] are what [edit] returned. *)
Definition reconcile (f : Forum) (initial filename : string) (editErr : option error)
  : M (option error) :=
  '(different, empty, err) <-
     match editErr with
     | None =>
         original <- topicOriginalText ;;
         fileChanged filename original
     | Some e => ret (false, false, Some e)
     end ;;
  withDefer
    (if negb (String.eqb filename EmptyString) && different && negb empty
     then renameToLast filename else ret tt)
    (match err with
     | Some e => ret (Some e)
     | None =>
         if empty then
           osRemove filename ;;;
           ret (Some (Errorf "no content provided, aborting" []))
         else if negb different then
           (if liveEdit flags then
              original <- topicOriginalText ;;
              if negb (String.eqb initial original)
              then logf "Changes already saved." []
              else logf "No changes to save." []
            else logf "No changes to save." []) ;;;
           osRemove filename ;;;
           ret None
         else
           SaveTopic f filename
     end).
End Engine.

(** ** The two threads of [edit] and the rest of [run]

    From the [go] statement of [edit] on, the foreground and the watcher
    run side by side. The foreground sets [quietMode], blocks in
    [cmd.Run], and then either returns the editor's error or closes
    [stop] and receives from [done]; back in [run] it reconciles. The
    watcher sits at its [select], runs the loop body after the timer or
    after [stop] (then for the last time), and closes [done] when it
    leaves the loop. [Choice] is what the scheduler and the outside decide
    at each step; a step that is not enabled yields [None]. When [run] has
    returned the process exits, and a panic in either thread ends it. *)

Inductive FgPC : Type :=
| FgSpawned
| FgInEditor
| FgEditorExited (err : option error)
| FgWaitDone
| FgEditReturned (name : string) (err : option error)
| FgRunReturned (err : option error)
| FgPanicked.

Inductive WtPC : Type :=
| WtSelect
| WtBody (last : bool)
| WtLeaving
| WtDone
| WtPanicked.

Inductive Choice : Type :=
| ChForeground
| ChEditorExits (err : option error)
| ChTimer
| ChStop
| ChWatcher.

Record Config : Type := mkConfig {
  fg : FgPC;
  wt : WtPC;
  stop_closed : bool;
  done_closed : bool;
  vars : WatchVars;
  world : World
}.

Definition processEnded (c : Config) : bool :=
  match fg c, wt c with
  | FgRunReturned _, _ => true
  | FgPanicked, _ => true
  | _, WtPanicked => true
  | _, _ => false
  end.

Section Sync.
Variable lib : Lib.
Variable env : Env.
Variable flags : Flags.
Variable configPath : string.
Variable f : Forum.
Variable filename : string.
Variable initial : string.

Definition stepForeground (c : Config) : option Config :=
  match fg c with
  | FgSpawned =>
      Some (mkConfig FgInEditor (wt c) (stop_closed c) (done_closed c) (vars c)
              (mkWorld (topic (world c)) true (calls (world c)) (logged (world c))))
  | FgInEditor => None
  | FgEditorExited (Some e) =>
      Some (mkConfig
              (FgEditReturned filename
                 (Some (Errorf "cannot edit file %s: %v" [ArgStr filename; ArgErr e])))
              (wt c) (stop_closed c) (done_closed c) (vars c) (world c))
  | FgEditorExited None =>
      Some (mkConfig FgWaitDone (wt c) true (done_closed c) (vars c) (world c))
  | FgWaitDone =>
      if done_closed c
      then Some (mkConfig (FgEditReturned filename None) (wt c) (stop_closed c)
                          (done_closed c) (vars c) (world c))
      else None
  | FgEditReturned name err =>
      match reconcile lib env flags configPath f initial name err (world c) with
      | (Done r, w') =>
          Some (mkConfig (FgRunReturned r) (wt c) (stop_closed c) (done_closed c)
                         (vars c) w')
      | (Panic, w') =>
          Some (mkConfig FgPanicked (wt c) (stop_closed c) (done_closed c) (vars c) w')
      end
  | FgRunReturned _ => None
  | FgPanicked => None
  end.

Definition stepWatcher (c : Config) : option Config :=
  match wt c with
  | WtSelect => None
  | WtBody last =>
      match watcherBody lib env flags f filename (vars c) (world c) with
      | (Done v', w') =>
          Some (mkConfig (fg c) (if last then WtLeaving else WtSelect)
                         (stop_closed c) (done_closed c) v' w')
      | (Panic, w') =>
          Some (mkConfig (fg c) WtPanicked (stop_closed c) (done_closed c) (vars c) w')
      end
  | WtLeaving =>
      Some (mkConfig (fg c) WtDone (stop_closed c) true (vars c) (world c))
  | WtDone => None
  | WtPanicked => None
  end.

Definition step (c : Config) (ch : Choice) : option Config :=
  if processEnded c then None
  else
    match ch with
    | ChForeground => stepForeground c
    | ChEditorExits err =>
        match fg c with
        | FgInEditor =>
            Some (mkConfig (FgEditorExited err) (wt c) (stop_closed c) (done_closed c)
                    (vars c)
                    (mkWorld (topic (world c)) false (calls (world c))
                             (logged (world c))))
        | _ => None
        end
    | ChTimer =>
        match wt c with
        | WtSelect =>
            Some (mkConfig (fg c) (WtBody false) (stop_closed c) (done_closed c)
                           (vars c) (world c))
        | _ => None
        end
    | ChStop =>
        match wt c with
        | WtSelect =>
            if stop_closed c
            then Some (mkConfig (fg c) (WtBody true) (stop_closed c) (done_closed c)
                                (vars c) (world c))
            else None
        | _ => None
        end
    | ChWatcher => stepWatcher c
    end.

Fixpoint exec (c : Config) (chs : list Choice) : option Config :=
  match chs with
  | [] => Some c
  | ch :: chs' =>
      match step c ch with
      | Some c' => exec c' chs'
      | None => None
      end
  end.

(** The configuration right after the [go] statement: [stat] and [text]
    are what [edit] computed before it. *)
Definition spawned (stat : Z) (text : string) (w : World) : Config :=
  mkConfig FgSpawned WtSelect false false (mkWatchVars stat text) w.
End Sync.

(** ** Vocabulary of the statements

    What the theorems below speak of: the requests [SaveTopic] and
    [SaveDraft] send and the topics they leave behind, the calls of one
    save, the invariant of the hand-over between the two threads, and
    valid UTF-8 with the shapes of the texts the JSON encoder writes. *)

(** The error [do] returns for status 409. *)
Definition conflictError : error :=
  Errorf "someone else edited the same content meanwhile" [].

(** What [main] does with the result of [run]: the line written to the
    standard error, if any, and the exit code. *)
Definition main_report (r : option error) : option LogLine * Z :=
  match r with
  | Some e => (Some (mkLogLine ("error: %v" ++ str1 (bytechr 10)) [ArgErr e]), 1)
  | None => (None, 0)
  end.

Definition marshalled (body : option ReqBody) : option string :=
  match body with
  | Some b => Some (fst (json_Marshal_body b))
  | None => None
  end.

Definition putRequest (f : Forum) (post : Post.t) (raw raw_old : string) : Request :=
  mkRequest "PUT" (baseURL f ++ "/posts/" ++ strconv.Itoa (Post.ID post) ++ ".json")
            (Username (config f)) (Key (config f))
            (marshalled (Some (PostUpdate raw raw_old))).

Definition postDraftRequest (f : Forum) (draft : Draft.t) : Request :=
  mkRequest "POST" (baseURL f ++ "/draft.json")
            (Username (config f)) (Key (config f))
            (marshalled (Some (DraftEnvelope draft))).

Definition savedTopic (raw : string) (newpost : Post.t) (t : Topic.t) : Topic.t :=
  Topic.set_DraftSequence (Post.DraftSequence newpost)
    (Topic.set_Draft None
       (Topic.set_Post (Some (Post.set_Raw raw newpost)) t)).

Definition draftedTopic (draft : Draft.t) (sequence : Z) (t : Topic.t) : Topic.t :=
  Topic.set_DraftSequence sequence (Topic.set_Draft (Some draft) t).

Definition conflicting (t : Topic.t) : Prop :=
  exists d dd p,
    Topic.Draft t = Some d /\ Draft.Data d = Some dd /\ Topic.Post t = Some p /\
    DraftData.OriginalText dd <> Post.Raw p.


(** The invariant of the hand-over between the two threads: [done] is
    closed only when the watcher has finished; the watcher runs its last
    iteration, leaves the loop or has finished only once [stop] is
    closed; the foreground waits for [done] only after closing [stop],
    and [edit] has returned nil only after [stop] and [done] were
    closed. *)
Definition handover (c : Config) : Prop :=
  (done_closed c = true -> wt c = WtDone) /\
  (wt c = WtBody true \/ wt c = WtLeaving \/ wt c = WtDone -> stop_closed c = true) /\
  (fg c = FgWaitDone -> stop_closed c = true) /\
  (forall name, fg c = FgEditReturned name None ->
     stop_closed c = true /\ done_closed c = true).


(** [goodseq p r]: the bytes [p] are the UTF-8 encoding of the rune [r],
    two to four bytes long, and decode to it whatever follows them. *)
Definition goodseq (p : string) (r : Z) : Prop :=
  (2 <= String.length p)%nat /\
  utf8.EncodeRune r = p /\
  0x80 <= r /\
  (exists c p', p = String c p' /\ 0x80 <= byteval c) /\
  (forall t, utf8.DecodeRuneInString (p ++ t) = (r, String.length p)).

(** Valid UTF-8: a sequence of ASCII bytes and of encoded runes. *)
Inductive Valid : string -> Prop :=
| Valid_nil : Valid EmptyString
| Valid_ascii c s : byteval c < 0x80 -> Valid s -> Valid (String c s)
| Valid_rune p r s : goodseq p r -> Valid s -> Valid (p ++ s).

(** Strings made of ASCII bytes only. *)
Fixpoint allAscii (s : string) : bool :=
  match s with
  | EmptyString => true
  | String c s' => (byteval c <? 0x80) && allAscii s'
  end.

(** What the encoder writes for one ASCII byte. *)
Definition encodeAscii (c : ascii) : string :=
  if json.htmlSafeSet (byteval c) then str1 c else json.escapeByte (byteval c).

(** What the encoder writes for one rune of two bytes or more. *)
Definition encodeSeq (p : string) (r : Z) : string :=
  if (r =? 0x2028) || (r =? 0x2029)
  then String backslash "u202" ++ str1 (json.hexdigit (Z.land r 0xF))
  else p.

(** Strings of decimal digits, and texts that end a number literal. *)
Fixpoint allDigits (s : string) : bool :=
  match s with
  | EmptyString => true
  | String c s' => jsondec.isDigit (byteval c) && allDigits s'
  end.

Definition numberEnd (s : string) : bool :=
  match s with
  | EmptyString => true
  | String c _ =>
      let b := byteval c in
      negb (jsondec.isDigit b || (b =? 0x2E) || (b =? 0x65) || (b =? 0x45))
  end.

(** The range of a Go [int] on the platforms Go supports with 64 bits. *)
Definition int64 (n : Z) : Prop := - 2 ^ 63 <= n < 2 ^ 63.

(** Object keys the encoder writes as they are. *)
Fixpoint plainKey (s : string) : bool :=
  match s with
  | EmptyString => true
  | String c s' => json.htmlSafeSet (byteval c) && plainKey s'
  end.

(** A payload the wire format can carry: its strings are valid UTF-8 and
    its integers are in the range of a Go [int]. *)
Definition validDraftData (dd : DraftData.t) : Prop :=
  utf8.ValidString (DraftData.Action dd) = true /\
  utf8.ValidString (DraftData.Title dd) = true /\
  utf8.ValidString (DraftData.Reply dd) = true /\
  utf8.ValidString (DraftData.OriginalText dd) = true /\
  int64 (DraftData.ComposerTime dd) /\
  int64 (DraftData.TypingTime dd) /\
  int64 (DraftData.PostID dd).

(** The tree the decoder builds from the encoding of a payload. *)
Definition draftDataTree (dd : DraftData.t) : jvalue :=
  JObject
    [ ("action", JString (DraftData.Action dd));
      ("title", JString (DraftData.Title dd));
      ("reply", JString (DraftData.Reply dd));
      ("originalText", JString (DraftData.OriginalText dd));
      ("composerTime", JNumber (strconv.Itoa (DraftData.ComposerTime dd)));
      ("typingTime", JNumber (strconv.Itoa (DraftData.TypingTime dd)));
      ("postId", JNumber (strconv.Itoa (DraftData.PostID dd)));
      ("whisper", JBool (DraftData.Whisper dd)) ].

(** ** Sample values

    A topic whose post reads "Hello world", a draft started from it, and
    a library instance that trims ASCII white space and decodes every
    answer of the server to a fixed result. They serve the closed
    examples below. *)

Module Sample.
Definition asciiSpace (c : ascii) : bool :=
  let b := byteval c in
  (b =? 0x09) || (b =? 0x0A) || (b =? 0x0B) || (b =? 0x0C) || (b =? 0x0D) || (b =? 0x20).

Fixpoint trimLeft (s : string) : string :=
  match s with
  | String c r => if asciiSpace c then trimLeft r else s
  | EmptyString => EmptyString
  end.

Fixpoint trimRight (s : string) : string :=
  match s with
  | EmptyString => EmptyString
  | String c r =>
      match trimRight r with
      | EmptyString => if asciiSpace c then EmptyString else str1 c
      | r' => String c r'
      end
  end.

Definition TrimSpace (s : string) : string := trimRight (trimLeft s).

Definition post : Post.t :=
  Post.mk 11 "alice" "<p>Hello world</p>" "Hello world" 1000 7 "" 3.

Definition savedPost : Post.t :=
  Post.mk 11 "alice" "<p>Hello there</p>" "Hello there" 2000 7 "" 4.

Definition draftData : DraftData.t :=
  DraftData.mk "edit" "Greetings" "Hello draft" "Hello world" 4321 1234 11 false.

Definition staleDraftData : DraftData.t :=
  DraftData.mk "edit" "Greetings" "Hello draft" "Hello" 4321 1234 11 false.

(** A reply with runes of two, three and four bytes (U+00E9, U+2028,
    U+1F600), a quote, a line feed and an angle bracket. *)
Definition unicodeReply : string :=
  "<caf" ++ String (bytechr 0xC3) (String (bytechr 0xA9)
    (String dquote (String (bytechr 0x0A)
      (String (bytechr 0xE2) (String (bytechr 0x80) (String (bytechr 0xA8)
        (String (bytechr 0xF0) (String (bytechr 0x9F) (String (bytechr 0x98)
          (String (bytechr 0x80) ">")))))))))).

Definition unicodeDraftData : DraftData.t :=
  DraftData.mk "edit" "Greetings" unicodeReply "Hello world" 4321 (-1234) 0 true.

(** A reply that is not UTF-8: the single byte 0xFF, as a file may hold
    it. *)
Definition rawByteDraftData : DraftData.t :=
  DraftData.mk "edit" "Greetings" (str1 (bytechr 0xFF)) "Hello world" 4321 1234 11 false.

Definition draft : Draft.t := Draft.mk "topic_7" 7 3 (Some draftData).
Definition staleDraft : Draft.t := Draft.mk "topic_7" 7 3 (Some staleDraftData).

Definition plainTopic : Topic.t :=
  Topic.mk 7 "greetings" "Greetings" 1 900 "topic_7" 3 (Some post) None EmptyString.

Definition draftTopic : Topic.t := Topic.set_Draft (Some draft) plainTopic.
Definition staleTopic : Topic.t := Topic.set_Draft (Some staleDraft) plainTopic.

Definition lib : Lib :=
  mkLib (fun _ _ => None) TrimSpace TrimSpace
        (fun _ => (Some savedPost, None))
        (fun _ => ((Some draftData, 5), None))
        (fun _ => (("OK", 6), None))
        (fun _ => ([], None)).

Definition forum : Forum :=
  mkForum (mkForumConfig "alice" "secret") "https://forum.example".

Definition configPath : string := "/home/alice/.discedit".
Definition filename : string := "/home/alice/.discedit.42.md".

Definition flagsDraft : Flags := mkFlags false false false false.
Definition flagsLive : Flags := mkFlags false false false true.

Definition isPut (req : Request) : bool := String.eqb (req_verb req) "PUT".

(** An environment where the file reads [content] with modification time
    [mtime], and the server answers a post update with [putStatus] and
    every other request with 200. *)
Definition envWith (content : string) (mtime putStatus : Z) : Env :=
  mkEnv (fun _ _ => (content, None))
        (fun _ _ => (mtime, None))
        (fun _ _ => None)
        (fun _ _ _ => None)
        (fun _ req => if isPut req then Response putStatus EmptyString
                      else Response 200 EmptyString).

Definition world (t : Topic.t) : World := mkWorld t false [] [].

(** The same while the editor runs: [quietMode] is set. *)
Definition editingWorld (t : Topic.t) : World := mkWorld t true [] [].
End Sample.

(** ** Start-up: the topic URL

    [topicURLPattern] is compiled by [regexp.MustCompile]. The library
    returns the match a backtracking search finds first: a [?] and a [+]
    prefer to take what they can and give it back when what follows does
    not match. The matcher below is that search, for the operators of
    this pattern; the classes of the pattern are sets of ASCII bytes or
    the complement of one, on which matching by bytes and by runes agree.
    A group that takes no part in the match is reported as the empty
    string. *)

Module regexp.

Inductive t : Type :=
| BeginText
| EndText
| Literal (s : string)
| PlusClass (class : ascii -> bool)
| Quest (r : t)
| Concat (r1 r2 : t)
| Capture (n : nat) (r : t).

Definition captures : Type := nat -> string.

Definition nocaptures : captures := fun _ => EmptyString.

Definition setcap (n : nat) (text : string) (m : captures) : captures :=
  fun i => if Nat.eqb i n then text else m i.

Definition orElse (first second : option captures) : option captures :=
  match first with
  | Some m => Some m
  | None => second
  end.

Fixpoint trimPrefix (l s : string) : option string :=
  match l, s with
  | EmptyString, _ => Some s
  | String a l', String b s' => if Ascii.eqb a b then trimPrefix l' s' else None
  | String _ _, EmptyString => None
  end.

(** [class+] at offset [pos] of the text, [s] being the text from there
    on: the longest run first, then the shorter ones. *)
Fixpoint plus (class : ascii -> bool) (pos : nat) (s : string)
    (k : nat -> string -> option captures) : option captures :=
  match s with
  | String a s' =>
      if class a then orElse (plus class (S pos) s' k) (k (S pos) s')
      else None
  | EmptyString => None
  end.

Fixpoint run (r : t) (pos : nat) (s : string) (m : captures)
    (k : nat -> string -> captures -> option captures) : option captures :=
  match r with
  | BeginText => if Nat.eqb pos 0 then k pos s m else None
  | EndText => match s with EmptyString => k pos s m | _ => None end
  | Literal l =>
      match trimPrefix l s with
      | Some s' => k (pos + String.length l)%nat s' m
      | None => None
      end
  | PlusClass class => plus class pos s (fun pos' s' => k pos' s' m)
  | Quest r1 => orElse (run r1 pos s m k) (k pos s m)
  | Concat r1 r2 => run r1 pos s m (fun pos1 s1 m1 => run r2 pos1 s1 m1 k)
  | Capture n r1 =>
      run r1 pos s m
        (fun pos1 s1 m1 => k pos1 s1 (setcap n (str_take (pos1 - pos) s) m1))
  end.

(** The leftmost match: the offsets are tried in turn. *)
Fixpoint find (re : t) (pos : nat) (s : string) : option captures :=
  match run (Capture 0 re) pos s nocaptures (fun _ _ m => Some m) with
  | Some m => Some m
  | None =>
      match s with
      | String _ s' => find re (S pos) s'
      | EmptyString => None
      end
  end.

(** [re.FindStringSubmatch(s)]: [None] is the nil slice. *)
Definition FindStringSubmatch (re : t) (s : string) : option captures :=
  find re 0 s.

End regexp.

Definition notSlash (c : ascii) : bool := negb (byteval c =? 0x2F).

Definition slugByte (c : ascii) : bool :=
  let b := byteval c in
  ((0x61 <=? b) && (b <=? 0x7A)) || ((0x30 <=? b) && (b <=? 0x39)) || (b =? 0x2D).

Definition digitByte (c : ascii) : bool := jsondec.isDigit (byteval c).

(** [^(https?://[^/]+)?(?:/t)?(?:/([a-z0-9-]+))?/([0-9]+)(?:/[0-9]+)?$] *)
Definition topicURLPattern : regexp.t :=
  let cat := regexp.Concat in
  cat regexp.BeginText
 (cat (regexp.Quest
         (regexp.Capture 1
            (cat (regexp.Literal "http")
            (cat (regexp.Quest (regexp.Literal "s"))
            (cat (regexp.Literal "://") (regexp.PlusClass notSlash))))))
 (cat (regexp.Quest (regexp.Literal "/t"))
 (cat (regexp.Quest (cat (regexp.Literal "/")
                         (regexp.Capture 2 (regexp.PlusClass slugByte))))
 (cat (regexp.Literal "/")
 (cat (regexp.Capture 3 (regexp.PlusClass digitByte))
 (cat (regexp.Quest (cat (regexp.Literal "/") (regexp.PlusClass digitByte)))
      regexp.EndText)))))).

(** [strconv.Atoi], for an [int] of 64 bits: an optional sign and decimal
    digits; a value out of range comes back as the nearest bound, with an
    error. The errors stand for the library's [*strconv.NumError] with
    [ErrRange] and [ErrSyntax]: their text here names the function and
    the cause, and leaves out the quoted input. [parseTopicURL] only
    tests the error against nil. *)
Definition strconv_Atoi (s : string) : Z * option error :=
  let '(neg, digits) :=
    match s with
    | String c r =>
        if byteval c =? 0x2D then (true, r)
        else if byteval c =? 0x2B then (false, r)
        else (false, s)
    | EmptyString => (false, s)
    end in
  match DecimalString.NilZero.uint_of_string digits with
  | Some d =>
      let v := if neg then - Z.of_uint d else Z.of_uint d in
      if v <? - 2 ^ 63
      then (- 2 ^ 63, Some (SysError "strconv.Atoi: value out of range"))
      else if 2 ^ 63 <=? v
      then (2 ^ 63 - 1, Some (SysError "strconv.Atoi: value out of range"))
      else (v, None)
  | None => (0, Some (SysError "strconv.Atoi: invalid syntax"))
  end.

(** [parseTopicURL] *)
Definition parseTopicURL (topicURL : string) : string * Z * option error :=
  match regexp.FindStringSubmatch topicURLPattern topicURL with
  | None =>
      (EmptyString, 0, Some (Errorf "unsupported topic URL: %q" [ArgStr topicURL]))
  | Some m =>
      let '(id, err) := strconv_Atoi (m 3%nat) in
      match err with
      | Some _ =>
          (EmptyString, 0,
           Some (Errorf "internal error: URL pattern matched with non-int page ID" []))
      | None => (m 1%nat, id, None)
      end
  end.

Fixpoint allOf (class : ascii -> bool) (s : string) : bool :=
  match s with
  | EmptyString => true
  | String c s' => class c && allOf class s'
  end.

Definition startsWith (class : ascii -> bool) (s : string) : bool :=
  match s with
  | String c _ => class c
  | EmptyString => false
  end.

Definition isOrigin (base : string) : Prop :=
  exists scheme host,
    (scheme = "http" \/ scheme = "https") /\
    host <> EmptyString /\ allOf notSlash host = true /\
    base = scheme ++ "://" ++ host.

Definition isSlug (slug : string) : Prop :=
  slug <> EmptyString /\ allOf slugByte slug = true.

(** The part of the pattern after the origin. *)
Definition pathPattern : regexp.t :=
  let cat := regexp.Concat in
 (cat (regexp.Quest (regexp.Literal "/t"))
 (cat (regexp.Quest (cat (regexp.Literal "/")
                         (regexp.Capture 2 (regexp.PlusClass slugByte))))
 (cat (regexp.Literal "/")
 (cat (regexp.Capture 3 (regexp.PlusClass digitByte))
 (cat (regexp.Quest (cat (regexp.Literal "/") (regexp.PlusClass digitByte)))
      regexp.EndText))))).

Definition originPattern : regexp.t :=
  let cat := regexp.Concat in
  regexp.Capture 1
            (cat (regexp.Literal "http")
            (cat (regexp.Quest (regexp.Literal "s"))
            (cat (regexp.Literal "://") (regexp.PlusClass notSlash)))).

Definition isPost (post : string) : Prop :=
  post = EmptyString \/
  exists pd, pd <> EmptyString /\ allOf digitByte pd = true /\ post = "/" ++ pd.

Definition idTail : regexp.t :=
  regexp.Concat (regexp.Literal "/")
    (regexp.Concat (regexp.Capture 3 (regexp.PlusClass digitByte))
       (regexp.Concat
          (regexp.Quest (regexp.Concat (regexp.Literal "/")
                                       (regexp.PlusClass digitByte)))
          regexp.EndText)).

(** The prefix of a topic URL: nothing, or scheme and host. *)
Definition isBase (base : string) : Prop := base = EmptyString \/ isOrigin base.

(** What the outermost group records when the match ends at [pos]. *)
Definition wholeMatch (text : string) : nat -> string -> regexp.captures -> option regexp.captures :=
  fun pos _ m => Some (regexp.setcap 0 (str_take (pos - 0) text) m).

(** ** What a match means

    [matches r pos s rest m m']: at offset [pos], with [rest] after it,
    the text [s] is one way for [r] to match, and the groups recorded go
    from [m] to [m']. *)
Inductive matches : regexp.t -> nat -> string -> string ->
                    regexp.captures -> regexp.captures -> Prop :=
| matches_BeginText rest m : matches regexp.BeginText 0 EmptyString rest m m
| matches_EndText pos m : matches regexp.EndText pos EmptyString EmptyString m m
| matches_Literal l pos rest m : matches (regexp.Literal l) pos l rest m m
| matches_PlusClass class pos body rest m :
    body <> EmptyString -> allOf class body = true ->
    matches (regexp.PlusClass class) pos body rest m m
| matches_Quest_skip r pos rest m : matches (regexp.Quest r) pos EmptyString rest m m
| matches_Quest_take r pos s rest m m' :
    matches r pos s rest m m' -> matches (regexp.Quest r) pos s rest m m'
| matches_Concat r1 r2 pos s1 s2 rest m m1 m2 :
    matches r1 pos s1 (s2 ++ rest) m m1 ->
    matches r2 (pos + String.length s1)%nat s2 rest m1 m2 ->
    matches (regexp.Concat r1 r2) pos (s1 ++ s2) rest m m2
| matches_Capture n r pos s rest m m' :
    matches r pos s rest m m' ->
    matches (regexp.Capture n r) pos s rest m (regexp.setcap n s m').

(** The shape of a text the pattern matches, with what the groups hold. *)
Definition topicURLShape (u base ids : string) : Prop :=
  exists t slugpart post,
    u = base ++ t ++ slugpart ++ "/" ++ ids ++ post /\
    isBase base /\
    (t = EmptyString \/ t = "/t") /\
    (slugpart = EmptyString \/ exists slug, isSlug slug /\ slugpart = "/" ++ slug) /\
    ids <> EmptyString /\ allOf digitByte ids = true /\ isPost post.

Definition rangeError : error := SysError "strconv.Atoi: value out of range".

Definition isTopicID (n : Z) : Prop := 0 <= n < 2 ^ 63.

(** ** Start-up: the configuration

    The [Config] struct has the single field [Forums], a Go map from the
    forum's URL to a [*ForumConfig]; [readConfig] returns that map. A map
    is kept as a list of bindings in which the first binding of a key is
    the one that counts. *)

Module Forums.

Definition t : Type := list (string * option ForumConfig).

Fixpoint get (k : string) (m : t) : option (option ForumConfig) :=
  match m with
  | [] => None
  | (k', v) :: m' => if String.eqb k' k then Some v else get k m'
  end.

Fixpoint delete (k : string) (m : t) : t :=
  match m with
  | [] => []
  | (k', v) :: m' => if String.eqb k' k then delete k m' else (k', v) :: delete k m'
  end.

Definition set (k : string) (v : option ForumConfig) (m : t) : t :=
  (k, v) :: delete k m.

(** [m[k]]: a key that is not there reads as nil. *)
Definition index (m : t) (k : string) : option ForumConfig :=
  match get k m with
  | Some v => v
  | None => None
  end.

End Forums.

(** [strings.TrimRight(s, cutset)] for a cutset of one ASCII byte. *)
Fixpoint strings_TrimRight (s : string) (cutset : ascii) : string :=
  match s with
  | EmptyString => EmptyString
  | String a s' =>
      match strings_TrimRight s' cutset with
      | EmptyString => if Ascii.eqb a cutset then EmptyString else String a EmptyString
      | r => String a r
      end
  end.

Definition newline : string := String (bytechr 10) EmptyString.

(** Library functions of the start-up: the test [os.IsNotExist], the
    decoding of the configuration file by [yaml.Unmarshal] and the
    decoding of the server's answer into the result struct of
    [LoadTopic] (the topic, or nil, and the posts of its stream). *)
Record StartLib : Type := mkStartLib {
  os_IsNotExist : error -> bool;
  yaml_Unmarshal : string -> Forums.t * option error;
  Unmarshal_loadTopicResult :
    string -> (option Topic.t * list (option Post.t)) * option error
}.

Section Startup.

Variable lib : Lib.

Variable slib : StartLib.

Variable env : Env.

Variable flags : Flags.

Variable configPath : string.

(** The order in which a [range] over a map produces its keys is the
    runtime's choice: [rangeOrder m] is the order chosen for the map [m]
    as it is when the loop starts. A key is produced when its turn comes
    if the map holds it then and it was not produced before; so an entry
    removed before its turn is skipped, and an entry added by the loop is
    produced or not, as the order has it. *)
Variable rangeOrder : Forums.t -> list string.

Definition configErr : error :=
  Errorf ("%s must contain forums in the YAML format:" ++ newline ++
          "forums:" ++ newline ++
          "    https://some.discourse.domain:" ++ newline ++
          "        username: your-username" ++ newline ++
          "        key: your-key" ++ newline)
         [ArgStr configPath].

(** The body of the loop of [readConfig]: the map after the iteration,
    and the error the function returns from it, if any. *)
Definition readConfig_body (baseURL : string) (fconfig : option ForumConfig)
    (forums : Forums.t) : outcome (Forums.t * option error) :=
  let cleanURL := strings_TrimRight baseURL "/" in
  let '(_, _, err) := parseTopicURL (cleanURL ++ "/t/123") in
  match err with
  | Some _ =>
      Done (forums, Some (Errorf "%s has invalid forum URL: %q"
                                 [ArgStr configPath; ArgStr baseURL]))
  | None =>
      let forums' :=
        if negb (String.eqb cleanURL baseURL)
        then Forums.delete baseURL (Forums.set cleanURL fconfig forums)
        else forums in
      obind (deref fconfig) (fun fc =>
      if String.eqb (Username fc) EmptyString || String.eqb (Key fc) EmptyString
      then Done (forums', Some (Errorf "%s misses username or key for forum %s"
                                       [ArgStr configPath; ArgStr baseURL]))
      else Done (forums', None))
  end.

Fixpoint readConfig_range (order seen : list string) (forums : Forums.t)
  : outcome (Forums.t * option error) :=
  match order with
  | [] => Done (forums, None)
  | baseURL :: order' =>
      if existsb (String.eqb baseURL) seen then readConfig_range order' seen forums
      else
        match Forums.get baseURL forums with
        | None => readConfig_range order' seen forums
        | Some fconfig =>
            match readConfig_body baseURL fconfig forums with
            | Done (forums', None) => readConfig_range order' (baseURL :: seen) forums'
            | Done (forums', Some e) => Done (forums', Some e)
            | Panic => Panic
            end
        end
  end.

(** [readConfig] *)
Definition readConfig : M (option Forums.t * option error) :=
  '(data, err) <- ioutil_ReadFile env configPath ;;
  match err with
  | Some e =>
      if os_IsNotExist slib e then ret (None, Some configErr)
      else ret (None, Some (Errorf "cannot read %s: %v" [ArgStr configPath; ArgErr e]))
  | None =>
      let '(forums, err) := yaml_Unmarshal slib data in
      match err with
      | Some e =>
          ret (None, Some (Errorf "cannot unmarshal %s: %v" [ArgStr configPath; ArgErr e]))
      | None =>
          if (List.length forums =? 0)%nat then ret (None, Some configErr)
          else
            '(forums', err) <- lift (readConfig_range (rangeOrder forums) [] forums) ;;
            match err with
            | Some e => ret (None, Some e)
            | None => ret (Some forums', None)
            end
      end
  end.

(** [Forum.LoadTopic]: the topic it returns is a new object, which [run]
    then shares with [edit]. *)
Definition LoadTopic (f : Forum) (topicID : Z) : M (option Topic.t * option error) :=
  logf "Loading topic %d..." [ArgInt topicID] ;;;
  '(result, err) <- do lib env flags f "GET"
                       ("/t/" ++ strconv.Itoa topicID ++ ".json?include_raw=true")
                       None (None, []) (Unmarshal_loadTopicResult slib) ;;
  match err with
  | Some e => ret (None, Some e)
  | None =>
      match result with
      | (Some t, post0 :: _) => ret (Some (Topic.set_Post post0 t), None)
      | _ =>
          ret (None, Some (Errorf "internal error: topic %d has no posts!?"
                                  [ArgInt topicID]))
      end
  end.

(** How far [run] got before [edit]: it left through [os.Exit], it
    returned an error, or it went on to edit with this forum and this
    initial text. *)
Inductive Started : Type :=
| Exit (code : Z)
| Return (err : error)
| Edit (f : Forum) (initial : string).

(** [run], up to the call of [edit]; [args] is [flag.Args()]. The usage
    text that goes to the standard error before [os.Exit(1)] is left
    out. *)
Definition runStart (args : list string) : M Started :=
  match args with
  | [topicURL] =>
      '(config, err) <- readConfig ;;
      match err with
      | Some e => ret (Return e)
      | None =>
          let '(baseURL, topicID, err) := parseTopicURL topicURL in
          match err with
          | Some e => ret (Return e)
          | None =>
              forums <- lift (deref config) ;;
              match Forums.index forums baseURL with
              | None =>
                  ret (Return (Errorf "%s misses username and key for forum %s"
                                      [ArgStr configPath; ArgStr baseURL]))
              | Some fconfig =>
                  let forum := mkForum fconfig baseURL in
                  '(loaded, err) <- LoadTopic forum topicID ;;
                  match err with
                  | Some e => ret (Return e)
                  | None =>
                      t <- lift (deref loaded) ;;
                      modifyTopic (fun _ => t) ;;;
                      err <- loadAndCheck lib env flags forum ;;
                      match err with
                      | Some e => ret (Return e)
                      | None =>
                          initial <- topicOriginalText ;;
                          ret (Edit forum initial)
                      end
                  end
              end
          end
      end
  | _ => ret (Exit 1)
  end.

End Startup.

(** A forum URL, cleaned of its final slashes, passes the check of
    [readConfig]. *)
Definition validForumURL (cleanURL : string) : Prop :=
  snd (parseTopicURL (cleanURL ++ "/t/123")) = None.

(** [s] does not end with a slash. *)
Definition isClean (s : string) : Prop := strings_TrimRight s "/" = s.

(** Credentials that [readConfig] lets through. *)
Definition goodConfig (v : option ForumConfig) : Prop :=
  exists fc, v = Some fc /\ Username fc <> EmptyString /\ Key fc <> EmptyString.

(** An entry of the map [readConfig] returns. *)
Definition goodEntry (k : string) (v : option ForumConfig) : Prop :=
  isClean k /\ validForumURL k /\ goodConfig v.

(** The loop of [readConfig], seen from the map [forums0] it started on:
    a binding is checked already or still to come; every binding stems
    from a binding of [forums0] whose key cleans to the same URL; and
    every key of [forums0] is still there, as it was or cleaned. *)
Definition rangeInv (forums0 : Forums.t) (order seen : list string) (m : Forums.t) : Prop :=
  (forall k v, Forums.get k m = Some v ->
     goodEntry k v \/ (In k order /\ ~ In k seen)) /\
  (forall k v, Forums.get k m = Some v ->
     exists k0, Forums.get k0 forums0 = Some v /\
                strings_TrimRight k0 "/" = strings_TrimRight k "/") /\
  (forall k0, Forums.get k0 forums0 <> None ->
     Forums.get k0 m <> None \/ Forums.get (strings_TrimRight k0 "/") m <> None).

(** The order of a [range] holds every key of the map. *)
Definition coversKeys (rangeOrder : Forums.t -> list string) : Prop :=
  forall m k, Forums.get k m <> None -> In k (rangeOrder m).

(** What [yaml.Unmarshal] makes of the configuration file as [readConfig]
    reads it in the state [w]. *)
Definition configuredForums (slib : StartLib) (env : Env) (configPath : string)
    (w : World) : Forums.t :=
  fst (yaml_Unmarshal slib (fst (os_ReadFile env (calls w) configPath))).

(** The request [do] sends. *)
Definition requestOf (f : Forum) (verb path : string) (body : option ReqBody) : Request :=
  mkRequest verb (baseURL f ++ path) (Username (config f)) (Key (config f))
            (marshalled body).

(** The requests of [LoadTopic] and of [LoadDraft]. *)
Definition getTopicRequest (f : Forum) (topicID : Z) : Request :=
  requestOf f "GET" ("/t/" ++ strconv.Itoa topicID ++ ".json?include_raw=true") None.

Definition getDraftRequest (f : Forum) (topicID : Z) : Request :=
  requestOf f "GET" ("/draft.json?draft_key=" ++ "topic_" ++ strconv.Itoa topicID) None.

(** The message [do] reports for a status it has no case for: the first
    of the errors in the server's answer, or the status. *)
Definition serverMessage (lib : Lib) (status : Z) (data : string) : string :=
  match Unmarshal_errorsResult lib data with
  | (msg :: _, None) => msg
  | _ => "got " ++ strconv.Itoa status ++ " status"
  end.

Section StartRequestsDef.
Variable slib : StartLib.
Variable env : Env.
Variable flags : Flags.
Variable configPath : string.
Variable rangeOrder : Forums.t -> list string.

(** What the start of [run] may have sent when it is over. *)
Definition startRequests (topicURL : string) (w : World) (https : list Request) : Prop :=
  https = [] \/
  exists forums base id fc,
    fst (readConfig slib env configPath rangeOrder w) = Done (Some forums, None) /\
    parseTopicURL topicURL = (base, id, None) /\
    Forums.index forums base = Some fc /\
    let forum := mkForum fc base in
    (https = [getTopicRequest forum id] \/
     exists id',
       ignoreDraft flags = false /\
       https = [getTopicRequest forum id; getDraftRequest forum id']).

End StartRequestsDef.

(** A request that goes to the forum [f] with its credentials. *)
Definition sentTo (f : Forum) (req : Request) : Prop :=
  req_username req = Username (config f) /\ req_key req = Key (config f) /\
  exists path, req_url req = baseURL f ++ path.

(** The calls of one save: the file is read, then at most one request
    goes to the forum. *)
Definition saveTrace (f : Forum) (verb filename : string) (l : list Call) : Prop :=
  l = [CallReadFile filename] \/
  exists req, l = [CallReadFile filename; CallHTTP req] /\
              req_verb req = verb /\ sentTo f req.

(** Nothing is logged in a state where [quietMode] is set, unless
    [-debug] is given. *)
Definition silent (flags : Flags) (w w' : World) : Prop :=
  quietMode w' = quietMode w /\
  (quietMode w = true -> debug flags = false -> logged w' = logged w).

Section WatcherTraceDef.
Variable f : Forum.
Variable filename : string.

(** The calls of one iteration of the watcher: it stats the file, reads
    it at most once to compare, and saves at most twice (the post, then
    the draft). *)
Definition watcherTrace (l : list Call) : Prop :=
  l = [CallStat filename] \/
  l = [CallStat filename; CallReadFile filename] \/
  exists l1 l2,
    l = (CallStat filename :: CallReadFile filename :: l1 ++ l2)%list /\
    ((saveTrace f "PUT" filename l1 /\ (l2 = [] \/ saveTrace f "POST" filename l2)) \/
     (l1 = [] /\ saveTrace f "POST" filename l2)).

End WatcherTraceDef.

Section CloseUnchangedDef.
Variable env : Env.
Variable flags : Flags.
Variable filename : string.

(** What [run] does after the editor when the file holds the topic's
    original text: one line of log, and the file is removed. *)
Definition closeUnchanged (initial original : string) : M (option error) :=
  logf (if liveEdit flags && negb (String.eqb initial original)
        then "Changes already saved." else "No changes to save.") [] ;;;
  osRemove env filename ;;;
  ret None.

End CloseUnchangedDef.

(** While the editor is on the screen [quietMode] is set, and once it has
    exited and until [run] reconciles it is clear; the watcher that has
    finished has closed [done]. *)
Definition editing (c : Config) : Prop :=
  (fg c = FgInEditor -> quietMode (world c) = true) /\
  (forall err, fg c = FgEditorExited err -> quietMode (world c) = false) /\
  (fg c = FgWaitDone -> quietMode (world c) = false) /\
  (forall name err, fg c = FgEditReturned name err -> quietMode (world c) = false) /\
  (wt c = WtDone -> done_closed c = true).

(** [edit] has returned nil, or the watcher has panicked and ended the
    process. *)
Definition editOver (filename : string) (c : Config) : Prop :=
  fg c = FgEditReturned filename None \/ wt c = WtPanicked.

Section ReachesDef.
Variable lib : Lib.
Variable env : Env.
Variable flags : Flags.
Variable configPath : string.
Variable f : Forum.
Variable filename : string.
Variable initial : string.

Definition reaches (n : nat) (c : Config) : Prop :=
  exists more c',
    (List.length more <= n)%nat /\
    exec lib env flags configPath f filename initial c more = Some c' /\
    editOver filename c'.

End ReachesDef.

(** What a Go string becomes on its way through the JSON encoder and
    back: every byte that is not part of a UTF-8 sequence is replaced, on
    its own, by the three bytes of U+FFFD. *)
Fixpoint toValid (fuel : nat) (s : string) : string :=
  match fuel with
  | O => EmptyString
  | S fuel' =>
    match s with
    | EmptyString => EmptyString
    | String c rest =>
      if byteval c <? utf8.RuneSelf then String c (toValid fuel' rest)
      else
        let '(r, size) := utf8.DecodeRuneInString s in
        if (r =? utf8.RuneError) && (size =? 1)%nat
        then utf8.enc3 utf8.RuneError ++ toValid fuel' (str_drop size s)
        else str_take size s ++ toValid fuel' (str_drop size s)
    end
  end.

Definition replaceInvalid (s : string) : string := toValid (String.length s) s.

Definition replaceInvalidData (dd : DraftData.t) : DraftData.t :=
  DraftData.mk (replaceInvalid (DraftData.Action dd))
               (replaceInvalid (DraftData.Title dd))
               (replaceInvalid (DraftData.Reply dd))
               (replaceInvalid (DraftData.OriginalText dd))
               (DraftData.ComposerTime dd) (DraftData.TypingTime dd)
               (DraftData.PostID dd) (DraftData.Whisper dd).

(** The integers of a payload are Go [int]s. *)
Definition intsInRange (dd : DraftData.t) : Prop :=
  int64 (DraftData.ComposerTime dd) /\ int64 (DraftData.TypingTime dd) /\
  int64 (DraftData.PostID dd).

Definition replacement : string := String backslash "ufffd".

(** The trees of the two request bodies. *)
Definition postUpdateTree (raw raw_old : string) : jvalue :=
  JObject [("post", JObject [("raw", JString (replaceInvalid raw));
                             ("raw_old", JString (replaceInvalid raw_old))])].

Definition draftEnvelopeTree (d : Draft.t) (dd : DraftData.t) : jvalue :=
  JObject [("draft_key", JString (replaceInvalid (Draft.Key d)));
           ("topic_id", JNumber (strconv.Itoa (Draft.TopicID d)));
           ("sequence", JNumber (strconv.Itoa (Draft.Sequence d)));
           ("data", JString (fst (json.Marshal_draftData dd)))].

(** ** Sample values of the start-up *)

Module StartSample.

Definition forumConfig : ForumConfig := mkForumConfig "alice" "secret".

(** A configuration file with one forum, its URL written with a final
    slash; the server's answer to [LoadTopic] decodes to the sample topic
    and its first post. *)
Definition slib : StartLib :=
  mkStartLib (fun _ => false)
             (fun _ => ([("https://forum.example/", Some forumConfig)], None))
             (fun _ => ((Some Sample.plainTopic, [Some Sample.post]), None)).

(** A configuration file that names the same forum twice: without the
    final slash and with no settings, and with the final slash and
    settings. *)
Definition slibTwice : StartLib :=
  mkStartLib (fun _ => false)
             (fun _ => ([("https://forum.example", None);
                         ("https://forum.example/", Some forumConfig)], None))
             (fun _ => ((Some Sample.plainTopic, [Some Sample.post]), None)).

(** A [range] that produces the keys in the order of the bindings. *)
Definition keysInOrder (m : Forums.t) : list string := map fst m.

Definition topicURL : string := "https://forum.example/t/greetings/7".

(** An environment where no file can be read. *)
Definition envUnreadable : Env :=
  mkEnv (fun _ _ => (EmptyString, Some (SysError "permission denied")))
        (fun _ _ => (1, None))
        (fun _ _ => None)
        (fun _ _ _ => None)
        (fun _ _ => Response 200 EmptyString).

End StartSample.

(** * Properties *)

(** ** Baseline resolution *)

(** C1. [EditText] and [OriginalText] go through the draft when the topic
    has one (the draft's reply and its recorded original text) and fall
    back to the post's raw text when it has none; read on the shared
    topic, neither changes the state of the program. *)
Theorem C1_baseline_resolution (t : Topic.t) :
  (forall d dd, Topic.Draft t = Some d -> Draft.Data d = Some dd ->
     Topic.EditText t = Done (DraftData.Reply dd) /\
     Topic.OriginalText t = Done (DraftData.OriginalText dd)) /\
  (forall p, Topic.Draft t = None -> Topic.Post t = Some p ->
     Topic.EditText t = Done (Post.Raw p) /\
     Topic.OriginalText t = Done (Post.Raw p)) /\
  (forall w, topic w = t ->
     topicEditText w = (Topic.EditText t, w) /\
     topicOriginalText w = (Topic.OriginalText t, w)).
Proof.
  split; [|split].
  - intros d dd Hd Hdd. unfold Topic.EditText, Topic.OriginalText.
    rewrite Hd. unfold Draft.EditText, Draft.OriginalText. rewrite Hdd.
    split; reflexivity.
  - intros p Hd Hp. unfold Topic.EditText, Topic.OriginalText.
    rewrite Hd, Hp. split; reflexivity.
  - intros w <-. split; reflexivity.
Qed.

Lemma C1_baseline_resolution_witness :
  (Topic.EditText Sample.draftTopic = Done "Hello draft" /\
   Topic.OriginalText Sample.draftTopic = Done "Hello world") /\
  (Topic.EditText Sample.plainTopic = Done "Hello world" /\
   Topic.OriginalText Sample.plainTopic = Done "Hello world") /\
  snd (topicEditText (Sample.world Sample.draftTopic)) = Sample.world Sample.draftTopic.
Proof.
  split; [|split].
  - exact (proj1 (C1_baseline_resolution Sample.draftTopic)
             Sample.draft Sample.draftData eq_refl eq_refl).
  - exact (proj1 (proj2 (C1_baseline_resolution Sample.plainTopic))
             Sample.post eq_refl eq_refl).
  - destruct (proj2 (proj2 (C1_baseline_resolution Sample.draftTopic))
                (Sample.world Sample.draftTopic) eq_refl) as [H _].
    rewrite H. reflexivity.
Defined.

(** ** Conflict check *)

(** C3. [CheckDraft] returns an error exactly when the topic has a draft
    whose recorded original text differs from the post's raw text; with
    no draft, or with equal texts, it returns nil. It is one comparison:
    run on the shared topic it leaves the state as it was. *)
Theorem C3_conflict_check (t : Topic.t) :
  ((exists e, Topic.CheckDraft t = Done (Some e)) <-> conflicting t) /\
  (Topic.Draft t = None -> Topic.CheckDraft t = Done None) /\
  (forall d dd p,
     Topic.Draft t = Some d -> Draft.Data d = Some dd -> Topic.Post t = Some p ->
     DraftData.OriginalText dd = Post.Raw p -> Topic.CheckDraft t = Done None) /\
  (forall w, topic w = t -> topicCheckDraft w = (Topic.CheckDraft t, w)).
Proof.
  unfold conflicting, Topic.CheckDraft, Draft.OriginalText, Post.OriginalText.
  split; [|split; [|split]].
  - split.
    + intros [e He].
      destruct (Topic.Draft t) as [d|] eqn:Hd; [|discriminate].
      destruct (Draft.Data d) as [dd|] eqn:Hdd; [|discriminate].
      destruct (Topic.Post t) as [p|] eqn:Hp; [|discriminate].
      cbn in He.
      destruct (String.eqb (DraftData.OriginalText dd) (Post.Raw p)) eqn:Heq;
        [discriminate|].
      exists d, dd, p. repeat split; auto. now apply String.eqb_neq.
    + intros (d & dd & p & Hd & Hdd & Hp & Hne).
      rewrite Hd, Hdd, Hp. cbn.
      apply String.eqb_neq in Hne. rewrite Hne. cbn. eauto.
  - intros ->. reflexivity.
  - intros d dd p -> Hdd -> Heq. rewrite Hdd. cbn.
    apply String.eqb_eq in Heq. rewrite Heq. reflexivity.
  - intros w <-. reflexivity.
Qed.

Lemma C3_conflict_check_witness :
  (exists e, Topic.CheckDraft Sample.staleTopic = Done (Some e)) /\
  Topic.CheckDraft Sample.plainTopic = Done None /\
  Topic.CheckDraft Sample.draftTopic = Done None.
Proof.
  split; [|split].
  - apply (proj1 (C3_conflict_check Sample.staleTopic)).
    exists Sample.staleDraft, Sample.staleDraftData, Sample.post.
    repeat split; try reflexivity. discriminate.
  - exact (proj1 (proj2 (C3_conflict_check Sample.plainTopic)) eq_refl).
  - exact (proj1 (proj2 (proj2 (C3_conflict_check Sample.draftTopic)))
             Sample.draft Sample.draftData Sample.post eq_refl eq_refl eq_refl eq_refl).
Defined.

(** ** The remote client *)

(** Case analysis on a [match] whose scrutinee holds no other [match]. *)
Ltac break_match :=
  match goal with
  | |- context [match ?x with _ => _ end] =>
      lazymatch x with
      | context [match _ with _ => _ end] => fail
      | _ => destruct x eqn:?
      end
  end.

Ltac break_hyp H :=
  match type of H with
  | context [match ?x with _ => _ end] =>
      lazymatch x with
      | context [match _ with _ => _ end] => fail
      | _ => destruct x eqn:?
      end
  end.

Ltac unfold_m :=
  unfold bind, ret, lift, getTopic, modifyTopic, logf, debugf, ioutil_ReadFile,
    osStat, osRemove, osRename, httpClient_Do, topicEditText, topicOriginalText,
    record in *.

Section ClientFacts.
Variable lib : Lib.
Variable env : Env.
Variable flags : Flags.
Variable f : Forum.

Lemma do_frame {R} verb path body (zero : R) unmarshal w :
  exists r w',
    do lib env flags f verb path body zero unmarshal w = (Done r, w') /\
    topic w' = topic w /\ quietMode w' = quietMode w /\
    (calls w' = calls w \/
     exists req, calls w' = (calls w ++ [CallHTTP req])%list /\ req_verb req = verb).
Proof.
  unfold do. unfold_m.
  repeat (break_match; cbn);
    (do 2 eexists; split; [reflexivity|]; cbn; repeat split; eauto).
Qed.

Lemma do_topic {R} verb path body (zero : R) unmarshal w r w' :
  do lib env flags f verb path body zero unmarshal w = (r, w') ->
  topic w' = topic w /\ exists x, r = Done x.
Proof.
  intros H. destruct (do_frame verb path body zero unmarshal w)
    as (x & w2 & Hdo & Ht & _).
  rewrite Hdo in H. inversion H; subst. eauto.
Qed.

Local Arguments do : simpl never.

Ltac use_do_topic :=
  match goal with
  | Hd : do _ _ _ _ _ _ _ _ _ _ = _ |- _ =>
      apply do_topic in Hd; destruct Hd as [Hd _]; cbn in Hd
  end.

Lemma SaveTopic_error_keeps_topic filename w w' e :
  SaveTopic lib env flags f filename w = (Done (Some e), w') -> topic w' = topic w.
Proof.
  unfold SaveTopic. unfold_m. intros H.
  repeat (break_hyp H; cbn in H); try discriminate;
    try use_do_topic; inversion H; subst; auto.
Qed.

Lemma SaveDraft_error_keeps_topic filename w w' e :
  SaveDraft lib env flags f filename w = (Done (Some e), w') -> topic w' = topic w.
Proof.
  unfold SaveDraft. unfold_m. intros H.
  repeat (break_hyp H; cbn in H); try discriminate;
    try use_do_topic; inversion H; subst; auto.
Qed.

(** What a successful [do] means: the request was sent, the server
    answered 200, and the answer decoded without error. *)
Lemma do_ok {R} verb path body (zero : R) unmarshal w r w' :
  do lib env flags f verb path body zero unmarshal w = (Done (r, None), w') ->
  exists data,
    let req := mkRequest verb (baseURL f ++ path) (Username (config f))
                         (Key (config f)) (marshalled body) in
    http_Do env (calls w) req = Response 200 data /\
    unmarshal data = (r, None) /\
    calls w' = (calls w ++ [CallHTTP req])%list /\
    topic w' = topic w /\ quietMode w' = quietMode w.
Proof.
  unfold do, marshalled. unfold_m. intros H.
  repeat (break_hyp H; cbn in H); try discriminate; inversion H; subst; cbn.
  all: match goal with
       | Hs : (_ =? 200) = true |- _ => apply Z.eqb_eq in Hs; subst
       end.
  all: repeat match goal with
       | Hm : json_Marshal_body _ = _ |- _ => rewrite Hm; clear Hm
       end.
  all: eexists; repeat split; eauto.
Qed.

Ltac invert_deref :=
  repeat match goal with
  | Hp : deref _ = Done _ |- _ =>
      unfold deref in Hp; break_hyp Hp; try discriminate; inversion Hp; subst; clear Hp
  end.

Lemma SaveTopic_ok filename w w' :
  SaveTopic lib env flags f filename w = (Done None, w') ->
  exists content raw_old post data newpost,
    let raw := bytes_TrimSpace lib content in
    os_ReadFile env (calls w) filename = (content, None) /\
    Topic.OriginalText (topic w) = Done raw_old /\
    Topic.Post (topic w) = Some post /\
    http_Do env (calls w ++ [CallReadFile filename]) (putRequest f post raw raw_old)
      = Response 200 data /\
    Unmarshal_postResult lib data = (Some newpost, None) /\
    topic w' = savedTopic raw newpost (topic w) /\
    calls w' = (calls w ++ [CallReadFile filename;
                            CallHTTP (putRequest f post raw raw_old)])%list.
Proof.
  unfold SaveTopic. unfold_m. intros H.
  repeat (break_hyp H; cbn in H); try discriminate.
  all: match goal with
       | Hd : do _ _ _ _ _ _ _ _ _ _ = _ |- _ =>
           apply do_ok in Hd; cbn in Hd;
           destruct Hd as (data & Hhttp & Hun & Hcalls & Htopic & Hq)
       end.
  all: invert_deref; inversion H; subst; cbn.
  all: rewrite <- app_assoc in Hcalls; cbn in Hcalls.
  all: do 5 eexists; repeat split; eauto.
  all: unfold savedTopic; rewrite Htopic; reflexivity.
Qed.

Lemma SaveDraft_ok filename w w' :
  SaveDraft lib env flags f filename w = (Done None, w') ->
  exists content draft data sequence,
    os_ReadFile env (calls w) filename = (content, None) /\
    newDraft (topic w) content = Done draft /\
    http_Do env (calls w ++ [CallReadFile filename]) (postDraftRequest f draft)
      = Response 200 data /\
    Unmarshal_saveDraftResult lib data = (("OK", sequence), None) /\
    topic w' = draftedTopic draft sequence (topic w) /\
    calls w' = (calls w ++ [CallReadFile filename;
                            CallHTTP (postDraftRequest f draft)])%list.
Proof.
  unfold SaveDraft. unfold_m. intros H.
  repeat (break_hyp H; cbn in H); try discriminate.
  all: match goal with
       | Hd : do _ _ _ _ _ _ _ _ _ _ = _ |- _ =>
           apply do_ok in Hd; cbn in Hd;
           destruct Hd as (data & Hhttp & Hun & Hcalls & Htopic & Hq)
       end.
  all: inversion H; subst; cbn.
  all: rewrite <- app_assoc in Hcalls; cbn in Hcalls.
  all: match goal with
       | Hs : negb (String.eqb _ "OK") = false |- _ =>
           apply negb_false_iff, String.eqb_eq in Hs; subst
       end.
  all: do 4 eexists; repeat split; eauto.
  all: unfold draftedTopic; rewrite Htopic; reflexivity.
Qed.


(** A change of the topic means the server answered 200 and its answer
    decoded: nothing is assigned before [do] has returned nil. *)
Lemma SaveTopic_changes_after_success filename w r w' :
  SaveTopic lib env flags f filename w = (r, w') ->
  topic w' = topic w \/
  exists req data x,
    http_Do env (calls w ++ [CallReadFile filename]) req = Response 200 data /\
    Unmarshal_postResult lib data = (x, None).
Proof.
  unfold SaveTopic. unfold_m. intros H.
  repeat (break_hyp H; cbn in H); try discriminate.
  all: try (left; try use_do_topic; inversion H; subst; cbn; congruence).
  all: right.
  all: match goal with
       | Hd : do _ _ _ _ _ _ _ _ _ _ = _ |- _ =>
           apply do_ok in Hd; cbn in Hd;
           destruct Hd as (data & Hhttp & Hun & Hcalls & Htopic & Hq)
       end.
  all: eauto.
Qed.

Lemma SaveDraft_changes_after_success filename w r w' :
  SaveDraft lib env flags f filename w = (r, w') ->
  topic w' = topic w \/
  exists req data sequence,
    http_Do env (calls w ++ [CallReadFile filename]) req = Response 200 data /\
    Unmarshal_saveDraftResult lib data = (("OK", sequence), None).
Proof.
  unfold SaveDraft. unfold_m. intros H.
  repeat (break_hyp H; cbn in H); try discriminate.
  all: try (left; try use_do_topic; inversion H; subst; cbn; congruence).
  all: right.
  all: match goal with
       | Hd : do _ _ _ _ _ _ _ _ _ _ = _ |- _ =>
           apply do_ok in Hd; cbn in Hd;
           destruct Hd as (data & Hhttp & Hun & Hcalls & Htopic & Hq)
       end.
  all: match goal with
       | Hs : negb (String.eqb _ "OK") = false |- _ =>
           apply negb_false_iff, String.eqb_eq in Hs; subst
       end.
  all: eauto.
Qed.

(** C10. When [SaveTopic] or [SaveDraft] returns an error, the topic is
    what it was before the call: its [Post], [Draft] and [DraftSequence]
    are unchanged. Whatever the outcome, the topic differs from before
    only if the server answered 200 and the answer decoded, that is, the
    topic is assigned only after the remote call has succeeded. *)
Theorem C10_save_atomicity filename w :
  (forall e w', SaveTopic lib env flags f filename w = (Done (Some e), w') ->
     topic w' = topic w) /\
  (forall e w', SaveDraft lib env flags f filename w = (Done (Some e), w') ->
     topic w' = topic w) /\
  (forall r w', SaveTopic lib env flags f filename w = (r, w') ->
     topic w' <> topic w ->
     exists req data x,
       http_Do env (calls w ++ [CallReadFile filename]) req = Response 200 data /\
       Unmarshal_postResult lib data = (x, None)) /\
  (forall r w', SaveDraft lib env flags f filename w = (r, w') ->
     topic w' <> topic w ->
     exists req data sequence,
       http_Do env (calls w ++ [CallReadFile filename]) req = Response 200 data /\
       Unmarshal_saveDraftResult lib data = (("OK", sequence), None)).
Proof.
  split; [|split; [|split]].
  - intros e w'. apply SaveTopic_error_keeps_topic.
  - intros e w'. apply SaveDraft_error_keeps_topic.
  - intros r w' H Hne.
    destruct (SaveTopic_changes_after_success _ _ _ _ H) as [Heq|Hex];
      [contradiction|exact Hex].
  - intros r w' H Hne.
    destruct (SaveDraft_changes_after_success _ _ _ _ H) as [Heq|Hex];
      [contradiction|exact Hex].
Qed.

Lemma LoadDraft_ok w w' :
  LoadDraft lib env flags f w = (Done None, w') ->
  Topic.Draft (topic w') = Topic.Draft (topic w) \/
  exists dd sequence,
    Topic.Draft (topic w') =
    Some (Draft.mk ("topic_" ++ strconv.Itoa (Topic.ID (topic w)))
                   (Topic.ID (topic w)) sequence (Some dd)).
Proof.
  unfold LoadDraft. unfold_m. intros H.
  repeat (break_hyp H; cbn in H); try discriminate.
  all: use_do_topic; inversion H; subst; cbn.
  all: first [left; congruence | right; eauto].
Qed.

(** C6. The topic has one [Draft] field, so it holds at most one draft,
    and each operation leaves one value in it. When [SaveTopic] returns
    nil that field is nil, and [DraftSequence] is the one of the post the
    server sent back; when [SaveDraft] returns nil the field holds the
    draft just sent, in place of any earlier one; when [LoadDraft]
    returns nil the field holds the draft just loaded, or is as before
    when the server had none. *)
Theorem C6_draft_cleared_on_save filename w w' :
  (SaveTopic lib env flags f filename w = (Done None, w') ->
   Topic.Draft (topic w') = None /\
   exists req data newpost,
     http_Do env (calls w ++ [CallReadFile filename]) req = Response 200 data /\
     Unmarshal_postResult lib data = (Some newpost, None) /\
     Topic.DraftSequence (topic w') = Post.DraftSequence newpost) /\
  (SaveDraft lib env flags f filename w = (Done None, w') ->
   exists content draft,
     os_ReadFile env (calls w) filename = (content, None) /\
     newDraft (topic w) content = Done draft /\
     Topic.Draft (topic w') = Some draft) /\
  (LoadDraft lib env flags f w = (Done None, w') ->
   Topic.Draft (topic w') = Topic.Draft (topic w) \/
   exists dd sequence,
     Topic.Draft (topic w') =
     Some (Draft.mk ("topic_" ++ strconv.Itoa (Topic.ID (topic w)))
                    (Topic.ID (topic w)) sequence (Some dd))).
Proof.
  split; [|split].
  - intros H. apply SaveTopic_ok in H.
    destruct H as (content & raw_old & post & data & newpost & H).
    cbn in H. destruct H as (_ & _ & _ & Hhttp & Hun & Ht & _).
    rewrite Ht. split; [reflexivity|].
    exists (putRequest f post (bytes_TrimSpace lib content) raw_old), data, newpost.
    auto.
  - intros H. apply SaveDraft_ok in H.
    destruct H as (content & draft & data & sequence & Hr & Hd & _ & _ & Ht & _).
    rewrite Ht. exists content, draft. auto.
  - apply LoadDraft_ok.
Qed.
End ClientFacts.

Lemma C10_save_atomicity_witness :
  let env := Sample.envWith "Hello there" 2 409 in
  let w := Sample.world Sample.draftTopic in
  topic (snd (SaveTopic Sample.lib env Sample.flagsLive Sample.forum Sample.filename w))
    = Sample.draftTopic.
Proof.
  intros env w.
  exact (proj1 (C10_save_atomicity Sample.lib env Sample.flagsLive Sample.forum
                  Sample.filename w)
           (Errorf "someone else edited the same content meanwhile" [])
           (snd (SaveTopic Sample.lib env Sample.flagsLive Sample.forum
                   Sample.filename w))
           eq_refl).
Defined.

Lemma C6_draft_cleared_on_save_witness :
  let env := Sample.envWith "Hello there" 2 200 in
  let w := Sample.world Sample.draftTopic in
  Topic.Draft
    (topic (snd (SaveTopic Sample.lib env Sample.flagsLive Sample.forum
                   Sample.filename w))) = None.
Proof.
  intros env w.
  exact (proj1 (proj1 (C6_draft_cleared_on_save Sample.lib env Sample.flagsLive
                         Sample.forum Sample.filename w
                         (snd (SaveTopic Sample.lib env Sample.flagsLive Sample.forum
                                 Sample.filename w)))
                  eq_refl)).
Defined.

(** ** The watcher's iteration and the final reconciliation *)

Section EngineFacts.
Variable lib : Lib.
Variable env : Env.
Variable flags : Flags.
Variable configPath : string.
Variable f : Forum.
Variable filename : string.

Local Arguments do : simpl never.
Local Arguments SaveTopic : simpl never.
Local Arguments SaveDraft : simpl never.

Lemma length_zero_iff (s : string) : (String.length s =? 0)%nat = true <-> s = EmptyString.
Proof.
  destruct s; cbn; split; intros H; try reflexivity; discriminate.
Qed.

Lemma watcherBody_on_change v w curstat :
  detectedChange lib env filename v w curstat ->
  watcherBody lib env flags f filename v w =
  watcherAction lib env flags f filename curstat v (afterChangeCheck filename w).
Proof.
  intros (data & Hstat & Hne & Hread & Hnonempty & Hdiff).
  unfold watcherBody, afterChangeCheck, fileChanged.
  unfold bind at 1. unfold osStat at 1. rewrite Hstat.
  apply Z.eqb_neq in Hne. rewrite Hne.
  unfold bind at 1. unfold bind at 1. unfold ioutil_ReadFile at 1.
  rewrite Hread. unfold ret at 1.
  apply String.eqb_neq in Hdiff. rewrite Hdiff.
  destruct (String.length (bytes_TrimSpace lib data) =? 0)%nat eqn:Hlen.
  { apply length_zero_iff in Hlen. contradiction. }
  cbn [negb orb isSome].
  unfold watcherAction, draftAction, refreshBaseline.
  destruct (liveEdit flags); cbn [negb orb].
  - unfold bind.
    destruct (SaveTopic lib env flags f filename
                (record (CallReadFile filename) (record (CallStat filename) w)))
      as [[[e|]|] w2]; cbn; try reflexivity.
    unfold debugf. destruct (debug flags); reflexivity.
  - reflexivity.
Qed.







(** C7. When [edit] has returned without error and the file is empty
    after trimming, [run] removes the temporary file, returns the error
    [no content provided, aborting] and does nothing else: no request is
    sent, no rename is done, and the topic is untouched. This holds in
    every state of the topic (whatever live edits went before) and
    whatever the baseline is. *)
Theorem C7_empty_file_abort initial w original data :
  Topic.OriginalText (topic w) = Done original ->
  os_ReadFile env (calls w) filename = (data, None) ->
  bytes_TrimSpace lib data = EmptyString ->
  exists w',
    reconcile lib env flags configPath f initial filename None w =
      (Done (Some (Errorf "no content provided, aborting" [])), w') /\
    calls w' = (calls w ++ [CallReadFile filename; CallRemove filename])%list /\
    topic w' = topic w /\ logged w' = logged w.
Proof.
  intros Horig Hread Hempty.
  unfold reconcile, fileChanged, withDefer. unfold_m.
  rewrite Horig, Hread, Hempty. cbn.
  rewrite andb_false_r. cbn.
  eexists. split; [reflexivity|]. cbn.
  rewrite <- app_assoc. auto.
Qed.

Lemma reconcile_real_edit initial w :
  realEdit lib env filename w ->
  reconcile lib env flags configPath f initial filename None w =
  withDefer (renameToLast env configPath filename)
            (SaveTopic lib env flags f filename)
            (record (CallReadFile filename) w).
Proof.
  intros (original & data & Hname & Horig & Hread & Hnonempty & Hdiff).
  unfold reconcile, fileChanged. unfold_m. rewrite Horig, Hread.
  apply String.eqb_neq in Hname, Hdiff. rewrite Hname, Hdiff.
  destruct (String.length (bytes_TrimSpace lib data) =? 0)%nat eqn:Hlen.
  { apply length_zero_iff in Hlen. contradiction. }
  reflexivity.
Qed.

Lemma renameToLast_frame w :
  exists w',
    renameToLast env configPath filename w = (Done tt, w') /\
    calls w' = (calls w ++ [CallRename filename (configPath ++ ".last.md")])%list /\
    topic w' = topic w.
Proof.
  unfold renameToLast. unfold_m.
  repeat (break_match; cbn); eexists; split; try reflexivity; cbn; auto.
Qed.

(** C8, as amended. When [edit] returned without error and the final
    file is a real edit, [run] saves the post and then renames the
    temporary file to the backup path, whatever the save did: the rename
    is the last call of the session, and the save's result (nil, an error,
    or a panic) is what [run] ends with. *)
Theorem C8_backup_rename_after_final_save initial w r w2 :
  realEdit lib env filename w ->
  SaveTopic lib env flags f filename (record (CallReadFile filename) w) = (r, w2) ->
  exists w3,
    reconcile lib env flags configPath f initial filename None w = (r, w3) /\
    calls w3 = (calls w2 ++ [CallRename filename (configPath ++ ".last.md")])%list /\
    topic w3 = topic w2.
Proof.
  intros Hreal Hsave. rewrite (reconcile_real_edit _ _ Hreal).
  unfold withDefer. rewrite Hsave.
  destruct (renameToLast_frame w2) as (w3 & Hr & Hc & Ht).
  rewrite Hr. destruct r; cbn; eauto.
Qed.


Lemma json_Marshal_body_ok (b : ReqBody) :
  json_Marshal_body b = (fst (json_Marshal_body b), None).
Proof.
  destruct b as [raw raw_old|d]; [reflexivity|].
  cbn. destruct (Draft.Data d); reflexivity.
Qed.

Lemma do_conflict {R} verb path body (zero : R) unmarshal w data :
  http_NewRequest lib verb (baseURL f ++ path) = None ->
  http_Do env (calls w)
    (mkRequest verb (baseURL f ++ path) (Username (config f)) (Key (config f))
               (marshalled body)) = Response 409 data ->
  exists w',
    do lib env flags f verb path body zero unmarshal w =
      (Done (zero, Some conflictError), w') /\
    calls w' = (calls w ++ [CallHTTP (mkRequest verb (baseURL f ++ path)
                                        (Username (config f)) (Key (config f))
                                        (marshalled body))])%list /\
    topic w' = topic w /\ quietMode w' = quietMode w.
Proof.
  intros Hnew Hhttp. unfold do, marshalled in *.
  destruct body as [b|].
  - pose proof (json_Marshal_body_ok b) as Hm.
    destruct (json_Marshal_body b) as [d e]. cbn [fst] in *.
    inversion Hm; subst e. unfold_m. rewrite Hnew.
    destruct (debug flags); cbn [calls]; rewrite Hhttp; cbn;
      eexists; split; try reflexivity; cbn; auto.
  - unfold_m. rewrite Hnew.
    destruct (debug flags); cbn [calls]; rewrite Hhttp; cbn;
      eexists; split; try reflexivity; cbn; auto.
Qed.

Lemma SaveTopic_conflict w content raw_old post data :
  os_ReadFile env (calls w) filename = (content, None) ->
  Topic.OriginalText (topic w) = Done raw_old ->
  Topic.Post (topic w) = Some post ->
  let put := putRequest f post (bytes_TrimSpace lib content) raw_old in
  http_NewRequest lib "PUT" (req_url put) = None ->
  http_Do env (calls w ++ [CallReadFile filename]) put = Response 409 data ->
  exists w',
    SaveTopic lib env flags f filename w = (Done (Some conflictError), w') /\
    calls w' = (calls w ++ [CallReadFile filename; CallHTTP put])%list /\
    topic w' = topic w.
Proof.
  intros Hread Horig Hpost put Hnew Hhttp.
  unfold SaveTopic. unfold bind at 1. unfold ioutil_ReadFile at 1. rewrite Hread.
  unfold bind at 1. unfold getTopic at 1.
  unfold bind at 1.
  destruct (logf "Saving topic %s ..." [ArgStr (Topic_String (topic (record (CallReadFile filename) w)))]
              (record (CallReadFile filename) w)) as [o w1] eqn:Hlog.
  assert (Hw1 : o = Done tt /\ calls w1 = (calls w ++ [CallReadFile filename])%list
                /\ topic w1 = topic w).
  { unfold logf in Hlog. destruct (quietMode _); inversion Hlog; subst; cbn; auto. }
  destruct Hw1 as (-> & Hc1 & Ht1).
  unfold bind at 1. unfold topicOriginalText at 1. rewrite Ht1, Horig.
  unfold bind at 1. unfold lift at 1. cbn [topic record]. rewrite Hpost. cbn [deref].
  unfold bind at 1.
  destruct (do_conflict "PUT" ("/posts/" ++ strconv.Itoa (Post.ID post) ++ ".json")
              (Some (PostUpdate (bytes_TrimSpace lib content) raw_old)) None
              (Unmarshal_postResult lib) w1 data) as (w' & Hdo & Hc & Ht & _).
  { exact Hnew. }
  { rewrite Hc1. exact Hhttp. }
  rewrite Hdo. unfold ret. eexists. split; [reflexivity|].
  rewrite Hc, Hc1, <- app_assoc, Ht, Ht1. auto.
Qed.

(** C9, as amended. When the server answers a post update with 409,
    [SaveTopic] returns the error [someone else edited the same content
    meanwhile] as [do] made it, after that one request and with the topic
    unchanged. At the final save [run] returns this very error (the
    backup rename comes in between) and [main] prints it and exits with
    code 1. In the watcher's live-edit iteration the error goes to the
    debug log only, and the draft save follows. *)
Theorem C9_conflict_on_post_update w content raw_old post data :
  os_ReadFile env (calls w) filename = (content, None) ->
  Topic.OriginalText (topic w) = Done raw_old ->
  Topic.Post (topic w) = Some post ->
  let put := putRequest f post (bytes_TrimSpace lib content) raw_old in
  http_NewRequest lib "PUT" (req_url put) = None ->
  http_Do env (calls w ++ [CallReadFile filename]) put = Response 409 data ->
  let w' := snd (SaveTopic lib env flags f filename w) in
  (SaveTopic lib env flags f filename w = (Done (Some conflictError), w') /\
   calls w' = (calls w ++ [CallReadFile filename; CallHTTP put])%list /\
   topic w' = topic w) /\
  (forall initial w0,
     w = record (CallReadFile filename) w0 -> realEdit lib env filename w0 ->
     reconcile lib env flags configPath f initial filename None w0 =
       (Done (Some conflictError), snd (renameToLast env configPath filename w')) /\
     snd (main_report (Some conflictError)) = 1) /\
  (forall v w0 curstat,
     w = afterChangeCheck filename w0 -> detectedChange lib env filename v w0 curstat ->
     liveEdit flags = true ->
     watcherBody lib env flags f filename v w0 =
       draftAction lib env flags f filename curstat v
         (snd (debugf flags "Error saving live edit: %v" [ArgErr conflictError] w'))).
Proof.
  intros Hread Horig Hpost put Hnew Hhttp w'.
  destruct (SaveTopic_conflict w content raw_old post data Hread Horig Hpost Hnew Hhttp)
    as (w1 & Hsave & Hcalls & Htopic).
  assert (Hw' : w' = w1) by (unfold w'; rewrite Hsave; reflexivity).
  rewrite Hw'. split; [auto|]. split.
  - intros initial w0 Hw Hreal. split; [|reflexivity].
    rewrite (reconcile_real_edit _ _ Hreal). unfold withDefer.
    rewrite <- Hw, Hsave.
    destruct (renameToLast_frame w1) as (w3 & Hr & _). rewrite Hr. reflexivity.
  - intros v w0 curstat Hw Hchange Hlive.
    rewrite (watcherBody_on_change _ _ _ Hchange). unfold watcherAction.
    rewrite Hlive, <- Hw. unfold bind at 1. rewrite Hsave.
    unfold bind at 1. unfold debugf. destruct (debug flags); reflexivity.
Qed.
End EngineFacts.


Lemma C7_empty_file_abort_witness :
  let env := Sample.envWith "   " 2 200 in
  let w := Sample.world Sample.plainTopic in
  exists w',
    reconcile Sample.lib env Sample.flagsLive Sample.configPath Sample.forum
      "Hello world" Sample.filename None w =
      (Done (Some (Errorf "no content provided, aborting" [])), w') /\
    calls w' = (calls w ++ [CallReadFile Sample.filename; CallRemove Sample.filename])%list /\
    topic w' = topic w /\ logged w' = logged w.
Proof.
  intros env w.
  exact (C7_empty_file_abort Sample.lib env Sample.flagsLive Sample.configPath
           Sample.forum Sample.filename "Hello world" w "Hello world" "   "
           eq_refl eq_refl eq_refl).
Defined.

Lemma sample_realEdit content mtime status :
  Sample.TrimSpace content <> EmptyString ->
  Sample.TrimSpace content <> "Hello world" ->
  realEdit Sample.lib (Sample.envWith content mtime status) Sample.filename
    (Sample.world Sample.plainTopic).
Proof.
  intros H1 H2. exists "Hello world", content.
  repeat split; auto. discriminate.
Defined.

Lemma C8_backup_rename_after_final_save_witness :
  let env := Sample.envWith "Hello there" 2 500 in
  let w := Sample.world Sample.plainTopic in
  exists e w3,
    reconcile Sample.lib env Sample.flagsDraft Sample.configPath Sample.forum
      "Hello world" Sample.filename None w = (Done (Some e), w3) /\
    calls w3 =
      (calls (snd (SaveTopic Sample.lib env Sample.flagsDraft Sample.forum
                     Sample.filename (record (CallReadFile Sample.filename) w)))
       ++ [CallRename Sample.filename "/home/alice/.discedit.last.md"])%list.
Proof.
  intros env w.
  destruct (C8_backup_rename_after_final_save Sample.lib env Sample.flagsDraft
              Sample.configPath Sample.forum Sample.filename "Hello world" w
              (Done (Some (Errorf "cannot perform request: %s" [ArgStr "got 500 status"])))
              (snd (SaveTopic Sample.lib env Sample.flagsDraft Sample.forum
                      Sample.filename (record (CallReadFile Sample.filename) w))))
    as (w3 & Hr & Hc & _).
  - apply sample_realEdit; vm_compute; discriminate.
  - reflexivity.
  - eexists. exists w3. split; [exact Hr|exact Hc].
Defined.

Lemma C9_conflict_on_post_update_witness :
  let env := Sample.envWith "Hello there" 2 409 in
  let w0 := Sample.world Sample.plainTopic in
  fst (reconcile Sample.lib env Sample.flagsDraft Sample.configPath Sample.forum
         "Hello world" Sample.filename None w0) = Done (Some conflictError).
Proof.
  intros env w0.
  destruct (C9_conflict_on_post_update Sample.lib env Sample.flagsDraft
              Sample.configPath Sample.forum Sample.filename
              (record (CallReadFile Sample.filename) w0)
              "Hello there" "Hello world" Sample.post EmptyString
              eq_refl eq_refl eq_refl eq_refl eq_refl) as (_ & H & _).
  destruct (H "Hello world" w0 eq_refl) as [Hr _].
  - apply sample_realEdit; vm_compute; discriminate.
  - rewrite Hr. reflexivity.
Defined.

(** C9 as stated fails in the watcher. With live edit on, the file
    changed to "Hello there" and the server answering the post update
    with 409, the iteration goes on to save a draft: the history ends
    with the PUT and then the POST of the draft, the topic now holds that
    draft, the iteration returns normally with the new baseline, and
    nothing at all was logged: the conflict reached nobody. *)
Lemma C9_counterexample :
  let env := Sample.envWith "Hello there" 2 409 in
  let w := Sample.editingWorld Sample.plainTopic in
  let put := putRequest Sample.forum Sample.post "Hello there" "Hello world" in
  let draft := Draft.mk "topic_7" 7 3
                 (Some (DraftData.mk "edit" "Greetings" "Hello there" "Hello world"
                                     4321 1234 11 false)) in
  let res := watcherBody Sample.lib env Sample.flagsLive Sample.forum
               Sample.filename (mkWatchVars 1 "Hello world") w in
  http_Do env [CallStat Sample.filename; CallReadFile Sample.filename;
               CallReadFile Sample.filename] put = Response 409 EmptyString /\
  fst res = Done (mkWatchVars 2 "Hello there") /\
  logged (snd res) = [] /\
  calls (snd res) = [CallStat Sample.filename; CallReadFile Sample.filename;
                     CallReadFile Sample.filename; CallHTTP put;
                     CallReadFile Sample.filename;
                     CallHTTP (postDraftRequest Sample.forum draft)] /\
  Topic.Draft (topic (snd res)) = Some draft.
Proof.
  cbv zeta. repeat split; vm_compute; reflexivity.
Qed.

(** ** The ordering of the two threads *)

Section SyncFacts.
Variable lib : Lib.
Variable env : Env.
Variable flags : Flags.
Variable configPath : string.
Variable f : Forum.
Variable filename : string.
Variable initial : string.

Lemma handover_spawned stat text w : handover (spawned stat text w).
Proof.
  unfold handover, spawned; cbn. repeat split; try discriminate.
  intros [H|[H|H]]; discriminate.
Qed.

Ltac close_handover :=
  match goal with
  | Hstep : Some _ = Some _ |- _ => inversion Hstep; subst; clear Hstep
  end;
  unfold handover in *; cbn in *;
  repeat match goal with
  | H : fg ?c = _ |- _ => rewrite H in *; clear H
  | H : wt ?c = _ |- _ => rewrite H in *; clear H
  | H : stop_closed ?c = _ |- _ => rewrite H in *; clear H
  | H : done_closed ?c = _ |- _ => rewrite H in *; clear H
  end;
  intuition (try discriminate; try congruence; eauto).

Lemma handover_step c ch c' :
  handover c ->
  step lib env flags configPath f filename initial c ch = Some c' ->
  handover c'.
Proof.
  intros Hinv Hstep. unfold step in Hstep.
  destruct (processEnded c); [discriminate|].
  destruct ch.
  - unfold stepForeground in Hstep.
    destruct (fg c) as [| |[e|]| |name err|r|] eqn:Hfg; try discriminate.
    + close_handover.
    + close_handover.
    + close_handover.
    + destruct (done_closed c) eqn:Hdone; [|discriminate]. close_handover.
    + destruct (reconcile lib env flags configPath f initial name err (world c))
        as [[r|] w']; close_handover.
  - destruct (fg c) eqn:Hfg; try discriminate. close_handover.
  - destruct (wt c) eqn:Hwt; try discriminate. close_handover.
  - destruct (wt c) eqn:Hwt; try discriminate.
    destruct (stop_closed c) eqn:Hstop; [|discriminate]. close_handover.
  - unfold stepWatcher in Hstep.
    destruct (wt c) as [|last| | |] eqn:Hwt; try discriminate.
    + destruct (watcherBody lib env flags f filename (vars c) (world c))
        as [[v'|] w']; [destruct last|]; close_handover.
    + close_handover.
Qed.

Lemma handover_exec chs : forall c c',
  handover c ->
  exec lib env flags configPath f filename initial c chs = Some c' ->
  handover c'.
Proof.
  induction chs as [|ch chs IH]; intros c c' Hinv Hexec; cbn in Hexec.
  - inversion Hexec; subst. exact Hinv.
  - destruct (step lib env flags configPath f filename initial c ch) as [c1|] eqn:Hstep;
      [|discriminate].
    eapply IH; [|exact Hexec]. eapply handover_step; eauto.
Qed.

End SyncFacts.



(** C8 as stated fails when the editor exits with an error. The file
    holds a real edit ("Hello there" against the baseline "Hello world"),
    the session ends with an error and no save, and no call was made at
    all: the temporary file is neither renamed nor removed. *)
Lemma C8_counterexample :
  let env := Sample.envWith "Hello there" 2 200 in
  let c0 := spawned 1 "Hello world" (Sample.world Sample.plainTopic) in
  let e := SysError "exit status 1" in
  realEdit Sample.lib env Sample.filename (Sample.world Sample.plainTopic) /\
  exists c,
    exec Sample.lib env Sample.flagsDraft Sample.configPath Sample.forum
      Sample.filename "Hello world" c0
      [ChForeground; ChEditorExits (Some e); ChForeground; ChForeground] = Some c /\
    fg c = FgRunReturned
             (Some (Errorf "cannot edit file %s: %v"
                           [ArgStr Sample.filename; ArgErr e])) /\
    calls (world c) = [] /\
    topic (world c) = Sample.plainTopic.
Proof.
  cbv zeta. split.
  - apply sample_realEdit; vm_compute; discriminate.
  - eexists. split; [vm_compute; reflexivity|].
    cbn. repeat split.
Qed.

(** ** UTF-8: decoding a valid sequence and encoding it back *)

Lemma bytechr_byteval (c : ascii) : bytechr (byteval c) = c.
Proof.
  unfold bytechr, byteval. rewrite N2Z.id. apply ascii_N_embedding.
Qed.

Lemma byteval_range (c : ascii) : 0 <= byteval c < 256.
Proof.
  unfold byteval. pose proof (N_ascii_bounded c) as H. lia.
Qed.

Lemma byteval_bytechr (z : Z) : 0 <= z < 256 -> byteval (bytechr z) = z.
Proof.
  intros H. unfold bytechr, byteval.
  rewrite N_ascii_embedding by lia. lia.
Qed.

Lemma lor_add (k x n : Z) :
  0 <= n -> 0 <= x < 2 ^ n -> k mod 2 ^ n = 0 -> Z.lor k x = k + x.
Proof.
  intros Hn Hx Hk.
  rewrite <- Z.lxor_lor, Z.add_nocarry_lxor; try reflexivity.
  all: apply Z.bits_inj'; intros i Hi; rewrite Z.land_spec, Z.bits_0.
  all: destruct (Z.lt_ge_cases i n) as [Hlt|Hge].
  all: try (replace (Z.testbit k i) with false; [reflexivity|];
            symmetry; rewrite <- (Z.mod_pow2_bits_low k n i) by lia;
            rewrite Hk; apply Z.bits_0).
  all: replace (Z.testbit x i) with false; [apply andb_false_r|].
  all: symmetry; rewrite <- (Z.mod_small x (2 ^ n)) by lia;
       apply Z.mod_pow2_bits_high; lia.
Qed.

Lemma land_mask (x n : Z) : 0 <= n -> Z.land x (Z.ones n) = x mod 2 ^ n.
Proof. intros. apply Z.land_ones; assumption. Qed.

Ltac divmod := Z.div_mod_to_equations; lia.

Lemma rune2_value s0 s1 :
  0xC2 <= s0 <= 0xDF -> 0x80 <= s1 <= 0xBF ->
  Z.lor (Z.shiftl (Z.land s0 0x1F) 6) (Z.land s1 0x3F) = (s0 - 0xC0) * 64 + (s1 - 0x80).
Proof.
  intros H0 H1.
  change 0x1F with (Z.ones 5). change 0x3F with (Z.ones 6).
  rewrite !land_mask, Z.shiftl_mul_pow2 by lia.
  change (2 ^ 5) with 32. change (2 ^ 6) with 64.
  rewrite (lor_add _ _ 6) by (try lia; change (2 ^ 6) with 64; divmod).
  divmod.
Qed.

Lemma rune3_value s0 s1 s2 :
  0xE0 <= s0 <= 0xEF -> 0x80 <= s1 <= 0xBF -> 0x80 <= s2 <= 0xBF ->
  Z.lor (Z.lor (Z.shiftl (Z.land s0 0x0F) 12) (Z.shiftl (Z.land s1 0x3F) 6))
        (Z.land s2 0x3F)
  = (s0 - 0xE0) * 4096 + (s1 - 0x80) * 64 + (s2 - 0x80).
Proof.
  intros H0 H1 H2.
  change 0x0F with (Z.ones 4). change 0x3F with (Z.ones 6).
  rewrite !land_mask, !Z.shiftl_mul_pow2 by lia.
  change (2 ^ 4) with 16. change (2 ^ 6) with 64. change (2 ^ 12) with 4096.
  rewrite (lor_add (s0 mod 16 * 4096) _ 12)
    by (try lia; change (2 ^ 12) with 4096; divmod).
  rewrite (lor_add _ _ 6) by (try lia; change (2 ^ 6) with 64; divmod).
  divmod.
Qed.

Lemma rune4_value s0 s1 s2 s3 :
  0xF0 <= s0 <= 0xF4 -> 0x80 <= s1 <= 0xBF -> 0x80 <= s2 <= 0xBF ->
  0x80 <= s3 <= 0xBF ->
  Z.lor (Z.lor (Z.lor (Z.shiftl (Z.land s0 0x07) 18) (Z.shiftl (Z.land s1 0x3F) 12))
               (Z.shiftl (Z.land s2 0x3F) 6))
        (Z.land s3 0x3F)
  = (s0 - 0xF0) * 262144 + (s1 - 0x80) * 4096 + (s2 - 0x80) * 64 + (s3 - 0x80).
Proof.
  intros H0 H1 H2 H3.
  change 0x07 with (Z.ones 3). change 0x3F with (Z.ones 6).
  rewrite !land_mask, !Z.shiftl_mul_pow2 by lia.
  change (2 ^ 3) with 8. change (2 ^ 6) with 64. change (2 ^ 12) with 4096.
  change (2 ^ 18) with 262144.
  rewrite (lor_add (s0 mod 8 * 262144) _ 18)
    by (try lia; change (2 ^ 18) with 262144; divmod).
  rewrite (lor_add _ (s2 mod 64 * 64) 12)
    by (try lia; change (2 ^ 12) with 4096; divmod).
  rewrite (lor_add _ _ 6) by (try lia; change (2 ^ 6) with 64; divmod).
  divmod.
Qed.

Lemma shiftr_div (r n : Z) : 0 <= n -> Z.shiftr r n = r / 2 ^ n.
Proof. intros. apply Z.shiftr_div_pow2; assumption. Qed.

Lemma encode2 a b :
  2 <= a < 32 -> 0 <= b < 64 ->
  utf8.EncodeRune (a * 64 + b) =
  String (bytechr (0xC0 + a)) (String (bytechr (0x80 + b)) EmptyString).
Proof.
  intros Ha Hb. unfold utf8.EncodeRune.
  replace ((0 <=? a * 64 + b) && (a * 64 + b <=? 0x7F)) with false by lia.
  replace ((0 <=? a * 64 + b) && (a * 64 + b <=? 0x7FF)) with true by lia.
  change 0x3F with (Z.ones 6).
  rewrite land_mask, shiftr_div by lia. change (2 ^ 6) with 64.
  rewrite (lor_add 0xC0 _ 6) by (try lia; change (2 ^ 6) with 64; divmod).
  rewrite (lor_add 0x80 _ 6) by (try lia; change (2 ^ 6) with 64; divmod).
  repeat f_equal; divmod.
Qed.

Lemma encode3 a b c :
  0 <= a < 16 -> 0 <= b < 64 -> 0 <= c < 64 ->
  0x800 <= a * 4096 + b * 64 + c ->
  ~ (0xD800 <= a * 4096 + b * 64 + c <= 0xDFFF) ->
  utf8.EncodeRune (a * 4096 + b * 64 + c) =
  String (bytechr (0xE0 + a))
    (String (bytechr (0x80 + b)) (String (bytechr (0x80 + c)) EmptyString)).
Proof.
  intros Ha Hb Hc Hlo Hsur. unfold utf8.EncodeRune, utf8.enc3, utf8.MaxRune.
  set (r := a * 4096 + b * 64 + c) in *.
  replace ((0 <=? r) && (r <=? 0x7F)) with false by lia.
  replace ((0 <=? r) && (r <=? 0x7FF)) with false by lia.
  replace ((r <? 0) || (0x10FFFF <? r) || ((0xD800 <=? r) && (r <=? 0xDFFF)))
    with false by lia.
  replace (r <=? 0xFFFF) with true by lia.
  change 0x3F with (Z.ones 6).
  rewrite !land_mask, !shiftr_div by lia. change (2 ^ 6) with 64.
  change (2 ^ 12) with 4096.
  rewrite (lor_add 0xE0 _ 4) by (try lia; change (2 ^ 4) with 16; subst r; divmod).
  rewrite !(lor_add 0x80 _ 6) by (try lia; change (2 ^ 6) with 64; subst r; divmod).
  subst r. repeat f_equal; divmod.
Qed.

Lemma encode4 a b c d :
  0 <= a < 8 -> 0 <= b < 64 -> 0 <= c < 64 -> 0 <= d < 64 ->
  0x10000 <= a * 262144 + b * 4096 + c * 64 + d <= 0x10FFFF ->
  utf8.EncodeRune (a * 262144 + b * 4096 + c * 64 + d) =
  String (bytechr (0xF0 + a))
    (String (bytechr (0x80 + b))
       (String (bytechr (0x80 + c)) (String (bytechr (0x80 + d)) EmptyString))).
Proof.
  intros Ha Hb Hc Hd Hr. unfold utf8.EncodeRune, utf8.MaxRune.
  set (r := a * 262144 + b * 4096 + c * 64 + d) in *.
  replace ((0 <=? r) && (r <=? 0x7F)) with false by lia.
  replace ((0 <=? r) && (r <=? 0x7FF)) with false by lia.
  replace ((r <? 0) || (0x10FFFF <? r) || ((0xD800 <=? r) && (r <=? 0xDFFF)))
    with false by lia.
  replace (r <=? 0xFFFF) with false by lia.
  change 0x3F with (Z.ones 6).
  rewrite !land_mask, !shiftr_div by lia. change (2 ^ 6) with 64.
  change (2 ^ 12) with 4096. change (2 ^ 18) with 262144.
  rewrite (lor_add 0xF0 _ 4) by (try lia; change (2 ^ 4) with 16; subst r; divmod).
  rewrite !(lor_add 0x80 _ 6) by (try lia; change (2 ^ 6) with 64; subst r; divmod).
  subst r. repeat f_equal; divmod.
Qed.

Ltac decide_ifs :=
  repeat match goal with
  | |- context [if ?b then _ else _] =>
      first [replace b with true by lia | replace b with false by lia]
  end.

Ltac decide_ifs_in H :=
  repeat match type of H with
  | context [if ?b then _ else _] =>
      first [replace b with true in H by lia | replace b with false in H by lia]
  end.

Ltac invalid_leaf H Hinvalid :=
  left; apply Hinvalid;
  repeat (match type of H with
          | context [if ?b then _ else _] =>
              lazymatch b with
              | context [if _ then _ else _] => fail
              | _ => destruct b eqn:?
              end
          end; cbn [Nat.leb Nat.ltb] in H);
  first [symmetry; exact H | exfalso; first [discriminate | lia]].

Lemma decode_cases s r size :
  utf8.DecodeRuneInString s = (r, size) ->
  (s = EmptyString /\ size = 0%nat) \/
  (size = 1%nat /\ exists c t, s = String c t /\
     ((byteval c < 0x80 /\ r = byteval c) \/ (0x80 <= byteval c /\ r = utf8.RuneError))) \/
  (exists p t, s = p ++ t /\ goodseq p r /\ String.length p = size).
Proof.
  unfold utf8.DecodeRuneInString, utf8.RuneSelf, utf8.is_cont.
  destruct s as [|c0 t0]; [intros H; inversion H; auto|].
  pose proof (byteval_range c0) as R0. remember (byteval c0) as s0 eqn:Es0.
  intros H. right.
  destruct (s0 <? 0x80) eqn:Hascii.
  { inversion H; subst. left. split; [reflexivity|]. exists c0, t0.
    split; [reflexivity|]. left. split; [lia|reflexivity]. }
  assert (Hinvalid : (r, size) = (utf8.RuneError, 1%nat) ->
            size = 1%nat /\ exists c t, String c0 t0 = String c t /\
              ((byteval c < 0x80 /\ r = byteval c) \/
               (0x80 <= byteval c /\ r = utf8.RuneError))).
  { intros E. inversion E; subst. split; [reflexivity|]. exists c0, t0.
    split; [reflexivity|]. right. split; [lia|reflexivity]. }
  destruct ((s0 <? 0xC2) || (0xF4 <? s0)) eqn:Hbad.
  { left. apply Hinvalid. symmetry. exact H. }
  cbv zeta in H.
  destruct t0 as [|c1 t1].
  { invalid_leaf H Hinvalid. }
  pose proof (byteval_range c1) as R1. remember (byteval c1) as s1 eqn:Es1.
  cbn [String.length] in H.
  destruct ((s1 <? (if s0 =? 224 then 160 else if s0 =? 240 then 144 else 128))
            || ((if s0 =? 237 then 159 else if s0 =? 244 then 143 else 191) <? s1))
    eqn:Hsecond.
  { invalid_leaf H Hinvalid. }
  destruct (s0 <? 0xE0) eqn:H2.
  { (* two bytes *)
    decide_ifs_in H. decide_ifs_in Hsecond. clear Hinvalid.
    assert (Hr : Z.lor (Z.shiftl (Z.land s0 31) 6) (Z.land s1 63)
                 = (s0 - 0xC0) * 64 + (s1 - 0x80)) by (apply rune2_value; lia).
    rewrite Hr in H.
    assert (Hrv : r = (s0 - 0xC0) * 64 + (s1 - 0x80)) by congruence.
    assert (Hsz : size = 2%nat) by congruence.
    subst r size. clear H.
    right. exists (String c0 (String c1 EmptyString)), t1.
    split; [reflexivity|]. split; [|reflexivity].
    unfold goodseq. split; [cbn; lia|]. split.
    { rewrite encode2 by lia.
      replace (0xC0 + (s0 - 0xC0)) with s0 by lia.
      replace (0x80 + (s1 - 0x80)) with s1 by lia.
      subst s0 s1. rewrite !bytechr_byteval. reflexivity. }
    split; [lia|]. split; [exists c0, (String c1 EmptyString); split; [reflexivity|lia]|].
    intros t. cbn [append String.length]. unfold utf8.DecodeRuneInString, utf8.RuneSelf.
    rewrite <- Es0, <- Es1. cbv zeta. cbn [String.length].
    decide_ifs. rewrite Hr. reflexivity. }
  destruct t1 as [|c2 t2].
  { invalid_leaf H Hinvalid. }
  pose proof (byteval_range c2) as R2. remember (byteval c2) as s2 eqn:Es2.
  cbn [String.length] in H.
  destruct (negb ((128 <=? s2) && (s2 <=? 191))) eqn:Hthird.
  { invalid_leaf H Hinvalid. }
  destruct (s0 <? 0xF0) eqn:H3.
  { (* three bytes *)
    decide_ifs_in H. clear Hinvalid.
    destruct (s0 =? 224) eqn:HE0; destruct (s0 =? 237) eqn:HED;
      try (exfalso; lia); decide_ifs_in Hsecond.
    all: assert (Hr : Z.lor (Z.lor (Z.shiftl (Z.land s0 15) 12)
                                   (Z.shiftl (Z.land s1 63) 6)) (Z.land s2 63)
                      = (s0 - 0xE0) * 4096 + (s1 - 0x80) * 64 + (s2 - 0x80))
           by (apply rune3_value; lia).
    all: rewrite Hr in H.
    all: assert (Hrv : r = (s0 - 0xE0) * 4096 + (s1 - 0x80) * 64 + (s2 - 0x80))
           by congruence.
    all: assert (Hsz : size = 3%nat) by congruence.
    all: subst r size; clear H.
    all: right; exists (String c0 (String c1 (String c2 EmptyString))), t2.
    all: split; [reflexivity|]; split; [|reflexivity].
    all: unfold goodseq; split; [cbn; lia|]; split;
         [ rewrite encode3 by lia;
           replace (0xE0 + (s0 - 0xE0)) with s0 by lia;
           replace (0x80 + (s1 - 0x80)) with s1 by lia;
           replace (0x80 + (s2 - 0x80)) with s2 by lia;
           subst s0 s1 s2; rewrite !bytechr_byteval; reflexivity |].
    all: split; [lia|]; split;
         [exists c0, (String c1 (String c2 EmptyString)); split; [reflexivity|lia]|].
    all: intros t; cbn [append String.length];
         unfold utf8.DecodeRuneInString, utf8.RuneSelf, utf8.is_cont;
         rewrite <- Es0, <- Es1, <- Es2; cbv zeta; cbn [String.length];
         decide_ifs; rewrite Hr; reflexivity. }
  destruct t2 as [|c3 t3].
  { invalid_leaf H Hinvalid. }
  pose proof (byteval_range c3) as R3. remember (byteval c3) as s3 eqn:Es3.
  cbn [String.length] in H.
  destruct (negb ((128 <=? s3) && (s3 <=? 191))) eqn:Hfourth.
  { invalid_leaf H Hinvalid. }
  decide_ifs_in H. clear Hinvalid.
  destruct (s0 =? 240) eqn:HF0; destruct (s0 =? 244) eqn:HF4;
    try (exfalso; lia); decide_ifs_in Hsecond.
  all: assert (Hr : Z.lor (Z.lor (Z.lor (Z.shiftl (Z.land s0 7) 18)
                                        (Z.shiftl (Z.land s1 63) 12))
                                 (Z.shiftl (Z.land s2 63) 6)) (Z.land s3 63)
                    = (s0 - 0xF0) * 262144 + (s1 - 0x80) * 4096
                      + (s2 - 0x80) * 64 + (s3 - 0x80))
         by (apply rune4_value; lia).
  all: rewrite Hr in H.
  all: assert (Hrv : r = (s0 - 0xF0) * 262144 + (s1 - 0x80) * 4096
                         + (s2 - 0x80) * 64 + (s3 - 0x80)) by congruence.
  all: assert (Hsz : size = 4%nat) by congruence.
  all: subst r size; clear H.
  all: right; exists (String c0 (String c1 (String c2 (String c3 EmptyString)))), t3.
  all: split; [reflexivity|]; split; [|reflexivity].
  all: unfold goodseq; split; [cbn; lia|]; split;
       [ rewrite encode4 by lia;
         replace (0xF0 + (s0 - 0xF0)) with s0 by lia;
         replace (0x80 + (s1 - 0x80)) with s1 by lia;
         replace (0x80 + (s2 - 0x80)) with s2 by lia;
         replace (0x80 + (s3 - 0x80)) with s3 by lia;
         subst s0 s1 s2 s3; rewrite !bytechr_byteval; reflexivity |].
  all: split; [lia|]; split;
       [exists c0, (String c1 (String c2 (String c3 EmptyString)));
        split; [reflexivity|lia]|].
  all: intros t; cbn [append String.length];
       unfold utf8.DecodeRuneInString, utf8.RuneSelf, utf8.is_cont;
       rewrite <- Es0, <- Es1, <- Es2, <- Es3; cbv zeta; cbn [String.length];
       decide_ifs; rewrite Hr; reflexivity.
Qed.

Lemma str_drop_app p t : str_drop (String.length p) (p ++ t) = t.
Proof. induction p as [|c p IH]; cbn; auto. Qed.

Lemma str_take_app p t : str_take (String.length p) (p ++ t) = p.
Proof. induction p as [|c p IH]; cbn; [reflexivity|]. now rewrite IH. Qed.

Lemma length_app (a b : string) :
  String.length (a ++ b) = (String.length a + String.length b)%nat.
Proof. induction a as [|c a IH]; cbn; [reflexivity|]. now rewrite IH. Qed.

Lemma app_assoc_str (a b c : string) : (a ++ b) ++ c = a ++ (b ++ c).
Proof. induction a as [|x a IH]; cbn; [reflexivity|]. now rewrite IH. Qed.

Lemma app_nil_r_str (a : string) : a ++ EmptyString = a.
Proof. induction a as [|x a IH]; cbn; [reflexivity|]. now rewrite IH. Qed.

(** The boolean [ValidString] implies [Valid]. *)
Lemma valid_fuel_Valid n : forall s,
  (String.length s <= n)%nat -> utf8.valid_fuel n s = true -> Valid s.
Proof.
  induction n as [|n IH]; intros s Hlen Hv.
  - destruct s; [constructor|cbn in Hlen; lia].
  - destruct s as [|c0 t0]; [constructor|].
    cbn [utf8.valid_fuel] in Hv.
    destruct (utf8.DecodeRuneInString (String c0 t0)) as [r size] eqn:Hdec.
    destruct ((r =? utf8.RuneError) && (size =? 1)%nat) eqn:Hbad; [discriminate|].
    destruct (decode_cases _ _ _ Hdec) as [[E _]|[(Hsz & c & t & E & Hc)|(p & t & E & Hg & Hsz)]].
    + discriminate.
    + injection E as <- <-. subst size. cbn in Hv.
      destruct Hc as [[Hlt _]|[_ Hr]].
      * apply Valid_ascii; [exact Hlt|]. apply IH; [cbn in Hlen; lia|exact Hv].
      * subst r. cbn in Hbad. discriminate.
    + rewrite E in *. subst size. rewrite str_drop_app in Hv.
      apply Valid_rune with (r := r); [exact Hg|].
      apply IH; [|exact Hv].
      rewrite length_app in Hlen. destruct Hg as (H2 & _). lia.
Qed.

Lemma ValidString_Valid s : utf8.ValidString s = true -> Valid s.
Proof. apply valid_fuel_Valid. lia. Qed.

Lemma Valid_app a b : Valid a -> Valid b -> Valid (a ++ b).
Proof.
  intros Ha Hb. induction Ha as [|c s Hc Hs IH|p r s Hg Hs IH]; cbn.
  - exact Hb.
  - apply Valid_ascii; assumption.
  - rewrite app_assoc_str. apply Valid_rune with (r := r); assumption.
Qed.

Lemma allAscii_Valid s : allAscii s = true -> Valid s.
Proof.
  induction s as [|c s IH]; cbn; intros H; [constructor|].
  apply andb_true_iff in H. destruct H as [Hc Hs].
  apply Valid_ascii; [lia|auto].
Qed.

(** ** Strings: what the decoder reads back from the encoder *)

Lemma encodeRunes_ascii n c s :
  byteval c < 0x80 ->
  json.encodeRunes (S n) (String c s) = encodeAscii c ++ json.encodeRunes n s.
Proof.
  intros Hc. cbn [json.encodeRunes]. unfold utf8.RuneSelf, encodeAscii.
  replace (byteval c <? 128) with true by lia.
  destruct (json.htmlSafeSet (byteval c)); reflexivity.
Qed.

Lemma goodseq_not_error p r : goodseq p r ->
  forall t, utf8.DecodeRuneInString (p ++ t) = (r, String.length p) /\
            (r =? utf8.RuneError) && (String.length p =? 1)%nat = false.
Proof.
  intros (Hlen & _ & _ & _ & Hdec) t. split; [apply Hdec|].
  apply andb_false_iff. right. apply Nat.eqb_neq. lia.
Qed.

Lemma encodeRunes_seq n p r s :
  goodseq p r ->
  json.encodeRunes (S n) (p ++ s) = encodeSeq p r ++ json.encodeRunes n s.
Proof.
  intros Hg. destruct (goodseq_not_error _ _ Hg s) as [Hdec Hok].
  destruct Hg as (Hlen & _ & _ & (c & p' & -> & Hc) & _).
  cbn [append json.encodeRunes]. unfold utf8.RuneSelf.
  replace (byteval c <? 128) with false by lia.
  change (String c (p' ++ s)) with (String c p' ++ s).
  rewrite Hdec, Hok, str_take_app, str_drop_app. unfold encodeSeq.
  destruct ((r =? 0x2028) || (r =? 0x2029)).
  - rewrite app_assoc_str. reflexivity.
  - reflexivity.
Qed.

Lemma unquote_ascii c fuel tail :
  byteval c < 0x80 ->
  jsondec.unquote (S fuel) (encodeAscii c ++ tail) =
  jsondec.prepend (str1 c) (jsondec.unquote fuel tail).
Proof.
  destruct c as [b0 b1 b2 b3 b4 b5 b6 [|]]; intros Hc.
  - exfalso. revert Hc.
    destruct b0, b1, b2, b3, b4, b5, b6; vm_compute; intros H; discriminate H.
  - clear Hc. destruct b0, b1, b2, b3, b4, b5, b6; reflexivity.
Qed.

Lemma unquote_seq p r fuel tail :
  goodseq p r ->
  jsondec.unquote (S fuel) (encodeSeq p r ++ tail) =
  jsondec.prepend p (jsondec.unquote fuel tail).
Proof.
  intros Hg. pose proof Hg as (Hlen & Henc & Hr & (c & p' & Hp & Hc) & Hdec).
  unfold encodeSeq.
  destruct ((r =? 0x2028) || (r =? 0x2029)) eqn:Hsep.
  - rewrite <- Henc.
    destruct (r =? 0x2028) eqn:H28.
    + apply Z.eqb_eq in H28. subst r. reflexivity.
    + assert (r = 0x2029) by lia. subst r. reflexivity.
  - destruct p as [|c0 p0]; [cbn in Hlen; lia|].
    injection Hp as -> ->.
    cbn [append jsondec.unquote]. unfold utf8.RuneSelf.
    pose proof (byteval_range c) as Rc.
    replace (byteval c =? 34) with false by lia.
    replace (byteval c =? 92) with false by lia.
    replace (byteval c <? 32) with false by lia.
    replace (byteval c <? 128) with false by lia.
    change (String c (p' ++ tail)) with (String c p' ++ tail).
    rewrite Hdec, Henc, str_drop_app. reflexivity.
Qed.

(** Decoding the encoding of a valid string gives the string back. *)
Lemma unquote_encodeRunes s : Valid s ->
  forall n fuel rest,
    (String.length s <= n)%nat -> (String.length s < fuel)%nat ->
    jsondec.unquote fuel (json.encodeRunes n s ++ String dquote rest) = Some (s, rest).
Proof.
  induction 1 as [|c s Hc Hs IH|p r s Hg Hs IH]; intros n fuel rest Hn Hfuel.
  - destruct fuel as [|fuel]; [cbn in Hfuel; lia|].
    destruct n; reflexivity.
  - cbn [String.length] in Hn, Hfuel.
    destruct n as [|n]; [lia|]. destruct fuel as [|fuel]; [lia|].
    rewrite encodeRunes_ascii by exact Hc.
    rewrite app_assoc_str, unquote_ascii by exact Hc.
    rewrite IH by lia. reflexivity.
  - rewrite length_app in Hn, Hfuel.
    pose proof Hg as (Hlen & _).
    destruct n as [|n]; [lia|]. destruct fuel as [|fuel]; [lia|].
    rewrite (encodeRunes_seq _ _ _ _ Hg).
    rewrite app_assoc_str, (unquote_seq _ _ _ _ Hg).
    rewrite IH by lia. reflexivity.
Qed.

Lemma encodeAscii_length c : (1 <= String.length (encodeAscii c))%nat.
Proof.
  unfold encodeAscii, json.escapeByte.
  destruct (json.htmlSafeSet (byteval c)); cbn; lia.
Qed.

Lemma encodeSeq_length p r : goodseq p r ->
  (String.length p <= String.length (encodeSeq p r))%nat.
Proof.
  intros (_ & Henc & _). unfold encodeSeq.
  destruct ((r =? 0x2028) || (r =? 0x2029)) eqn:Hsep; [|lia].
  rewrite <- Henc. destruct (r =? 0x2028) eqn:H28.
  - apply Z.eqb_eq in H28. subst r. cbn. lia.
  - assert (r = 0x2029) by lia. subst r. cbn. lia.
Qed.

Lemma encodeRunes_length s : Valid s ->
  forall n, (String.length s <= n)%nat ->
  (String.length s <= String.length (json.encodeRunes n s))%nat.
Proof.
  induction 1 as [|c s Hc Hs IH|p r s Hg Hs IH]; intros n Hn.
  - cbn. lia.
  - cbn [String.length] in Hn. destruct n as [|n]; [lia|].
    rewrite encodeRunes_ascii by exact Hc. rewrite length_app.
    pose proof (encodeAscii_length c). specialize (IH n). cbn [String.length]. lia.
  - rewrite length_app in Hn. pose proof Hg as (Hlen & _).
    destruct n as [|n]; [lia|].
    rewrite (encodeRunes_seq _ _ _ _ Hg). rewrite !length_app.
    pose proof (encodeSeq_length _ _ Hg). specialize (IH n). lia.
Qed.

Lemma encodeAscii_allAscii c : byteval c < 0x80 -> allAscii (encodeAscii c) = true.
Proof.
  destruct c as [b0 b1 b2 b3 b4 b5 b6 [|]]; intros Hc.
  - exfalso. revert Hc.
    destruct b0, b1, b2, b3, b4, b5, b6; vm_compute; intros H; discriminate H.
  - clear Hc. destruct b0, b1, b2, b3, b4, b5, b6; reflexivity.
Qed.

Lemma encodeSeq_Valid p r : goodseq p r -> Valid (encodeSeq p r).
Proof.
  intros Hg. unfold encodeSeq.
  destruct ((r =? 0x2028) || (r =? 0x2029)) eqn:Hsep.
  - apply allAscii_Valid. destruct (r =? 0x2028) eqn:H28.
    + apply Z.eqb_eq in H28. subst r. reflexivity.
    + assert (r = 0x2029) by lia. subst r. reflexivity.
  - rewrite <- (app_nil_r_str p). apply Valid_rune with (r := r); [exact Hg|constructor].
Qed.

(** The encoder's output is valid UTF-8 when its input is. *)
Lemma encodeRunes_Valid s : Valid s ->
  forall n, (String.length s <= n)%nat -> Valid (json.encodeRunes n s).
Proof.
  induction 1 as [|c s Hc Hs IH|p r s Hg Hs IH]; intros n Hn.
  - destruct n; constructor.
  - cbn [String.length] in Hn. destruct n as [|n]; [lia|].
    rewrite encodeRunes_ascii by exact Hc.
    apply Valid_app; [apply allAscii_Valid, encodeAscii_allAscii, Hc|apply IH; lia].
  - rewrite length_app in Hn. pose proof Hg as (Hlen & _).
    destruct n as [|n]; [lia|].
    rewrite (encodeRunes_seq _ _ _ _ Hg).
    apply Valid_app; [apply encodeSeq_Valid, Hg|apply IH; lia].
Qed.

Lemma encodeString_Valid s : Valid s -> Valid (json.encodeString s).
Proof.
  intros Hs. unfold json.encodeString.
  apply Valid_ascii; [vm_compute; reflexivity|].
  apply Valid_app; [apply encodeRunes_Valid; [exact Hs|lia]|].
  apply Valid_ascii; [vm_compute; reflexivity|constructor].
Qed.

(** ** Integers: what the decoder reads back from [strconv.Itoa] *)

Lemma string_of_uint_digits d :
  allDigits (DecimalString.NilEmpty.string_of_uint d) = true.
Proof. induction d; cbn; auto. Qed.

Lemma nzhead_not_D0 d e : Decimal.nzhead d <> Decimal.D0 e.
Proof. induction d; cbn; try discriminate. exact IHd. Qed.

Lemma to_uint_unorm p : Decimal.unorm (Pos.to_uint p) = Pos.to_uint p.
Proof.
  rewrite <- (DecimalPos.Unsigned.to_of (Pos.to_uint p)).
  rewrite DecimalPos.Unsigned.of_to. reflexivity.
Qed.

(** The decimal text of a positive number: a digit other than zero, then
    digits. *)
Lemma to_uint_text p :
  exists c ds,
    DecimalString.NilZero.string_of_uint (Pos.to_uint p) = String c ds /\
    jsondec.isDigit (byteval c) = true /\ byteval c <> 0x30 /\
    allDigits ds = true.
Proof.
  pose proof (to_uint_unorm p) as Hn.
  pose proof (DecimalPos.Unsigned.to_uint_nonzero p) as Hz.
  pose proof (string_of_uint_digits (Pos.to_uint p)) as Hd.
  destruct (Pos.to_uint p) as [|d|d|d|d|d|d|d|d|d|d] eqn:E.
  - discriminate Hn.
  - exfalso. unfold Decimal.unorm in Hn. cbn [Decimal.nzhead] in Hn.
    destruct (Decimal.nzhead d) eqn:En.
    + congruence.
    + eapply nzhead_not_D0. rewrite En. exact Hn.
    + discriminate Hn.
    + discriminate Hn.
    + discriminate Hn.
    + discriminate Hn.
    + discriminate Hn.
    + discriminate Hn.
    + discriminate Hn.
    + discriminate Hn.
    + discriminate Hn.
  - eexists _, _. split; [reflexivity|]. cbn in Hd. repeat split; try discriminate; auto.
  - eexists _, _. split; [reflexivity|]. cbn in Hd. repeat split; try discriminate; auto.
  - eexists _, _. split; [reflexivity|]. cbn in Hd. repeat split; try discriminate; auto.
  - eexists _, _. split; [reflexivity|]. cbn in Hd. repeat split; try discriminate; auto.
  - eexists _, _. split; [reflexivity|]. cbn in Hd. repeat split; try discriminate; auto.
  - eexists _, _. split; [reflexivity|]. cbn in Hd. repeat split; try discriminate; auto.
  - eexists _, _. split; [reflexivity|]. cbn in Hd. repeat split; try discriminate; auto.
  - eexists _, _. split; [reflexivity|]. cbn in Hd. repeat split; try discriminate; auto.
  - eexists _, _. split; [reflexivity|]. cbn in Hd. repeat split; try discriminate; auto.
Qed.

Lemma spanDigits_app ds rest :
  allDigits ds = true ->
  match rest with
  | EmptyString => True
  | String c _ => jsondec.isDigit (byteval c) = false
  end ->
  jsondec.spanDigits (ds ++ rest) = (ds, rest).
Proof.
  induction ds as [|c ds IH]; cbn; intros Hd Hr.
  - destruct rest as [|c r]; [reflexivity|]. cbn. rewrite Hr. reflexivity.
  - apply andb_true_iff in Hd. destruct Hd as [Hc Hds].
    rewrite Hc, IH by assumption. reflexivity.
Qed.

Lemma Itoa_pos p :
  strconv.Itoa (Z.pos p) = DecimalString.NilZero.string_of_uint (Pos.to_uint p).
Proof. reflexivity. Qed.

Lemma Itoa_neg p :
  strconv.Itoa (Z.neg p) =
  String "-" (DecimalString.NilZero.string_of_uint (Pos.to_uint p)).
Proof. reflexivity. Qed.

Lemma scan_digits_end (negative : bool) c ds rest :
  jsondec.isDigit (byteval c) = true -> allDigits ds = true ->
  numberEnd rest = true ->
  (byteval c = 0x30 -> ds = EmptyString) ->
  let sign := if negative then "-" else EmptyString in
  jsondec.scanNumber (sign ++ String c (ds ++ rest)) = Some (sign ++ String c ds, rest).
Proof.
  intros Hc Hds Hend Hzero sign. unfold jsondec.scanNumber.
  unfold jsondec.isDigit in Hc.
  assert (Hspan : jsondec.spanDigits (ds ++ rest) = (ds, rest)).
  { apply spanDigits_app; [exact Hds|].
    destruct rest as [|d r]; [exact I|]. cbn in Hend.
    destruct (jsondec.isDigit (byteval d)); [discriminate|reflexivity]. }
  assert (Htail :
    forall sg ip,
    match
      match rest with
      | String d r2 =>
          if byteval d =? 0x2E then
            match jsondec.spanDigits r2 with
            | (EmptyString, _) => None
            | (ds0, r3) => Some (String d ds0, r3)
            end
          else Some (EmptyString, rest)
      | EmptyString => Some (EmptyString, rest)
      end
    with
    | None => None
    | Some (fp, s3) =>
        match
          match s3 with
          | String e r3 =>
              if (byteval e =? 0x65) || (byteval e =? 0x45) then
                let '(esign, r4) :=
                  match r3 with
                  | String g r4 =>
                      if (byteval g =? 0x2B) || (byteval g =? 0x2D)
                      then (str1 g, r4) else (EmptyString, r3)
                  | EmptyString => (EmptyString, r3)
                  end in
                match jsondec.spanDigits r4 with
                | (EmptyString, _) => None
                | (ds0, r5) => Some (String e (esign ++ ds0), r5)
                end
              else Some (EmptyString, s3)
          | EmptyString => Some (EmptyString, s3)
          end
        with
        | None => None
        | Some (ep, s4) => Some (sg ++ ip ++ fp ++ ep, s4)
        end
    end = Some (sg ++ ip, rest)).
  { intros sg ip. destruct rest as [|d r]; cbn.
    - rewrite app_nil_r_str. reflexivity.
    - cbn in Hend. apply negb_true_iff in Hend.
      replace (byteval d =? 46) with false by lia.
      replace ((byteval d =? 101) || (byteval d =? 69)) with false by lia.
      rewrite app_nil_r_str. reflexivity. }
  assert (Hint :
    (if byteval c =? 48 then Some (str1 c, ds ++ rest)
     else if jsondec.isDigit (byteval c)
          then let '(ds0, r') := jsondec.spanDigits (ds ++ rest) in Some (String c ds0, r')
          else None) = Some (String c ds, rest)).
  { destruct (byteval c =? 48) eqn:H0.
    - rewrite (Hzero ltac:(lia)). reflexivity.
    - unfold jsondec.isDigit.
      replace ((48 <=? byteval c) && (byteval c <=? 57)) with true by lia.
      rewrite Hspan. reflexivity. }
  destruct negative; subst sign.
  - change ("-" ++ String c (ds ++ rest)) with (String "-" (String c (ds ++ rest))).
    cbv beta iota. change (byteval "-" =? 45) with true. cbv beta iota.
    rewrite Hint. apply Htail.
  - cbn [append]. replace (byteval c =? 45) with false by lia.
    rewrite Hint. apply Htail.
Qed.

Lemma scanNumber_Itoa z rest :
  numberEnd rest = true ->
  jsondec.scanNumber (strconv.Itoa z ++ rest) = Some (strconv.Itoa z, rest).
Proof.
  intros Hend. destruct z as [|p|p].
  - change (strconv.Itoa 0) with (EmptyString ++ String "0" EmptyString).
    rewrite app_assoc_str. cbn [append].
    change (String "0" rest) with (String "0" (EmptyString ++ rest)).
    apply (scan_digits_end false "0" EmptyString rest); auto.
  - rewrite Itoa_pos. destruct (to_uint_text p) as (c & ds & -> & Hc & Hnz & Hds).
    cbn [append].
    apply (scan_digits_end false c ds rest); auto. intros H; contradiction.
  - rewrite Itoa_neg. destruct (to_uint_text p) as (c & ds & -> & Hc & Hnz & Hds).
    cbn [append].
    apply (scan_digits_end true c ds rest); auto. intros H; contradiction.
Qed.

Lemma Z_of_to_uint p : Z.of_uint (Pos.to_uint p) = Z.pos p.
Proof.
  unfold Z.of_uint. rewrite DecimalPos.Unsigned.of_to. reflexivity.
Qed.

Lemma ParseInt_Itoa z : int64 z -> jsondec.ParseInt (strconv.Itoa z) = Some z.
Proof.
  unfold int64. intros Hz. destruct z as [|p|p].
  - reflexivity.
  - rewrite Itoa_pos. unfold jsondec.ParseInt.
    pose proof (DecimalString.NilZero.usu (Pos.to_uint p)
                  (DecimalPos.Unsigned.to_uint_nonnil p)) as Hu.
    destruct (to_uint_text p) as (c & ds & E & Hc & Hnz & Hds).
    rewrite E in *. unfold jsondec.isDigit in Hc.
    replace (byteval c =? 45) with false by lia.
    replace (byteval c =? 43) with false by lia.
    rewrite Hu, Z_of_to_uint.
    replace ((- 2 ^ 63 <=? Z.pos p) && (Z.pos p <? 2 ^ 63)) with true by lia.
    reflexivity.
  - rewrite Itoa_neg. unfold jsondec.ParseInt.
    pose proof (DecimalString.NilZero.usu (Pos.to_uint p)
                  (DecimalPos.Unsigned.to_uint_nonnil p)) as Hu.
    change (byteval "-" =? 45) with true. cbv beta iota.
    rewrite Hu, Z_of_to_uint.
    change (- Z.pos p) with (Z.neg p).
    replace ((- 2 ^ 63 <=? Z.neg p) && (Z.neg p <? 2 ^ 63)) with true by lia.
    reflexivity.
Qed.

(** The first byte of a number text is a digit or the minus sign. *)
Lemma Itoa_head z :
  exists c t, strconv.Itoa z = String c t /\
    (jsondec.isDigit (byteval c) = true \/ byteval c = 0x2D).
Proof.
  destruct z as [|p|p].
  - exists "0"%char, EmptyString. split; [reflexivity|left; reflexivity].
  - rewrite Itoa_pos. destruct (to_uint_text p) as (c & ds & -> & Hc & _).
    exists c, ds. auto.
  - rewrite Itoa_neg. eexists _, _. split; [reflexivity|right; reflexivity].
Qed.

Lemma Itoa_allAscii z : allAscii (strconv.Itoa z) = true.
Proof.
  assert (Hd : forall s, allDigits s = true -> allAscii s = true).
  { induction s as [|c s IH]; cbn; [reflexivity|]. intros H.
    apply andb_true_iff in H. destruct H as [Hc Hs].
    unfold jsondec.isDigit in Hc. rewrite IH by exact Hs.
    replace (byteval c <? 128) with true by lia. reflexivity. }
  destruct z as [|p|p].
  - reflexivity.
  - rewrite Itoa_pos. destruct (to_uint_text p) as (c & ds & -> & Hc & _ & Hds).
    apply (Hd (String c ds)). cbn. rewrite Hc, Hds. reflexivity.
  - rewrite Itoa_neg. destruct (to_uint_text p) as (c & ds & -> & Hc & _ & Hds).
    change (allAscii (String c ds) = true).
    apply (Hd (String c ds)). cbn. rewrite Hc, Hds. reflexivity.
Qed.

(** ** Values and objects *)

Lemma parseValue_quote fuel rest :
  jsondec.parseValue (S fuel) (String dquote rest) =
  match jsondec.unquote (String.length rest) rest with
  | Some (str, r) => Some (JString str, r)
  | None => None
  end.
Proof. reflexivity. Qed.

Lemma unquote_encoded s tail :
  Valid s ->
  let rest := json.encodeRunes (String.length s) s ++ String dquote tail in
  jsondec.unquote (String.length rest) rest = Some (s, tail).
Proof.
  intros Hs rest. subst rest.
  rewrite unquote_encodeRunes; [reflexivity|exact Hs|lia|].
  rewrite length_app. cbn [String.length].
  pose proof (encodeRunes_length s Hs (String.length s) (le_n _)). lia.
Qed.

Lemma parseValue_string fuel s tail :
  Valid s ->
  jsondec.parseValue (S fuel) (json.encodeString s ++ tail) = Some (JString s, tail).
Proof.
  intros Hs. unfold json.encodeString. cbn [append].
  rewrite app_assoc_str. change (str1 dquote ++ tail) with (String dquote tail).
  rewrite parseValue_quote, (unquote_encoded s tail Hs). reflexivity.
Qed.

Lemma parseValue_int fuel z tail :
  numberEnd tail = true ->
  jsondec.parseValue (S fuel) (json.encodeInt z ++ tail) = Some (JNumber (strconv.Itoa z), tail).
Proof.
  intros Hend. unfold json.encodeInt.
  pose proof (scanNumber_Itoa z tail Hend) as Hscan.
  destruct (Itoa_head z) as (c & t & E & Hc).
  rewrite E in *. cbn [append] in *.
  cbn [jsondec.parseValue jsondec.skipWS].
  assert (Hb : byteval c = 0x2D \/ 0x30 <= byteval c <= 0x39).
  { destruct Hc as [Hc|Hc]; [right|left; exact Hc].
    unfold jsondec.isDigit in Hc. lia. }
  unfold jsondec.isSpace.
  replace ((byteval c =? 32) || (byteval c =? 9) || (byteval c =? 13) || (byteval c =? 10))
    with false by lia.
  replace (byteval c =? 123) with false by lia.
  replace (byteval c =? 91) with false by lia.
  replace (byteval c =? 34) with false by lia.
  replace (byteval c =? 116) with false by lia.
  replace (byteval c =? 102) with false by lia.
  replace (byteval c =? 110) with false by lia.
  rewrite Hscan. reflexivity.
Qed.

Lemma parseValue_bool fuel b tail :
  jsondec.parseValue (S fuel) (json.encodeBool b ++ tail) = Some (JBool b, tail).
Proof. destruct b; reflexivity. Qed.

Lemma plainKey_facts name :
  plainKey name = true ->
  Valid name /\ forall n, (String.length name <= n)%nat -> json.encodeRunes n name = name.
Proof.
  induction name as [|c name IH]; cbn [plainKey]; intros H.
  - split; [constructor|]. intros n _. destruct n; reflexivity.
  - apply andb_true_iff in H. destruct H as [Hc Hn].
    destruct (IH Hn) as [Hv He].
    assert (Hlt : byteval c < 0x80).
    { unfold json.htmlSafeSet in Hc. lia. }
    split; [apply Valid_ascii; assumption|].
    intros n Hlen. cbn [String.length] in Hlen. destruct n as [|n]; [lia|].
    rewrite encodeRunes_ascii by exact Hlt. unfold encodeAscii. rewrite Hc.
    cbn [append str1]. rewrite He by lia. reflexivity.
Qed.

Lemma unquote_key name tail :
  plainKey name = true ->
  let rest := name ++ String dquote tail in
  jsondec.unquote (String.length rest) rest = Some (name, tail).
Proof.
  intros Hp. destruct (plainKey_facts name Hp) as [Hv He].
  pose proof (unquote_encoded name tail Hv) as H. cbv zeta in H.
  rewrite He in H by lia. exact H.
Qed.

Lemma parseMembers_quote fuel rest :
  jsondec.parseMembers (S fuel) (String dquote rest) =
  match jsondec.unquote (String.length rest) rest with
  | Some (key, r1) =>
    match jsondec.skipWS r1 with
    | String colon r2 =>
      if byteval colon =? 0x3A then
        match jsondec.parseValue fuel r2 with
        | Some (v, r3) =>
          match jsondec.skipWS r3 with
          | String sep r4 =>
              if byteval sep =? 0x7D then Some ([(key, v)], r4)
              else if byteval sep =? 0x2C then
                match jsondec.parseMembers fuel r4 with
                | Some (ms, r5) => Some ((key, v) :: ms, r5)
                | None => None
                end
              else None
          | EmptyString => None
          end
        | None => None
        end
      else None
    | EmptyString => None
    end
  | None => None
  end.
Proof. reflexivity. Qed.

Lemma member_app name value tail :
  json.member name value ++ tail =
  String dquote (name ++ String dquote (String ":" (value ++ tail))).
Proof.
  unfold json.member. cbn [append]. rewrite app_assoc_str. reflexivity.
Qed.

Lemma parseMembers_last fuel name value v rest :
  plainKey name = true ->
  jsondec.parseValue fuel (value ++ String "}" rest) = Some (v, String "}" rest) ->
  jsondec.parseMembers (S fuel) (json.member name value ++ String "}" rest) =
  Some ([(name, v)], rest).
Proof.
  intros Hp Hv. rewrite member_app, parseMembers_quote.
  rewrite (unquote_key name _ Hp).
  change (jsondec.skipWS (String ":" (value ++ String "}" rest)))
    with (String ":" (value ++ String "}" rest)).
  change (byteval ":" =? 58) with true. cbv beta iota.
  rewrite Hv. reflexivity.
Qed.

Lemma parseMembers_cons fuel name value v more ms r :
  plainKey name = true ->
  jsondec.parseValue fuel (value ++ String "," more) = Some (v, String "," more) ->
  jsondec.parseMembers fuel more = Some (ms, r) ->
  jsondec.parseMembers (S fuel) (json.member name value ++ String "," more) =
  Some ((name, v) :: ms, r).
Proof.
  intros Hp Hv Hm. rewrite member_app, parseMembers_quote.
  rewrite (unquote_key name _ Hp).
  change (jsondec.skipWS (String ":" (value ++ String "," more)))
    with (String ":" (value ++ String "," more)).
  change (byteval ":" =? 58) with true. cbv beta iota.
  rewrite Hv.
  change (jsondec.skipWS (String "," more)) with (String "," more).
  cbv beta iota.
  change (byteval "," =? 125) with false. change (byteval "," =? 44) with true.
  cbv beta iota. rewrite Hm. reflexivity.
Qed.

Lemma parseValue_object fuel text ms rest :
  jsondec.parseMembers fuel (String dquote text) = Some (ms, rest) ->
  jsondec.parseValue (S fuel) (String "{" (String dquote text)) = Some (JObject ms, rest).
Proof.
  intros H.
  change (jsondec.parseValue (S fuel) (String "{" (String dquote text)))
    with (match jsondec.parseMembers fuel (String dquote text) with
          | Some (ms, r) => Some (JObject ms, r)
          | None => None
          end).
  rewrite H. reflexivity.
Qed.

(** ** The payload *)

Lemma parseMembers_draftData dd fuel :
  validDraftData dd ->
  jsondec.parseMembers (S (S (S (S (S (S (S (S (S fuel)))))))))
    (json.joinMembers
       [ json.member "action" (json.encodeString (DraftData.Action dd));
         json.member "title" (json.encodeString (DraftData.Title dd));
         json.member "reply" (json.encodeString (DraftData.Reply dd));
         json.member "originalText" (json.encodeString (DraftData.OriginalText dd));
         json.member "composerTime" (json.encodeInt (DraftData.ComposerTime dd));
         json.member "typingTime" (json.encodeInt (DraftData.TypingTime dd));
         json.member "postId" (json.encodeInt (DraftData.PostID dd));
         json.member "whisper" (json.encodeBool (DraftData.Whisper dd)) ] ++ "}")
  = match draftDataTree dd with
    | JObject ms => Some (ms, EmptyString)
    | _ => None
    end.
Proof.
  intros (Ha & Ht & Hr & Ho & Hc & Hy & Hp).
  apply ValidString_Valid in Ha, Ht, Hr, Ho.
  cbn [json.joinMembers draftDataTree].
  repeat (progress (rewrite ?app_assoc_str; cbn [append])).
  apply parseMembers_cons; [reflexivity|apply parseValue_string; assumption|].
  apply parseMembers_cons; [reflexivity|apply parseValue_string; assumption|].
  apply parseMembers_cons; [reflexivity|apply parseValue_string; assumption|].
  apply parseMembers_cons; [reflexivity|apply parseValue_string; assumption|].
  apply parseMembers_cons; [reflexivity|apply parseValue_int; reflexivity|].
  apply parseMembers_cons; [reflexivity|apply parseValue_int; reflexivity|].
  apply parseMembers_cons; [reflexivity|apply parseValue_int; reflexivity|].
  apply parseMembers_last; [reflexivity|apply parseValue_bool].
Qed.

Lemma Marshal_draftData_length dd :
  exists fuel,
    String.length (fst (json.Marshal_draftData dd)) =
    S (S (S (S (S (S (S (S (S (S fuel))))))))).
Proof.
  unfold json.Marshal_draftData, json.object. cbn [fst json.joinMembers].
  rewrite member_app. cbn [String.length append].
  eexists. reflexivity.
Qed.

Lemma parse_draftData dd :
  validDraftData dd ->
  jsondec.parse (fst (json.Marshal_draftData dd)) = Some (draftDataTree dd).
Proof.
  intros Hv. unfold jsondec.parse.
  destruct (Marshal_draftData_length dd) as (fuel & ->).
  unfold json.Marshal_draftData, json.object. cbn [fst].
  pose proof (parseMembers_draftData dd (S fuel) Hv) as Hm.
  cbn [draftDataTree] in Hm.
  assert (Hshape : exists text,
            json.joinMembers
              [ json.member "action" (json.encodeString (DraftData.Action dd));
                json.member "title" (json.encodeString (DraftData.Title dd));
                json.member "reply" (json.encodeString (DraftData.Reply dd));
                json.member "originalText" (json.encodeString (DraftData.OriginalText dd));
                json.member "composerTime" (json.encodeInt (DraftData.ComposerTime dd));
                json.member "typingTime" (json.encodeInt (DraftData.TypingTime dd));
                json.member "postId" (json.encodeInt (DraftData.PostID dd));
                json.member "whisper" (json.encodeBool (DraftData.Whisper dd)) ] ++ "}"
            = String dquote text).
  { cbn [json.joinMembers]. rewrite !app_assoc_str, member_app. eexists. reflexivity. }
  destruct Hshape as (text & Hshape). rewrite Hshape in *.
  rewrite (parseValue_object _ _ _ _ Hm). reflexivity.
Qed.

Lemma store_draftDataTree dd dd0 :
  validDraftData dd ->
  match draftDataTree dd with
  | JObject ms => jsondec.storeMembers ms dd0 None
  | _ => (dd0, None)
  end = (dd, None).
Proof.
  intros (_ & _ & _ & _ & Hc & Hy & Hp).
  destruct dd as [action title reply original composer typing postid whisper].
  destruct dd0 as [a0 t0 r0 o0 c0 y0 p0 w0].
  cbn [DraftData.ComposerTime DraftData.TypingTime DraftData.PostID] in Hc, Hy, Hp.
  cbn [draftDataTree DraftData.Action DraftData.Title DraftData.Reply
       DraftData.OriginalText DraftData.ComposerTime DraftData.TypingTime
       DraftData.PostID DraftData.Whisper jsondec.storeMembers].
  change (jsondec.findField "action") with (Some jsondec.FAction).
  change (jsondec.findField "title") with (Some jsondec.FTitle).
  change (jsondec.findField "reply") with (Some jsondec.FReply).
  change (jsondec.findField "originalText") with (Some jsondec.FOriginalText).
  change (jsondec.findField "composerTime") with (Some jsondec.FComposerTime).
  change (jsondec.findField "typingTime") with (Some jsondec.FTypingTime).
  change (jsondec.findField "postId") with (Some jsondec.FPostID).
  change (jsondec.findField "whisper") with (Some jsondec.FWhisper).
  repeat (cbn [jsondec.storeField jsondec.storeString jsondec.storeBool
               jsondec.storeInt jsondec.saveError];
          rewrite ?ParseInt_Itoa by assumption).
  reflexivity.
Qed.

Lemma Unmarshal_draftData_Marshal dd dd0 :
  validDraftData dd ->
  jsondec.Unmarshal_draftData (fst (json.Marshal_draftData dd)) dd0 = (dd, None).
Proof.
  intros Hv. unfold jsondec.Unmarshal_draftData.
  rewrite (parse_draftData dd Hv).
  pose proof (store_draftDataTree dd dd0 Hv) as H.
  unfold draftDataTree in *. exact H.
Qed.

Lemma member_Valid name value :
  plainKey name = true -> Valid value -> Valid (json.member name value).
Proof.
  intros Hp Hv. destruct (plainKey_facts name Hp) as [Hn _].
  unfold json.member.
  apply Valid_ascii; [vm_compute; reflexivity|].
  apply Valid_app; [exact Hn|].
  apply Valid_ascii; [vm_compute; reflexivity|].
  apply Valid_ascii; [vm_compute; reflexivity|exact Hv].
Qed.

Lemma joinMembers_Valid ms :
  Forall Valid ms -> Valid (json.joinMembers ms).
Proof.
  induction 1 as [|m ms Hm Hms IH]; [constructor|].
  destruct ms as [|m' ms']; [exact Hm|].
  change (json.joinMembers (m :: m' :: ms'))
    with (m ++ String "," (json.joinMembers (m' :: ms'))).
  apply Valid_app; [exact Hm|].
  apply Valid_ascii; [vm_compute; reflexivity|exact IH].
Qed.

Lemma Marshal_draftData_Valid dd :
  validDraftData dd -> Valid (fst (json.Marshal_draftData dd)).
Proof.
  intros (Ha & Ht & Hr & Ho & _).
  apply ValidString_Valid in Ha, Ht, Hr, Ho.
  unfold json.Marshal_draftData, json.object. cbn [fst].
  apply Valid_ascii; [vm_compute; reflexivity|].
  apply Valid_app; [|apply allAscii_Valid; reflexivity].
  apply joinMembers_Valid.
  repeat (apply Forall_cons;
          [apply member_Valid;
           [reflexivity
           |first [apply encodeString_Valid; assumption
                  |apply allAscii_Valid, Itoa_allAscii
                  |apply allAscii_Valid; destruct (DraftData.Whisper dd); reflexivity]]
          |]).
  apply Forall_nil.
Qed.

Lemma Unmarshal_string_Marshal s old :
  Valid s -> jsondec.Unmarshal_string (json.encodeString s) old = (s, None).
Proof.
  intros Hs. unfold jsondec.Unmarshal_string, jsondec.parse.
  rewrite <- (app_nil_r_str (json.encodeString s)) at 2.
  rewrite parseValue_string by exact Hs. reflexivity.
Qed.

(** C4, as amended. For a payload whose strings are valid UTF-8 (and
    whose integers are Go [int]s), [MarshalJSON] returns no error and the
    JSON string that encodes the payload's own encoding; [UnmarshalJSON]
    on that text, into any receiver, returns no error and leaves the
    receiver equal to the payload. The [data] member [SaveDraft] sends is
    this very text. *)
Theorem C4_double_encoding_round_trip dd dd0 :
  validDraftData dd ->
  DraftData_MarshalJSON dd =
    (json.encodeString (fst (json.Marshal_draftData dd)), None) /\
  DraftData_UnmarshalJSON (fst (DraftData_MarshalJSON dd)) dd0 = (dd, None) /\
  (forall d, Draft.Data d = Some dd ->
     json_Marshal_body (DraftEnvelope d) =
       (json.object
          [ json.member "draft_key" (json.encodeString (Draft.Key d));
            json.member "topic_id" (json.encodeInt (Draft.TopicID d));
            json.member "sequence" (json.encodeInt (Draft.Sequence d));
            json.member "data" (fst (DraftData_MarshalJSON dd)) ], None)).
Proof.
  intros Hv.
  assert (Hm : DraftData_MarshalJSON dd =
               (json.encodeString (fst (json.Marshal_draftData dd)), None))
    by reflexivity.
  split; [exact Hm|]. split.
  - rewrite Hm. cbn [fst]. unfold DraftData_UnmarshalJSON.
    rewrite (Unmarshal_string_Marshal _ _ (Marshal_draftData_Valid dd Hv)).
    apply Unmarshal_draftData_Marshal. exact Hv.
  - intros d Hd. unfold json_Marshal_body. rewrite Hd, Hm. reflexivity.
Qed.

Lemma C4_double_encoding_round_trip_witness :
  validDraftData Sample.unicodeDraftData /\
  DraftData_UnmarshalJSON (fst (DraftData_MarshalJSON Sample.unicodeDraftData))
    zeroDraftData = (Sample.unicodeDraftData, None).
Proof.
  assert (Hv : validDraftData Sample.unicodeDraftData).
  { unfold validDraftData, int64. cbn.
    repeat split; try reflexivity; lia. }
  split; [exact Hv|].
  exact (proj1 (proj2 (C4_double_encoding_round_trip Sample.unicodeDraftData
                         zeroDraftData Hv))).
Defined.

(** C4 as stated fails for a payload whose reply holds a byte that is not
    UTF-8. The encoder writes the replacement rune for the byte 0xFF, and
    decoding gives back the three bytes EF BF BD of U+FFFD: no error, and
    a payload that differs from the one encoded. *)
Lemma C4_counterexample :
  DraftData_UnmarshalJSON (fst (DraftData_MarshalJSON Sample.rawByteDraftData))
    zeroDraftData
  = (DraftData.mk "edit" "Greetings"
       (String (bytechr 0xEF) (String (bytechr 0xBF) (String (bytechr 0xBD) EmptyString)))
       "Hello world" 4321 1234 11 false, None) /\
  DraftData_UnmarshalJSON (fst (DraftData_MarshalJSON Sample.rawByteDraftData))
    zeroDraftData
  <> (Sample.rawByteDraftData, None).
Proof.
  assert (H : DraftData_UnmarshalJSON
                (fst (DraftData_MarshalJSON Sample.rawByteDraftData)) zeroDraftData
              = (DraftData.mk "edit" "Greetings"
                   (String (bytechr 0xEF)
                      (String (bytechr 0xBF) (String (bytechr 0xBD) EmptyString)))
                   "Hello world" 4321 1234 11 false, None))
    by (vm_compute; reflexivity).
  split; [exact H|]. rewrite H. vm_compute. intros E. discriminate E.
Qed.

Lemma trimPrefix_app l s : regexp.trimPrefix l (l ++ s) = Some s.
Proof.
  induction l as [|a l IH]; cbn; [destruct s; reflexivity|].
  rewrite Ascii.eqb_refl. exact IH.
Qed.

Lemma run_Literal l pos s m k :
  regexp.run (regexp.Literal l) pos (l ++ s) m k = k (pos + String.length l)%nat s m.
Proof. cbn [regexp.run]. rewrite trimPrefix_app. reflexivity. Qed.

Lemma plus_stop class pos s k :
  startsWith class s = false -> regexp.plus class pos s k = None.
Proof. destruct s as [|c s]; cbn; [reflexivity|]. intros ->. reflexivity. Qed.

Lemma plus_first class body : forall rest pos k r,
  body <> EmptyString -> allOf class body = true -> startsWith class rest = false ->
  k (pos + String.length body)%nat rest = Some r ->
  regexp.plus class pos (body ++ rest) k = Some r.
Proof.
  induction body as [|a body IH]; intros rest pos k r Hne Hall Hstop Hk; [contradiction|].
  cbn in Hall. apply andb_true_iff in Hall. destruct Hall as [Ha Hall].
  cbn [append regexp.plus]. rewrite Ha.
  destruct body as [|b body].
  - cbn [append]. rewrite plus_stop by exact Hstop. cbn [regexp.orElse].
    cbn in Hk. rewrite Nat.add_1_r in Hk. exact Hk.
  - rewrite (IH rest (S pos) k r); [reflexivity|discriminate|exact Hall|exact Hstop|].
    cbn [String.length] in *. rewrite <- Hk. f_equal. lia.
Qed.

Lemma run_capture_plus class n body rest pos m k r :
  body <> EmptyString -> allOf class body = true -> startsWith class rest = false ->
  k (pos + String.length body)%nat rest (regexp.setcap n body m) = Some r ->
  regexp.run (regexp.Capture n (regexp.PlusClass class)) pos (body ++ rest) m k = Some r.
Proof.
  intros Hne Hall Hstop Hk. cbn [regexp.run].
  apply plus_first; auto.
  replace (pos + String.length body - pos)%nat with (String.length body) by lia.
  rewrite str_take_app. exact Hk.
Qed.

Lemma run_plus class body rest pos m k r :
  body <> EmptyString -> allOf class body = true -> startsWith class rest = false ->
  k (pos + String.length body)%nat rest m = Some r ->
  regexp.run (regexp.PlusClass class) pos (body ++ rest) m k = Some r.
Proof.
  intros Hne Hall Hstop Hk. cbn [regexp.run]. apply plus_first; auto.
Qed.

Lemma orElse_first a b r : a = Some r -> regexp.orElse a b = Some r.
Proof. intros ->. reflexivity. Qed.

Lemma topicURLPattern_parts :
  topicURLPattern =
  regexp.Concat regexp.BeginText
    (regexp.Concat (regexp.Quest originPattern) pathPattern).
Proof. reflexivity. Qed.

Lemma run_Concat r1 r2 pos s m k :
  regexp.run (regexp.Concat r1 r2) pos s m k =
  regexp.run r1 pos s m (fun pos1 s1 m1 => regexp.run r2 pos1 s1 m1 k).
Proof. reflexivity. Qed.

Lemma run_Quest r1 pos s m k :
  regexp.run (regexp.Quest r1) pos s m k =
  regexp.orElse (regexp.run r1 pos s m k) (k pos s m).
Proof. reflexivity. Qed.

Lemma isPost_stop post : isPost post -> startsWith digitByte post = false.
Proof. intros [->|(pd & _ & _ & ->)]; reflexivity. Qed.

(** The tail of the pattern, [/([0-9]+)(?:/[0-9]+)?$], on an id and an
    optional post number. *)
Lemma run_idTail ids post pos m k r :
  ids <> EmptyString -> allOf digitByte ids = true -> isPost post ->
  (forall pos', pos' = (pos + String.length ("/" ++ ids ++ post))%nat ->
     k pos' EmptyString (regexp.setcap 3 ids m) = Some r) ->
  regexp.run idTail pos ("/" ++ ids ++ post) m k = Some r.
Proof.
  intros Hne Hall Hpost Hk. unfold idTail.
  rewrite run_Concat, run_Literal, run_Concat.
  apply run_capture_plus; auto using isPost_stop.
  rewrite run_Concat, run_Quest.
  destruct Hpost as [->|(pd & Hpd & Hall' & ->)].
  - cbn. apply Hk. cbn. rewrite length_app. cbn. lia.
  - apply orElse_first. rewrite run_Concat, run_Literal.
    rewrite <- (app_nil_r_str pd).
    apply run_plus; auto. cbn. apply Hk.
    cbn. rewrite ?length_app. cbn. rewrite ?app_nil_r_str, ?length_app. cbn. lia.
Qed.

Lemma run_pathPattern_slug slug ids post pos m k r :
  isSlug slug -> ids <> EmptyString -> allOf digitByte ids = true -> isPost post ->
  (forall pos',
     pos' = (pos + String.length ("/t/" ++ slug ++ "/" ++ ids ++ post))%nat ->
     k pos' EmptyString (regexp.setcap 3 ids (regexp.setcap 2 slug m)) = Some r) ->
  regexp.run pathPattern pos ("/t/" ++ slug ++ "/" ++ ids ++ post) m k = Some r.
Proof.
  intros [Hs Hsall] Hne Hall Hpost Hk. unfold pathPattern. cbv zeta.
  rewrite run_Concat, run_Quest. apply orElse_first.
  change ("/t/" ++ slug ++ "/" ++ ids ++ post)
    with ("/t" ++ "/" ++ slug ++ "/" ++ ids ++ post).
  rewrite run_Literal, run_Concat, run_Quest. apply orElse_first.
  rewrite run_Concat, run_Literal.
  apply run_capture_plus; auto.
  apply run_idTail; auto.
  intros pos' ->. apply Hk. cbn. rewrite !length_app. cbn. rewrite !length_app. cbn. lia.
Qed.

Lemma run_Capture n r1 pos s m k :
  regexp.run (regexp.Capture n r1) pos s m k =
  regexp.run r1 pos s m
    (fun pos1 s1 m1 => k pos1 s1 (regexp.setcap n (str_take (pos1 - pos) s) m1)).
Proof. reflexivity. Qed.

Lemma run_originPattern base path pos m k r :
  isOrigin base -> startsWith notSlash path = false ->
  k (pos + String.length base)%nat path (regexp.setcap 1 base m) = Some r ->
  regexp.run originPattern pos (base ++ path) m k = Some r.
Proof.
  intros (scheme & host & Hscheme & Hhost & Hall & ->) Hstop Hk.
  unfold originPattern. cbv zeta. rewrite run_Capture.
  destruct Hscheme as [-> | ->].
  - cbn. apply plus_first; auto.
    rewrite <- Hk. f_equal.
    + cbn. lia.
    + f_equal.
      replace (pos + 4 + 3 + String.length host - pos)%nat
        with (7 + String.length host)%nat by lia.
      cbn. rewrite str_take_app. reflexivity.
  - cbn. apply orElse_first. apply plus_first; auto.
    rewrite <- Hk. f_equal.
    + cbn. lia.
    + f_equal.
      replace (pos + 4 + 1 + 3 + String.length host - pos)%nat
        with (8 + String.length host)%nat by lia.
      cbn. rewrite str_take_app. reflexivity.
Qed.

Lemma find_unfold re pos s :
  regexp.find re pos s =
  match regexp.run (regexp.Capture 0 re) pos s regexp.nocaptures
          (fun _ _ m => Some m) with
  | Some m => Some m
  | None =>
      match s with
      | String _ s' => regexp.find re (S pos) s'
      | EmptyString => None
      end
  end.
Proof. destruct s; reflexivity. Qed.

Lemma originPattern_needs_http s pos m k :
  match s with
  | String c _ => c <> "h"%char
  | EmptyString => True
  end ->
  regexp.run originPattern pos s m k = None.
Proof.
  intros H. unfold originPattern. cbv zeta. rewrite run_Capture, run_Concat.
  cbn [regexp.run regexp.trimPrefix].
  destruct s as [|c s]; [reflexivity|].
  destruct (Ascii.eqb_spec "h" c) as [E|E]; [congruence|reflexivity].
Qed.

Lemma find_with_base base path (P : regexp.captures -> Prop) :
  isBase base -> startsWith notSlash path = false ->
  (forall m, m 1%nat = base -> m 2%nat = EmptyString ->
     exists r,
       regexp.run pathPattern (String.length base) path m (wholeMatch (base ++ path))
         = Some r /\ P r) ->
  exists r,
    regexp.FindStringSubmatch topicURLPattern (base ++ path) = Some r /\ P r.
Proof.
  intros Hbase Hstop Hpath.
  unfold regexp.FindStringSubmatch. rewrite find_unfold.
  rewrite run_Capture, topicURLPattern_parts, run_Concat.
  cbn [regexp.run Nat.eqb]. fold regexp.run.
  fold (wholeMatch (base ++ path)).
  destruct Hbase as [-> | Horigin].
  - destruct (Hpath regexp.nocaptures eq_refl eq_refl) as (r & Hr & HP).
    exists r. split; [|exact HP].
    rewrite originPattern_needs_http.
    + cbn [regexp.orElse append String.length] in *. rewrite Hr. reflexivity.
    + cbn [append]. destruct path as [|c p]; [exact I|].
      cbn in Hstop. unfold notSlash in Hstop. apply negb_false_iff in Hstop.
      intros ->. discriminate Hstop.
  - destruct (Hpath (regexp.setcap 1 base regexp.nocaptures) eq_refl eq_refl) as (r & Hr & HP).
    exists r. split; [|exact HP].
    rewrite (run_originPattern base path 0 _ _ r Horigin Hstop); [reflexivity|].
    exact Hr.
Qed.

(** The match of a URL with a slug: the first branch of every choice
    succeeds. *)
Lemma find_slug_form base slug ids post :
  isBase base -> isSlug slug ->
  ids <> EmptyString -> allOf digitByte ids = true -> isPost post ->
  exists m,
    regexp.FindStringSubmatch topicURLPattern
      (base ++ "/t/" ++ slug ++ "/" ++ ids ++ post) = Some m /\
    m 1%nat = base /\ m 2%nat = slug /\ m 3%nat = ids.
Proof.
  intros Hbase Hslug Hne Hall Hpost.
  apply (find_with_base base ("/t/" ++ slug ++ "/" ++ ids ++ post)
           (fun m => m 1%nat = base /\ m 2%nat = slug /\ m 3%nat = ids));
    [exact Hbase|reflexivity|].
  intros m Hm Hm2. eexists. split.
  - apply run_pathPattern_slug; auto. intros pos' ->. reflexivity.
  - cbn. auto.
Qed.

Lemma plus_none class body : forall rest pos k,
  allOf class body = true -> startsWith class rest = false ->
  (forall b1 b2, body = b1 ++ b2 -> b1 <> EmptyString ->
     k (pos + String.length b1)%nat (b2 ++ rest) = None) ->
  regexp.plus class pos (body ++ rest) k = None.
Proof.
  induction body as [|a body IH]; intros rest pos k Hall Hstop Hk.
  - apply plus_stop. exact Hstop.
  - cbn in Hall. apply andb_true_iff in Hall. destruct Hall as [Ha Hall].
    cbn [append regexp.plus]. rewrite Ha.
    rewrite IH; [|exact Hall|exact Hstop|].
    + cbn [regexp.orElse].
      specialize (Hk (String a EmptyString) body eq_refl ltac:(discriminate)).
      cbn in Hk. rewrite Nat.add_1_r in Hk. exact Hk.
    + intros b1 b2 -> Hb1.
      specialize (Hk (String a b1) b2 eq_refl ltac:(discriminate)).
      cbn [String.length] in Hk. rewrite <- Hk. f_equal. lia.
Qed.

Lemma allOf_app class a b :
  allOf class (a ++ b) = allOf class a && allOf class b.
Proof.
  induction a as [|c a IH]; cbn; [reflexivity|]. rewrite IH, andb_assoc. reflexivity.
Qed.

(** Digits alone are not followed by the slash the pattern wants after a
    slug. *)
Lemma idTail_needs_slash s pos m k :
  startsWith notSlash s = true \/ s = EmptyString ->
  regexp.run idTail pos s m k = None.
Proof.
  intros H. unfold idTail. rewrite run_Concat. cbn [regexp.run regexp.trimPrefix].
  destruct s as [|c s]; [reflexivity|].
  destruct H as [H|H]; [|discriminate].
  cbn in H. unfold notSlash in H. apply negb_true_iff in H.
  destruct (Ascii.eqb_spec "/" c) as [E|E]; [|reflexivity].
  subst c. discriminate H.
Qed.

Lemma digit_notSlash s :
  allOf digitByte s = true -> startsWith notSlash s = true \/ s = EmptyString.
Proof.
  destruct s as [|c s]; [auto|]. cbn. intros H. left.
  apply andb_true_iff in H. destruct H as [H _].
  unfold digitByte, jsondec.isDigit in H. unfold notSlash. lia.
Qed.

Lemma digit_slug s : allOf digitByte s = true -> allOf slugByte s = true.
Proof.
  induction s as [|c s IH]; cbn; [reflexivity|]. intros H.
  apply andb_true_iff in H. destruct H as [Hc Hs]. rewrite IH by exact Hs.
  unfold digitByte, jsondec.isDigit in Hc. unfold slugByte. lia.
Qed.

Lemma plus_none_end class body pos k :
  allOf class body = true ->
  (forall b1 b2, body = b1 ++ b2 -> b1 <> EmptyString ->
     k (pos + String.length b1)%nat b2 = None) ->
  regexp.plus class pos body k = None.
Proof.
  intros Hall Hk. rewrite <- (app_nil_r_str body).
  apply plus_none; [exact Hall|reflexivity|].
  intros b1 b2 E Hb1. rewrite app_nil_r_str. apply Hk; assumption.
Qed.

Lemma run_idTail_end ids pos m k r :
  ids <> EmptyString -> allOf digitByte ids = true ->
  (forall pos', pos' = (pos + String.length ("/" ++ ids))%nat ->
     k pos' EmptyString (regexp.setcap 3 ids m) = Some r) ->
  regexp.run idTail pos ("/" ++ ids) m k = Some r.
Proof.
  intros Hne Hall Hk.
  pose proof (run_idTail ids EmptyString pos m k r Hne Hall (or_introl eq_refl)) as H.
  rewrite app_nil_r_str in H. apply H. exact Hk.
Qed.

(** The match of a URL without slug and without post number: the slug
    group is tried on the digits and given up. *)
Lemma find_id_form base ids :
  isBase base -> ids <> EmptyString -> allOf digitByte ids = true ->
  exists m,
    regexp.FindStringSubmatch topicURLPattern (base ++ "/t/" ++ ids) = Some m /\
    m 1%nat = base /\ m 2%nat = EmptyString /\ m 3%nat = ids.
Proof.
  intros Hbase Hne Hall.
  apply (find_with_base base ("/t/" ++ ids)
           (fun m => m 1%nat = base /\ m 2%nat = EmptyString /\ m 3%nat = ids));
    [exact Hbase|reflexivity|].
  intros m Hm Hm2. eexists. split.
  - unfold pathPattern. cbv zeta.
    rewrite run_Concat, run_Quest. apply orElse_first.
    change ("/t/" ++ ids) with ("/t" ++ "/" ++ ids).
    rewrite run_Literal, run_Concat, run_Quest.
    replace (regexp.run
               (regexp.Concat (regexp.Literal "/")
                  (regexp.Capture 2 (regexp.PlusClass slugByte))) _ _ _ _)
      with (@None regexp.captures).
    + cbn [regexp.orElse]. apply run_idTail_end; auto.
      intros pos' ->. reflexivity.
    + symmetry. rewrite run_Concat, run_Literal, run_Capture. cbn [regexp.run].
      apply plus_none_end; [apply digit_slug, Hall|].
      intros b1 b2 -> Hb1. rewrite allOf_app in Hall.
      apply andb_true_iff in Hall. destruct Hall as [_ H2].
      apply idTail_needs_slash. apply digit_notSlash. exact H2.
  - cbn. auto.
Qed.

Lemma trimPrefix_Some l : forall s s',
  regexp.trimPrefix l s = Some s' -> s = l ++ s'.
Proof.
  induction l as [|a l IH]; intros s s' H; cbn in H.
  - destruct s; inversion H; reflexivity.
  - destruct s as [|b s]; [discriminate|].
    destruct (Ascii.eqb_spec a b) as [->|]; [|discriminate].
    cbn. f_equal. apply IH. exact H.
Qed.

Lemma plus_sound class s : forall pos k res,
  regexp.plus class pos s k = Some res ->
  exists body rest,
    s = body ++ rest /\ body <> EmptyString /\ allOf class body = true /\
    k (pos + String.length body)%nat rest = Some res.
Proof.
  induction s as [|a s IH]; intros pos k res H; cbn in H; [discriminate|].
  destruct (class a) eqn:Ha; [|discriminate].
  destruct (regexp.plus class (S pos) s k) as [r|] eqn:Hp; cbn in H.
  - inversion H; subst r. destruct (IH _ _ _ Hp) as (body & rest & -> & Hne & Hall & Hk).
    exists (String a body), rest. cbn. rewrite Ha, Hall.
    repeat split; try discriminate. rewrite <- Hk. f_equal. lia.
  - exists (String a EmptyString), s. cbn. rewrite Ha.
    repeat split; try discriminate. rewrite Nat.add_1_r. exact H.
Qed.

Lemma run_sound r : forall pos s m k res,
  regexp.run r pos s m k = Some res ->
  exists s1 s2 m',
    s = s1 ++ s2 /\ matches r pos s1 s2 m m' /\
    k (pos + String.length s1)%nat s2 m' = Some res.
Proof.
  induction r as [| |l|class|r1 IH1|r1 IH1 r2 IH2|n r1 IH1];
    intros pos s m k res H; cbn [regexp.run] in H.
  - destruct (Nat.eqb_spec pos 0) as [->|]; [|discriminate].
    exists EmptyString, s, m. repeat split; [constructor|exact H].
  - destruct s; [|discriminate].
    exists EmptyString, EmptyString, m. cbn. rewrite Nat.add_0_r.
    repeat split; [constructor|exact H].
  - destruct (regexp.trimPrefix l s) as [s'|] eqn:Hl; [|discriminate].
    apply trimPrefix_Some in Hl. subst s.
    exists l, s', m. repeat split; [constructor|exact H].
  - apply plus_sound in H. destruct H as (body & rest & -> & Hne & Hall & Hk).
    exists body, rest, m. repeat split; [constructor; assumption|exact Hk].
  - destruct (regexp.run r1 pos s m k) as [x|] eqn:H1; cbn in H.
    + inversion H; subst x. destruct (IH1 _ _ _ _ _ H1) as (s1 & s2 & m' & -> & Hm & Hk).
      exists s1, s2, m'. repeat split; [apply matches_Quest_take; exact Hm|exact Hk].
    + exists EmptyString, s, m. cbn. rewrite Nat.add_0_r.
      repeat split; [constructor|exact H].
  - destruct (IH1 _ _ _ _ _ H) as (s1 & s' & m1 & -> & Hm1 & Hk1).
    destruct (IH2 _ _ _ _ _ Hk1) as (s2 & s3 & m2 & -> & Hm2 & Hk2).
    exists (s1 ++ s2), s3, m2. rewrite app_assoc_str.
    repeat split; [econstructor; eassumption|].
    rewrite length_app, Nat.add_assoc. exact Hk2.
  - destruct (IH1 _ _ _ _ _ H) as (s1 & s2 & m1 & -> & Hm1 & Hk1).
    exists s1, s2, (regexp.setcap n s1 m1).
    repeat split; [constructor; exact Hm1|].
    replace (pos + String.length s1 - pos)%nat with (String.length s1) in Hk1 by lia.
    rewrite str_take_app in Hk1. exact Hk1.
Qed.

Lemma find_anchored re : forall s pos m,
  regexp.find (regexp.Concat regexp.BeginText re) (S pos) s = Some m -> False.
Proof.
  induction s as [|c s IH]; intros pos m H; cbn in H; [discriminate|].
  eapply IH. exact H.
Qed.

Lemma FindStringSubmatch_anchored re s m :
  regexp.FindStringSubmatch (regexp.Concat regexp.BeginText re) s = Some m ->
  regexp.run (regexp.Capture 0 (regexp.Concat regexp.BeginText re)) 0 s
    regexp.nocaptures (fun _ _ m => Some m) = Some m.
Proof.
  unfold regexp.FindStringSubmatch. rewrite find_unfold.
  destruct (regexp.run _ 0 s _ _) as [x|] eqn:Hr; [auto|].
  destruct s as [|c s]; [discriminate|].
  intros H. exfalso. eapply find_anchored. exact H.
Qed.

Ltac inv H := inversion H; subst; clear H.

Ltac inv_matches :=
  repeat match goal with
  | H : matches (regexp.Concat _ _) _ _ _ _ _ |- _ => inv H
  | H : matches (regexp.Literal _) _ _ _ _ _ |- _ => inv H
  | H : matches (regexp.Capture _ _) _ _ _ _ _ |- _ => inv H
  | H : matches (regexp.PlusClass _) _ _ _ _ _ |- _ => inv H
  | H : matches (regexp.Quest _) _ _ _ _ _ |- _ => inv H
  | H : matches regexp.BeginText _ _ _ _ _ |- _ => inv H
  | H : matches regexp.EndText _ _ _ _ _ |- _ => inv H
  end.

Lemma matches_origin pos s rest m m' :
  matches (regexp.Quest originPattern) pos s rest m m' ->
  (s = EmptyString /\ m' = m) \/ (isOrigin s /\ m' = regexp.setcap 1 s m).
Proof.
  unfold originPattern. cbv zeta. intros H. inv_matches; auto; right.
  all: split; [|reflexivity].
  all: match goal with
       | Hall : allOf notSlash ?host = true |- isOrigin ("http" ++ "" ++ _) =>
           exists "http", host
       | Hall : allOf notSlash ?host = true |- isOrigin ("http" ++ "s" ++ _) =>
           exists "https", host
       end.
  all: cbn; auto.
Qed.

Lemma matches_path pos s rest m m' :
  matches pathPattern pos s rest m m' ->
  rest = EmptyString /\ m' 1%nat = m 1%nat /\
  exists t slugpart post,
    s = t ++ slugpart ++ "/" ++ m' 3%nat ++ post /\
    (t = EmptyString \/ t = "/t") /\
    (slugpart = EmptyString \/ exists slug, isSlug slug /\ slugpart = "/" ++ slug) /\
    m' 3%nat <> EmptyString /\ allOf digitByte (m' 3%nat) = true /\ isPost post.
Proof.
  unfold pathPattern. cbv zeta. intros H. inv_matches.
  all: split; [reflexivity|]; split; [reflexivity|].
  all: cbn [regexp.setcap Nat.eqb].
  all: match goal with
       | |- context [("" ++ "" ++ _)] => exists EmptyString, EmptyString
       | |- context [("/t" ++ "" ++ _)] => exists "/t", EmptyString
       | |- context [("" ++ ("/" ++ ?slug) ++ _)] => exists EmptyString, ("/" ++ slug)
       | |- context [("/t" ++ ("/" ++ ?slug) ++ _)] => exists "/t", ("/" ++ slug)
       end.
  all: match goal with
       | |- context [(?ids ++ "" ++ "")] => exists EmptyString
       | |- context [(?ids ++ ("/" ++ ?pd) ++ "")] => exists ("/" ++ pd)
       end.
  all: rewrite ?app_nil_r_str; cbn [append].
  all: repeat split; auto; try (left; reflexivity); try (right; reflexivity).
  all: try (right; eexists; split; [split; eassumption|reflexivity]).
  all: try (right; eexists; repeat split; eauto).
Qed.

Lemma FindStringSubmatch_shape u m :
  regexp.FindStringSubmatch topicURLPattern u = Some m ->
  topicURLShape u (m 1%nat) (m 3%nat).
Proof.
  intros H. rewrite topicURLPattern_parts in H.
  apply FindStringSubmatch_anchored in H.
  apply run_sound in H. destruct H as (s1 & s2 & m' & -> & Hm & Hk).
  inv Hk. inv Hm.
  match goal with H : matches (regexp.Concat _ _) _ _ _ _ _ |- _ => inv H end.
  match goal with H : matches regexp.BeginText _ _ _ _ _ |- _ => inv H end.
  match goal with H : matches (regexp.Concat _ _) _ _ _ _ _ |- _ => inv H end.
  match goal with H : matches pathPattern _ _ _ _ _ |- _ =>
    apply matches_path in H;
    destruct H as (-> & Hm1 & t & slugpart & post & Hs & Ht & Hslug & Hne & Hall & Hpost)
  end.
  match goal with H : matches (regexp.Quest originPattern) _ _ _ _ _ |- _ =>
    apply matches_origin in H; destruct H as [[-> ->]|[Horigin ->]]
  end.
  - cbn [regexp.setcap Nat.eqb]. rewrite Hm1. cbn.
    exists t, slugpart, post. rewrite app_nil_r_str.
    repeat split; auto. left; reflexivity.
  - cbn [regexp.setcap Nat.eqb]. rewrite Hm1. cbn [regexp.setcap Nat.eqb append].
    exists t, slugpart, post. rewrite app_nil_r_str.
    repeat split; auto. + rewrite Hs at 1. reflexivity. + right; exact Horigin.
Qed.

Lemma allDigits_allOf s : allDigits s = allOf digitByte s.
Proof. induction s as [|c s IH]; cbn; [reflexivity|]. rewrite IH. reflexivity. Qed.

Lemma Itoa_nonneg n :
  0 <= n -> strconv.Itoa n <> EmptyString /\ allOf digitByte (strconv.Itoa n) = true.
Proof.
  intros Hn. destruct n as [|p|p]; [split; [discriminate|reflexivity]| |lia].
  rewrite Itoa_pos. destruct (to_uint_text p) as (c & ds & -> & Hc & _ & Hds).
  split; [discriminate|]. cbn. unfold digitByte. rewrite Hc.
  rewrite <- allDigits_allOf. exact Hds.
Qed.

Lemma Atoi_Itoa n :
  strconv_Atoi (strconv.Itoa n) =
  if n <? - 2 ^ 63 then (- 2 ^ 63, Some rangeError)
  else if 2 ^ 63 <=? n then (2 ^ 63 - 1, Some rangeError)
  else (n, None).
Proof.
  destruct n as [|p|p].
  - reflexivity.
  - rewrite Itoa_pos. unfold strconv_Atoi.
    pose proof (DecimalString.NilZero.usu (Pos.to_uint p)
                  (DecimalPos.Unsigned.to_uint_nonnil p)) as Hu.
    destruct (to_uint_text p) as (c & ds & E & Hc & Hnz & Hds).
    rewrite E in *. unfold jsondec.isDigit in Hc.
    replace (byteval c =? 45) with false by lia.
    replace (byteval c =? 43) with false by lia.
    rewrite Hu, Z_of_to_uint. reflexivity.
  - rewrite Itoa_neg. unfold strconv_Atoi.
    pose proof (DecimalString.NilZero.usu (Pos.to_uint p)
                  (DecimalPos.Unsigned.to_uint_nonnil p)) as Hu.
    change (byteval "-" =? 45) with true. cbv beta iota.
    rewrite Hu, Z_of_to_uint. reflexivity.
Qed.

Lemma Atoi_Itoa_ok n : int64 n -> strconv_Atoi (strconv.Itoa n) = (n, None).
Proof.
  unfold int64. intros H. rewrite Atoi_Itoa.
  replace (n <? - 2 ^ 63) with false by lia.
  replace (2 ^ 63 <=? n) with false by lia. reflexivity.
Qed.

Lemma of_uint_nonneg d : 0 <= Z.of_uint d.
Proof. unfold Z.of_uint. apply N2Z.is_nonneg. Qed.

(** On digits alone, [Atoi] returns a value that is not negative. *)
Lemma Atoi_digits ids id :
  ids <> EmptyString -> allOf digitByte ids = true ->
  strconv_Atoi ids = (id, None) -> 0 <= id < 2 ^ 63.
Proof.
  intros Hne Hall H. unfold strconv_Atoi in H.
  destruct ids as [|c r]; [contradiction|].
  cbn in Hall. apply andb_true_iff in Hall. destruct Hall as [Hc _].
  unfold digitByte, jsondec.isDigit in Hc.
  replace (byteval c =? 45) with false in H by lia.
  replace (byteval c =? 43) with false in H by lia.
  destruct (DecimalString.NilZero.uint_of_string (String c r)) as [d|]; [|discriminate].
  pose proof (of_uint_nonneg d).
  destruct (Z.of_uint d <? - 2 ^ 63); [discriminate|].
  destruct (2 ^ 63 <=? Z.of_uint d) eqn:Hhi; [discriminate|].
  inversion H; subst. lia.
Qed.

Lemma parseTopicURL_of_match u m id :
  regexp.FindStringSubmatch topicURLPattern u = Some m ->
  strconv_Atoi (m 3%nat) = (id, None) ->
  parseTopicURL u = (m 1%nat, id, None).
Proof. intros Hm Ha. unfold parseTopicURL. rewrite Hm, Ha. reflexivity. Qed.

Lemma isTopicID_int64 n : isTopicID n -> int64 n.
Proof. unfold isTopicID, int64. lia. Qed.

Lemma isPost_Itoa post : 0 <= post -> isPost ("/" ++ strconv.Itoa post).
Proof.
  intros H. right. exists (strconv.Itoa post).
  destruct (Itoa_nonneg post H). auto.
Qed.

(** X1. [parseTopicURL] accepts the URL of a topic as the forum writes it.
    For a base that is empty or [http://host] or [https://host] (a host
    of one byte or more, none a slash), a slug of one byte or more among
    [a-z], [0-9] and [-], and an ID from 0 to 2^63-1, the URL
    [base/t/slug/ID] gives the base, the ID and no error; so does that URL
    followed by a slash and a post number. *)
Theorem parseTopicURL_canonical base slug id :
  isBase base -> isSlug slug -> isTopicID id ->
  parseTopicURL (base ++ "/t/" ++ slug ++ "/" ++ strconv.Itoa id) = (base, id, None) /\
  forall post, 0 <= post ->
    parseTopicURL (base ++ "/t/" ++ slug ++ "/" ++ strconv.Itoa id
                        ++ "/" ++ strconv.Itoa post) = (base, id, None).
Proof.
  intros Hbase Hslug Hid.
  destruct (Itoa_nonneg id (proj1 Hid)) as [Hne Hall].
  pose proof (Atoi_Itoa_ok id (isTopicID_int64 _ Hid)) as Hatoi.
  split.
  - destruct (find_slug_form base slug (strconv.Itoa id) EmptyString
                Hbase Hslug Hne Hall (or_introl eq_refl)) as (m & Hm & H1 & _ & H3).
    rewrite app_nil_r_str in Hm.
    rewrite (parseTopicURL_of_match _ m id Hm); [rewrite H1; reflexivity|].
    rewrite H3. exact Hatoi.
  - intros post Hpost.
    destruct (find_slug_form base slug (strconv.Itoa id) ("/" ++ strconv.Itoa post)
                Hbase Hslug Hne Hall (isPost_Itoa post Hpost)) as (m & Hm & H1 & _ & H3).
    rewrite (parseTopicURL_of_match _ m id Hm); [rewrite H1; reflexivity|].
    rewrite H3. exact Hatoi.
Qed.

(** X2. [parseTopicURL] accepts a topic URL without a slug: for such a
    base and ID, [base/t/ID] gives the base, the ID and no error. *)
Theorem parseTopicURL_short base id :
  isBase base -> isTopicID id ->
  parseTopicURL (base ++ "/t/" ++ strconv.Itoa id) = (base, id, None).
Proof.
  intros Hbase Hid.
  destruct (Itoa_nonneg id (proj1 Hid)) as [Hne Hall].
  destruct (find_id_form base (strconv.Itoa id) Hbase Hne Hall) as (m & Hm & H1 & _ & H3).
  rewrite (parseTopicURL_of_match _ m id Hm); [rewrite H1; reflexivity|].
  rewrite H3. apply Atoi_Itoa_ok, isTopicID_int64, Hid.
Qed.

(** X3. A URL without a slug and with a post number, [base/t/ID/post],
    is accepted too, but the number returned is the post number, not the
    topic's ID: the pattern takes [t] as the optional [/t], the ID as the
    slug and the post number as the ID. *)
Theorem parseTopicURL_post_number_taken_as_id base id post :
  isBase base -> 0 <= id -> isTopicID post ->
  parseTopicURL (base ++ "/t/" ++ strconv.Itoa id ++ "/" ++ strconv.Itoa post)
    = (base, post, None).
Proof.
  intros Hbase Hid Hpost.
  destruct (Itoa_nonneg id Hid) as [Hne Hall].
  destruct (Itoa_nonneg post (proj1 Hpost)) as [Hne' Hall'].
  destruct (find_slug_form base (strconv.Itoa id) (strconv.Itoa post) EmptyString
              Hbase (conj Hne (digit_slug _ Hall)) Hne' Hall' (or_introl eq_refl))
    as (m & Hm & H1 & _ & H3).
  rewrite app_nil_r_str in Hm.
  rewrite (parseTopicURL_of_match _ m post Hm); [rewrite H1; reflexivity|].
  rewrite H3. apply Atoi_Itoa_ok, isTopicID_int64, Hpost.
Qed.

(** X5. The error [parseTopicURL] calls internal can be reached: when
    the digits of the ID make a number of 2^63 or more, the pattern
    matches, [strconv.Atoi] fails, and the function returns the empty
    base, 0 and the error "internal error: URL pattern matched with
    non-int page ID". *)
Theorem parseTopicURL_id_out_of_range base slug id :
  isBase base -> isSlug slug -> 2 ^ 63 <= id ->
  parseTopicURL (base ++ "/t/" ++ slug ++ "/" ++ strconv.Itoa id) =
    (EmptyString, 0,
     Some (Errorf "internal error: URL pattern matched with non-int page ID" [])).
Proof.
  intros Hbase Hslug Hid.
  destruct (Itoa_nonneg id ltac:(lia)) as [Hne Hall].
  destruct (find_slug_form base slug (strconv.Itoa id) EmptyString
              Hbase Hslug Hne Hall (or_introl eq_refl)) as (m & Hm & H1 & _ & H3).
  rewrite app_nil_r_str in Hm.
  unfold parseTopicURL. rewrite Hm, H3, Atoi_Itoa.
  replace (id <? - 2 ^ 63) with false by lia.
  replace (2 ^ 63 <=? id) with true by lia. reflexivity.
Qed.

(** X4. What [parseTopicURL] accepts. When it returns no error, the URL
    is the base returned, then an optional [/t], an optional slash and
    slug, a slash and decimal digits, and an optional slash and digits;
    the base is empty or a scheme [http] or [https] with a host; and the
    ID returned is the value of the digits, from 0 to 2^63-1. *)
Theorem parseTopicURL_sound topicURL base id :
  parseTopicURL topicURL = (base, id, None) ->
  isTopicID id /\
  exists ids, topicURLShape topicURL base ids /\ strconv_Atoi ids = (id, None).
Proof.
  unfold parseTopicURL. intros H.
  destruct (regexp.FindStringSubmatch topicURLPattern topicURL) as [m|] eqn:Hm;
    [|discriminate].
  destruct (strconv_Atoi (m 3%nat)) as [v [e|]] eqn:Ha; [discriminate|].
  inversion H; subst. clear H.
  pose proof (FindStringSubmatch_shape _ _ Hm) as Hshape.
  split.
  - destruct Hshape as (t & sl & post & _ & _ & _ & _ & Hne & Hall & _).
    exact (Atoi_digits _ _ Hne Hall Ha).
  - exists (m 3%nat). auto.
Qed.

Lemma TrimRight_app_slash s : strings_TrimRight (s ++ "/") "/" = strings_TrimRight s "/".
Proof.
  induction s as [|a s IH]; [reflexivity|].
  cbn [append strings_TrimRight]. rewrite IH. reflexivity.
Qed.

Lemma TrimRight_cons a s :
  strings_TrimRight (String a s) "/" =
  match strings_TrimRight s "/" with
  | EmptyString => if Ascii.eqb a "/" then EmptyString else String a EmptyString
  | r => String a r
  end.
Proof. reflexivity. Qed.

Lemma TrimRight_idem s :
  strings_TrimRight (strings_TrimRight s "/") "/" = strings_TrimRight s "/".
Proof.
  induction s as [|a s IH]; [reflexivity|].
  rewrite TrimRight_cons.
  destruct (strings_TrimRight s "/") as [|b r] eqn:E.
  - destruct (Ascii.eqb a "/") eqn:Ea; [reflexivity|].
    rewrite TrimRight_cons. cbn [strings_TrimRight]. rewrite Ea. reflexivity.
  - rewrite TrimRight_cons, IH. reflexivity.
Qed.

Lemma TrimRight_length s : (String.length (strings_TrimRight s "/") <= String.length s)%nat.
Proof.
  induction s as [|a s IH]; cbn; [lia|].
  destruct (strings_TrimRight s "/"); [destruct (Ascii.eqb a "/")|]; cbn in *; lia.
Qed.

Lemma clean_no_final_slash s : isClean (s ++ "/") -> False.
Proof.
  unfold isClean. rewrite TrimRight_app_slash. intros H.
  pose proof (TrimRight_length s) as Hl. rewrite H in Hl.
  rewrite length_app in Hl. cbn in Hl. lia.
Qed.

Lemma allOf_notSlash_app a b :
  allOf notSlash (a ++ "/" ++ b) = true -> False.
Proof.
  rewrite allOf_app. cbn. rewrite andb_false_r. discriminate.
Qed.

(** A text has one last slash. *)
Lemma last_slash_unique a : forall b a' b',
  a ++ "/" ++ b = a' ++ "/" ++ b' ->
  allOf notSlash b = true -> allOf notSlash b' = true ->
  a = a' /\ b = b'.
Proof.
  induction a as [|c a IH]; intros b a' b' E Hb Hb'.
  - destruct a' as [|c' a']; cbn in E.
    + inversion E. auto.
    + inversion E; subst. exfalso. eapply allOf_notSlash_app. exact Hb.
  - destruct a' as [|c' a']; cbn in E.
    + inversion E; subst. exfalso. eapply allOf_notSlash_app. exact Hb'.
    + inversion E; subst. destruct (IH _ _ _ H1 Hb Hb') as [-> ->]. auto.
Qed.

Lemma slug_notSlash s : allOf slugByte s = true -> allOf notSlash s = true.
Proof.
  induction s as [|c s IH]; cbn; [reflexivity|]. intros H.
  apply andb_true_iff in H. destruct H as [Hc Hs]. rewrite IH by exact Hs.
  unfold slugByte in Hc. unfold notSlash. lia.
Qed.

Lemma digit_notSlash_all s : allOf digitByte s = true -> allOf notSlash s = true.
Proof. intros H. apply slug_notSlash, digit_slug, H. Qed.

Lemma validForumURL_of_match cleanURL m :
  regexp.FindStringSubmatch topicURLPattern (cleanURL ++ "/t/123") = Some m ->
  m 3%nat = "123" -> validForumURL cleanURL.
Proof.
  intros Hm H3. unfold validForumURL, parseTopicURL. rewrite Hm, H3. reflexivity.
Qed.

Lemma isBase_valid base : isBase base -> validForumURL base.
Proof.
  intros H.
  destruct (find_id_form base "123" H) as (m & Hm & _ & _ & H3);
    [discriminate|reflexivity|].
  exact (validForumURL_of_match _ m Hm H3).
Qed.

Lemma isBase_t_valid base : isBase base -> validForumURL (base ++ "/t").
Proof.
  intros H.
  destruct (find_slug_form base "t" "123" EmptyString H) as (m & Hm & _ & _ & H3);
    [split; [discriminate|reflexivity]|discriminate|reflexivity|left; reflexivity|].
  apply (validForumURL_of_match _ m); [|exact H3].
  rewrite app_assoc_str. exact Hm.
Qed.

Lemma validForumURL_iff cleanURL :
  isClean cleanURL ->
  (validForumURL cleanURL <->
   isBase cleanURL \/ exists base, isBase base /\ cleanURL = base ++ "/t").
Proof.
  intros Hclean. split.
  - unfold validForumURL. intros H.
    unfold parseTopicURL in H.
    destruct (regexp.FindStringSubmatch topicURLPattern (cleanURL ++ "/t/123"))
      as [m|] eqn:Hm; [|discriminate H].
    clear H. apply FindStringSubmatch_shape in Hm.
    remember (m 1%nat) as base eqn:Eb. remember (m 3%nat) as ids eqn:Ei. clear Eb Ei m.
    destruct Hm as (t & sl & post & E & Hbase & Ht & Hsl & Hne & Hall & Hpost).
    change (cleanURL ++ "/t/123") with (cleanURL ++ "/" ++ "t" ++ "/" ++ "123") in E.
    destruct Hpost as [->|(pd & Hpd & Hpdall & ->)].
    + rewrite app_nil_r_str in E.
      assert (E1 : (cleanURL ++ "/" ++ "t") ++ "/" ++ "123"
                   = (base ++ t ++ sl) ++ "/" ++ ids).
      { rewrite !app_assoc_str. exact E. }
      apply last_slash_unique in E1; [|reflexivity|apply digit_notSlash_all, Hall].
      destruct E1 as [E1 _].
      destruct Hsl as [->|(slug & [Hs Hsall] & ->)].
      * rewrite app_nil_r_str in E1.
        destruct Ht as [-> | ->].
        -- rewrite app_nil_r_str in E1.
           destruct Hbase as [->|(scheme & host & Hsch & Hhost & Hhall & ->)].
           ++ destruct cleanURL; discriminate.
           ++ exfalso.
              assert (E2 : cleanURL ++ "/" ++ "t" = (scheme ++ ":/") ++ "/" ++ host).
              { rewrite E1, !app_assoc_str. reflexivity. }
              apply last_slash_unique in E2; [|reflexivity|exact Hhall].
              destruct E2 as [E2 _]. subst cleanURL.
              replace (scheme ++ ":/") with ((scheme ++ ":") ++ "/") in Hclean
                by (rewrite app_assoc_str; reflexivity).
              apply (clean_no_final_slash _ Hclean).
        -- left. 
           assert (E2 : cleanURL ++ "/" ++ "t" = base ++ "/" ++ "t") by exact E1.
           apply last_slash_unique in E2; [|reflexivity|reflexivity].
           destruct E2 as [-> _]. exact Hbase.
      * assert (E2 : cleanURL ++ "/" ++ "t" = (base ++ t) ++ "/" ++ slug).
        { rewrite E1, !app_assoc_str. reflexivity. }
        apply last_slash_unique in E2; [|reflexivity|apply slug_notSlash, Hsall].
        destruct E2 as [-> _].
        destruct Ht as [-> | ->].
        -- left. rewrite app_nil_r_str. exact Hbase.
        -- right. exists base. auto.
    + exfalso.
      assert (E1 : (cleanURL ++ "/" ++ "t") ++ "/" ++ "123"
                   = (base ++ t ++ sl ++ "/" ++ ids) ++ "/" ++ pd).
      { rewrite !app_assoc_str. exact E. }
      apply last_slash_unique in E1; [|reflexivity|apply digit_notSlash_all, Hpdall].
      destruct E1 as [E1 _].
      assert (E2 : cleanURL ++ "/" ++ "t" = (base ++ t ++ sl) ++ "/" ++ ids).
      { rewrite E1, !app_assoc_str. reflexivity. }
      apply last_slash_unique in E2; [|reflexivity|apply digit_notSlash_all, Hall].
      destruct E2 as [_ <-]. discriminate Hall.
  - intros [H|(base & H & ->)].
    + apply isBase_valid, H.
    + apply isBase_t_valid, H.
Qed.

(** X6. The check [readConfig] makes on a forum URL (the URL without
    its final slashes, followed by [/t/123], must parse as a topic URL)
    lets through exactly: the empty URL, [http://host] and
    [https://host], and each of these followed by [/t]. *)
Theorem forum_URL_check cleanURL :
  isClean cleanURL ->
  (validForumURL cleanURL <->
   isBase cleanURL \/ exists base, isBase base /\ cleanURL = base ++ "/t").
Proof.
  exact (validForumURL_iff cleanURL).
Qed.

Lemma get_delete k k' m :
  Forums.get k (Forums.delete k' m) = if String.eqb k' k then None else Forums.get k m.
Proof.
  induction m as [|[k1 v1] m IH]; cbn.
  - destruct (String.eqb k' k); reflexivity.
  - destruct (String.eqb_spec k1 k') as [->|Hne].
    + rewrite IH. destruct (String.eqb k' k); reflexivity.
    + cbn. rewrite IH. destruct (String.eqb_spec k1 k) as [->|Hne1].
      * apply String.eqb_neq in Hne. rewrite String.eqb_sym, Hne. reflexivity.
      * reflexivity.
Qed.

Lemma get_set k k' v m :
  Forums.get k (Forums.set k' v m) = if String.eqb k' k then Some v else Forums.get k m.
Proof.
  unfold Forums.set. cbn. rewrite get_delete. destruct (String.eqb k' k); reflexivity.
Qed.

Section ConfigFacts.

Variable configPath : string.

Lemma readConfig_body_ok k fconfig m m1 :
  readConfig_body configPath k fconfig m = Done (m1, None) ->
  validForumURL (strings_TrimRight k "/") /\ goodConfig fconfig /\
  m1 = if negb (String.eqb (strings_TrimRight k "/") k)
       then Forums.delete k (Forums.set (strings_TrimRight k "/") fconfig m)
       else m.
Proof.
  unfold readConfig_body, validForumURL. intros H.
  destruct (parseTopicURL (strings_TrimRight k "/" ++ "/t/123")) as [[b i] [e|]];
    [discriminate|].
  destruct fconfig as [fc|]; [|discriminate]. cbn in H.
  destruct (String.eqb_spec (Username fc) EmptyString) as [|Hu]; [discriminate|].
  destruct (String.eqb_spec (Key fc) EmptyString) as [|Hk]; [discriminate|].
  cbn in H. inversion H. repeat split. exists fc. auto.
Qed.

Lemma rangeInv_step forums0 k order seen m fconfig m1 :
  rangeInv forums0 (k :: order) seen m ->
  Forums.get k m = Some fconfig ->
  readConfig_body configPath k fconfig m = Done (m1, None) ->
  rangeInv forums0 order (k :: seen) m1.
Proof.
  intros (I1 & I2 & I3) Hget Hbody.
  apply readConfig_body_ok in Hbody. destruct Hbody as (Hvalid & Hgood & ->).
  destruct (String.eqb_spec (strings_TrimRight k "/") k) as [Hc|Hc]; cbn [negb].
  - (* the key is clean: the map stays *)
    split; [|split; assumption].
    intros k1 v1 H1. destruct (String.eqb_spec k k1) as [<-|Hne].
    + left. rewrite Hget in H1. inversion H1; subst v1.
      split; [exact Hc|]. rewrite Hc in Hvalid. auto.
    + destruct (I1 _ _ H1) as [Hg|[Hin Hns]]; [left; exact Hg|right].
      destruct Hin as [|Hin]; [contradiction|]. split; [exact Hin|].
      intros [|]; auto.
  - (* the key is replaced by the clean one *)
    assert (Hget1 : forall k1,
              Forums.get k1 (Forums.delete k (Forums.set (strings_TrimRight k "/") fconfig m))
              = if String.eqb k k1 then None
                else if String.eqb (strings_TrimRight k "/") k1 then Some fconfig
                else Forums.get k1 m).
    { intros k1. rewrite get_delete, get_set. reflexivity. }
    split; [|split].
    + intros k1 v1. rewrite Hget1.
      destruct (String.eqb_spec k k1) as [|Hne]; [discriminate|].
      destruct (String.eqb_spec (strings_TrimRight k "/") k1) as [<-|Hne1].
      * intros H1. inversion H1; subst v1. left.
        split; [apply TrimRight_idem|]. auto.
      * intros H1. destruct (I1 _ _ H1) as [Hg|[Hin Hns]]; [left; exact Hg|right].
        destruct Hin as [|Hin]; [contradiction|]. split; [exact Hin|].
        intros [|]; auto.
    + intros k1 v1. rewrite Hget1.
      destruct (String.eqb_spec k k1) as [|Hne]; [discriminate|].
      destruct (String.eqb_spec (strings_TrimRight k "/") k1) as [<-|Hne1].
      * intros H1. inversion H1; subst v1.
        destruct (I2 _ _ Hget) as (k0 & H0 & Hk0). exists k0. split; [exact H0|].
        rewrite TrimRight_idem. exact Hk0.
      * apply I2.
    + intros k0 H0. rewrite !Hget1.
      destruct (String.eqb_spec k k0) as [<-|Hne].
      * right. destruct (String.eqb_spec k (strings_TrimRight k "/")) as [E|_]; [congruence|].
        rewrite String.eqb_refl. discriminate.
      * destruct (String.eqb_spec (strings_TrimRight k "/") k0) as [E|Hne1];
          [left; discriminate|].
        destruct (I3 _ H0) as [Hp|Hp]; [left; exact Hp|right].
        destruct (String.eqb_spec k (strings_TrimRight k0 "/")) as [E|_].
        -- exfalso. apply Hc. rewrite E. apply TrimRight_idem.
        -- destruct (String.eqb (strings_TrimRight k "/") (strings_TrimRight k0 "/"));
             [discriminate|exact Hp].
Qed.

Lemma existsb_eqb_In k seen : existsb (String.eqb k) seen = true <-> In k seen.
Proof.
  rewrite existsb_exists. split.
  - intros (x & Hin & E). apply String.eqb_eq in E. subst. exact Hin.
  - intros H. exists k. split; [exact H|apply String.eqb_refl].
Qed.

Lemma rangeInv_skip forums0 k order seen m :
  rangeInv forums0 (k :: order) seen m ->
  In k seen \/ Forums.get k m = None ->
  rangeInv forums0 order seen m.
Proof.
  intros (I1 & I2 & I3) Hskip. split; [|split; assumption].
  intros k1 v1 H1. destruct (I1 _ _ H1) as [Hg|[Hin Hns]]; [left; exact Hg|right].
  split; [|exact Hns]. destruct Hin as [<-|Hin]; [|exact Hin].
  destruct Hskip as [Hs|Hn]; [contradiction|congruence].
Qed.

Lemma readConfig_range_inv forums0 order : forall seen m m',
  rangeInv forums0 order seen m ->
  readConfig_range configPath order seen m = Done (m', None) ->
  exists seen', rangeInv forums0 [] seen' m'.
Proof.
  induction order as [|k order IH]; intros seen m m' Hinv H; cbn in H.
  - inversion H; subst. exists seen. exact Hinv.
  - destruct (existsb (String.eqb k) seen) eqn:Hseen.
    + apply existsb_eqb_In in Hseen.
      eapply IH; [|exact H]. eapply rangeInv_skip; eauto.
    + destruct (Forums.get k m) as [fconfig|] eqn:Hget.
      * destruct (readConfig_body configPath k fconfig m) as [[m1 [e|]]|] eqn:Hbody;
          try discriminate.
        eapply IH; [|exact H]. eapply rangeInv_step; eauto.
      * eapply IH; [|exact H]. eapply rangeInv_skip; eauto.
Qed.

Lemma rangeInv_start forums0 order :
  (forall k, Forums.get k forums0 <> None -> In k order) ->
  rangeInv forums0 order [] forums0.
Proof.
  intros Hcover. split; [|split].
  - intros k v H. right. split; [|intros []]. apply Hcover. congruence.
  - intros k v H. exists k. auto.
  - intros k0 H. left. exact H.
Qed.

End ConfigFacts.

Section ReadConfigFacts.

Variable slib : StartLib.

Variable env : Env.

Variable configPath : string.

Variable rangeOrder : Forums.t -> list string.

Lemma readConfig_ok w forums w' :
  readConfig slib env configPath rangeOrder w = (Done (Some forums, None), w') ->
  let forums0 := configuredForums slib env configPath w in
  readConfig_range configPath (rangeOrder forums0) [] forums0 = Done (forums, None) /\
  forums0 <> [] /\
  w' = record (CallReadFile configPath) w.
Proof.
  unfold readConfig, configuredForums. unfold_m. intros H.
  destruct (os_ReadFile env (calls w) configPath) as [data [e|]]; cbn in *.
  - destruct (os_IsNotExist slib e); discriminate.
  - destruct (yaml_Unmarshal slib data) as [forums0 [e|]]; cbn in *; [discriminate|].
    destruct forums0 as [|b forums0]; [discriminate|]. cbn in H.
    destruct (readConfig_range configPath (rangeOrder (b :: forums0)) [] (b :: forums0))
      as [[m [e|]]|]; cbn in H; try discriminate.
    inversion H; subst. repeat split. discriminate.
Qed.

(** X7. When [readConfig] returns a configuration, and the [range]
    has produced every key the map held, every entry of the map returned
    has settings that are not nil with a user name and a key that are not
    empty, and its URL has no final slash and is of a form the check
    lets through. *)
Theorem readConfig_entries_checked w forums w' :
  coversKeys rangeOrder ->
  readConfig slib env configPath rangeOrder w = (Done (Some forums, None), w') ->
  forall k v, Forums.get k forums = Some v ->
    (exists fc, v = Some fc /\ Username fc <> EmptyString /\ Key fc <> EmptyString) /\
    strings_TrimRight k "/" = k /\
    (isBase k \/ exists base, isBase base /\ k = base ++ "/t").
Proof.
  intros Hcover H k v Hget. apply readConfig_ok in H. destruct H as (Hrange & _ & _).
  eapply readConfig_range_inv in Hrange; [|apply rangeInv_start, Hcover].
  destruct Hrange as (seen' & I1 & _ & _).
  destruct (I1 _ _ Hget) as [(Hclean & Hvalid & Hgood)|[[] _]].
  split; [exact Hgood|]. split; [exact Hclean|].
  apply validForumURL_iff; assumption.
Qed.

(** X8. [readConfig] files a forum under its URL without final
    slashes. When it returns a configuration, an entry of the
    configuration file whose URL, cleaned of its final slashes, is that
    of no other entry is found in the map returned under the cleaned URL,
    with the settings the file gave it, which are not nil. *)
Theorem readConfig_drops_final_slashes w forums w' k0 v0 :
  coversKeys rangeOrder ->
  readConfig slib env configPath rangeOrder w = (Done (Some forums, None), w') ->
  let forums0 := configuredForums slib env configPath w in
  Forums.get k0 forums0 = Some v0 ->
  (forall k1, Forums.get k1 forums0 <> None ->
     strings_TrimRight k1 "/" = strings_TrimRight k0 "/" -> k1 = k0) ->
  Forums.index forums (strings_TrimRight k0 "/") = v0 /\ v0 <> None.
Proof.
  intros Hcover H forums0 Hget0 Hunique.
  apply readConfig_ok in H. destruct H as (Hrange & _ & _). fold forums0 in Hrange.
  eapply readConfig_range_inv in Hrange; [|apply rangeInv_start, Hcover].
  destruct Hrange as (seen' & I1 & I2 & I3).
  assert (Hpresent : Forums.get (strings_TrimRight k0 "/") forums <> None).
  { destruct (I3 k0) as [Hp|Hp]; [congruence| |exact Hp].
    destruct (Forums.get k0 forums) as [v|] eqn:Hg; [|contradiction].
    destruct (I1 _ _ Hg) as [(Hclean & _)|[[] _]].
    unfold isClean in Hclean. rewrite Hclean, Hg. discriminate. }
  destruct (Forums.get (strings_TrimRight k0 "/") forums) as [v|] eqn:Hg; [|contradiction].
  destruct (I2 _ _ Hg) as (k1 & H1 & Hk1).
  rewrite TrimRight_idem in Hk1.
  assert (k1 = k0) by (apply Hunique; [congruence|exact Hk1]). subst k1.
  assert (v = v0) by congruence. subst v.
  unfold Forums.index. rewrite Hg. split; [reflexivity|].
  destruct (I1 _ _ Hg) as [(_ & _ & fc & -> & _)|[[] _]]. discriminate.
Qed.

Lemma readConfig_cases w :
  exists r,
    readConfig slib env configPath rangeOrder w = (r, record (CallReadFile configPath) w) /\
    (r = Panic \/
     (exists forums, r = Done (Some forums, None)) \/
     (exists e, r = Done (None, Some e))) /\
  (forall data e, os_ReadFile env (calls w) configPath = (data, Some e) ->
     os_IsNotExist slib e = true -> r = Done (None, Some (configErr configPath))) /\
  (forall data, os_ReadFile env (calls w) configPath = (data, None) ->
     yaml_Unmarshal slib data = ([], None) -> r = Done (None, Some (configErr configPath))).
Proof.
  unfold readConfig. unfold_m.
  destruct (os_ReadFile env (calls w) configPath) as [data [e|]] eqn:Hread; cbn.
  - destruct (os_IsNotExist slib e) eqn:Hne; eexists; (split; [reflexivity|]);
      (split; [right; right; eauto|]); split; intros; congruence.
  - destruct (yaml_Unmarshal slib data) as [forums0 [e|]] eqn:Hy; cbn.
    + eexists; split; [reflexivity|]. split; [right; right; eauto|].
      split; intros; congruence.
    + destruct forums0 as [|b forums0]; cbn.
      * eexists; split; [reflexivity|]. split; [right; right; eauto|].
        split; intros; congruence.
      * destruct (readConfig_range configPath (rangeOrder (b :: forums0)) [] (b :: forums0))
          as [[m [e|]]|]; cbn; eexists; (split; [reflexivity|]);
          (split; [eauto|]); split; intros ? ?; try intros ?; try congruence.
        all: intros Hx; inversion Hx; subst; rewrite Hy in *; discriminate.
Qed.

(** X9. [readConfig] reads the configuration file once and calls
    nothing else; it panics, returns a configuration and no error, or
    returns nil and an error. A file that does not exist, and a file with
    no forums, give the error that explains the format of the file. *)
Theorem readConfig_result w :
  exists r,
    readConfig slib env configPath rangeOrder w = (r, record (CallReadFile configPath) w) /\
    (r = Panic \/
     (exists forums, r = Done (Some forums, None)) \/
     (exists e, r = Done (None, Some e))) /\
  (forall data e, os_ReadFile env (calls w) configPath = (data, Some e) ->
     os_IsNotExist slib e = true -> r = Done (None, Some (configErr configPath))) /\
  (forall data, os_ReadFile env (calls w) configPath = (data, None) ->
     yaml_Unmarshal slib data = ([], None) -> r = Done (None, Some (configErr configPath))).
Proof.
  exact (readConfig_cases w).
Qed.

End ReadConfigFacts.

Lemma app_slash_neq k : String.eqb k (k ++ "/") = false.
Proof.
  apply String.eqb_neq. intros E.
  apply (f_equal String.length) in E. rewrite length_app in E. cbn in E. lia.
Qed.

Lemma readConfig_body_clean configPath k fc m :
  isClean k -> validForumURL k ->
  Username fc <> EmptyString -> Key fc <> EmptyString ->
  readConfig_body configPath k (Some fc) m = Done (m, None).
Proof.
  unfold isClean, validForumURL, readConfig_body. intros Hc Hv Hu Hk.
  rewrite Hc. destruct (parseTopicURL (k ++ "/t/123")) as [[b i] e]. cbn in Hv. subst e.
  rewrite String.eqb_refl. cbn.
  apply String.eqb_neq in Hu, Hk. rewrite Hu, Hk. reflexivity.
Qed.

Lemma readConfig_body_slash configPath k fc m :
  isClean k -> validForumURL k ->
  Username fc <> EmptyString -> Key fc <> EmptyString ->
  readConfig_body configPath (k ++ "/") (Some fc) m =
  Done (Forums.delete (k ++ "/") (Forums.set k (Some fc) m), None).
Proof.
  unfold isClean, validForumURL, readConfig_body. intros Hc Hv Hu Hk.
  rewrite TrimRight_app_slash, Hc.
  destruct (parseTopicURL (k ++ "/t/123")) as [[b i] e]. cbn in Hv. subst e.
  rewrite app_slash_neq. cbn.
  apply String.eqb_neq in Hu, Hk. rewrite Hu, Hk. reflexivity.
Qed.

Lemma readConfig_body_nil configPath k m :
  validForumURL (strings_TrimRight k "/") ->
  readConfig_body configPath k None m = Panic.
Proof.
  unfold validForumURL, readConfig_body. intros Hv.
  destruct (parseTopicURL (strings_TrimRight k "/" ++ "/t/123")) as [[b i] e].
  cbn in Hv. subst e. reflexivity.
Qed.

(** X10. The result of [readConfig] can depend on the order in which
    [range] produces the keys of the map. With a file that has a forum
    URL once without settings and once, with a final slash, with valid
    settings: when the entry with the slash comes first it replaces the
    other and [readConfig] returns the one forum; when it comes last, the
    entry without settings is reached and the nil pointer is
    dereferenced. *)
Theorem readConfig_depends_on_range_order
    (slib : StartLib) (env : Env) (configPath : string) (w : World) k fc data :
  isClean k -> validForumURL k ->
  Username fc <> EmptyString -> Key fc <> EmptyString ->
  os_ReadFile env (calls w) configPath = (data, None) ->
  yaml_Unmarshal slib data = ([(k, None); (k ++ "/", Some fc)], None) ->
  let slashFirst := fun _ : Forums.t => [k ++ "/"; k] in
  let slashLast := fun _ : Forums.t => [k; k ++ "/"] in
  (forall x, Forums.get x [(k, None); (k ++ "/", Some fc)] <> None ->
     In x [k ++ "/"; k] /\ In x [k; k ++ "/"]) /\
  fst (readConfig slib env configPath slashFirst w) = Done (Some [(k, Some fc)], None) /\
  fst (readConfig slib env configPath slashLast w) = Panic.
Proof.
  intros Hc Hv Hu Hk Hread Hyaml slashFirst slashLast.
  pose proof (app_slash_neq k) as Hne.
  assert (Hne' : String.eqb (k ++ "/") k = false) by (rewrite String.eqb_sym; exact Hne).
  split; [|split].
  - intros x. cbn.
    destruct (String.eqb_spec k x) as [<-|_]; [intros _; cbn; auto|].
    destruct (String.eqb_spec (k ++ "/") x) as [<-|_]; [intros _; cbn; auto|].
    intros H; contradiction.
  - unfold readConfig. unfold_m. rewrite Hread. cbn. rewrite Hyaml. cbn.
    rewrite Hne, String.eqb_refl.
    rewrite readConfig_body_slash by assumption.
    cbn. repeat (rewrite ?String.eqb_refl, ?Hne, ?Hne'; cbn).
    rewrite readConfig_body_clean by assumption. reflexivity.
  - unfold readConfig. unfold_m. rewrite Hread. cbn. rewrite Hyaml. cbn.
    rewrite String.eqb_refl.
    rewrite readConfig_body_nil; [reflexivity|]. rewrite Hc. exact Hv.
Qed.

Section RemoteFacts.

Variable lib : Lib.

Variable env : Env.

Variable flags : Flags.

Variable f : Forum.

(** Every way [do] can end: what it returns follows from the answer to
    its one request, and the state changes by that request and by debug
    lines only. *)
Lemma do_cases {R} verb path body (zero : R) unmarshal w :
  let req := requestOf f verb path body in
  exists r w',
    do lib env flags f verb path body zero unmarshal w = (Done r, w') /\
    topic w' = topic w /\ quietMode w' = quietMode w /\
    (debug flags = false -> logged w' = logged w) /\
    ((calls w' = calls w /\ exists e, r = (zero, Some e) /\ isNotFound e = false) \/
     (calls w' = (calls w ++ [CallHTTP req])%list /\
      match http_Do env (calls w) req with
      | TransportFails e =>
          r = (zero, Some (Errorf "cannot perform request on %s: %v" [ArgStr path; ArgErr e]))
      | ReadBodyFails status e =>
          r = (zero, Some (Errorf "cannot read response (status %d): %v"
                                  [ArgInt status; ArgErr e]))
      | Response status data =>
          if status =? 200 then
            r = (fst (unmarshal data),
                 match snd (unmarshal data) with
                 | Some e => Some (Errorf "cannot decode response from %s: %v"
                                          [ArgStr path; ArgErr e])
                 | None => None
                 end)
          else if (status =? 401) || (status =? 404) then
            r = (zero, Some (NotFoundError ("resource not found: " ++ path)))
          else if status =? 409 then r = (zero, Some conflictError)
          else r = (zero, Some (Errorf "cannot perform request: %s"
                                       [ArgStr (serverMessage lib status data)]))
      end)).
Proof.
  intros req. subst req. unfold requestOf, do, marshalled.
  assert (Hbody : exists rbody,
            match body with
            | Some b =>
                let '(data, err) := json_Marshal_body b in
                match err with
                | Some e => inl e
                | None => inr (Some data)
                end
            | None => inr None
            end = inr rbody /\
            match body with
            | Some b => Some (fst (json_Marshal_body b))
            | None => None
            end = rbody).
  { destruct body as [b|]; [|eauto].
    pose proof (json_Marshal_body_ok b) as Hm.
    destruct (json_Marshal_body b) as [d e]. cbn [fst] in *. inversion Hm; subst e. eauto. }
  destruct Hbody as (rbody & -> & ->).
  unfold bind, ret, httpClient_Do.
  assert (Hdbg : forall fmt fmt' args args' (w0 : World),
            exists w1,
              (match rbody with
               | Some data => debugf flags fmt (args data)
               | None => debugf flags fmt' args'
               end) w0 = (Done tt, w1) /\
              topic w1 = topic w0 /\ quietMode w1 = quietMode w0 /\ calls w1 = calls w0 /\
              (debug flags = false -> logged w1 = logged w0)).
  { intros. unfold debugf.
    destruct rbody, (debug flags); eexists; (split; [reflexivity|]); cbn; auto;
      repeat split; auto; discriminate. }
  destruct (Hdbg "%s on %s with %s" "%s on %s"
              (fun data => [ArgStr verb; ArgStr path; ArgStr data])
              [ArgStr verb; ArgStr path] w) as (w1 & -> & Ht1 & Hq1 & Hc1 & Hl1).
  clear Hdbg.
  destruct (http_NewRequest lib verb (baseURL f ++ path)) as [e|].
  { do 2 eexists. split; [reflexivity|]. cbn [fst snd].
    split; [exact Ht1|]. split; [exact Hq1|]. split; [exact Hl1|].
    left. split; [exact Hc1|]. eexists. split; reflexivity. }
  rewrite Hc1.
  assert (Hframe : forall (w2 : World),
            topic w2 = topic (record (CallHTTP
              (mkRequest verb (baseURL f ++ path) (Username (config f)) (Key (config f)) rbody)) w1) ->
            quietMode w2 = quietMode w1 -> calls w2 = (calls w ++ [CallHTTP
              (mkRequest verb (baseURL f ++ path) (Username (config f)) (Key (config f)) rbody)])%list ->
            (debug flags = false -> logged w2 = logged w1) ->
            topic w2 = topic w /\ quietMode w2 = quietMode w /\
            (debug flags = false -> logged w2 = logged w) /\
            calls w2 = (calls w ++ [CallHTTP
              (mkRequest verb (baseURL f ++ path) (Username (config f)) (Key (config f)) rbody)])%list).
  { intros w2 Ht Hq Hc Hl. cbn in Ht. repeat split; try congruence.
    intros Hd. rewrite Hl, Hl1; auto. }
  destruct (http_Do env (calls w) _) as [e|status e|status data] eqn:Hhttp.
  - do 2 eexists. split; [reflexivity|].
    destruct (Hframe (record (CallHTTP _) w1) eq_refl eq_refl) as (A & B & C & D).
    { cbn. rewrite Hc1. reflexivity. } { reflexivity. }
    split; [exact A|]. split; [exact B|]. split; [exact C|].
    right. split; [exact D|reflexivity].
  - do 2 eexists. split; [reflexivity|].
    destruct (Hframe (record (CallHTTP _) w1) eq_refl eq_refl) as (A & B & C & D).
    { cbn. rewrite Hc1. reflexivity. } { reflexivity. }
    split; [exact A|]. split; [exact B|]. split; [exact C|].
    right. split; [exact D|reflexivity].
  - unfold debugf.
    set (w2 := record (CallHTTP _) w1).
    set (w3 := if debug flags
               then mkWorld (topic w2) (quietMode w2) (calls w2)
                      (logged w2 ++ [mkLogLine ("[DEBUG] " ++ "Got response %d with %s")
                                               [ArgInt status; ArgStr data]])
               else w2).
    assert (Hw3 : (if debug flags
                   then (Done tt, mkWorld (topic w2) (quietMode w2) (calls w2)
                      (logged w2 ++ [mkLogLine ("[DEBUG] " ++ "Got response %d with %s")
                                               [ArgInt status; ArgStr data]]))
                   else (Done tt, w2)) = (Done tt, w3)).
    { subst w3. destruct (debug flags); reflexivity. }
    rewrite Hw3.
    destruct (Hframe w3) as (A & B & C & D).
    { subst w3. destruct (debug flags); reflexivity. }
    { subst w3 w2. destruct (debug flags); reflexivity. }
    { subst w3 w2. destruct (debug flags); cbn; rewrite Hc1; reflexivity. }
    { intros Hd. subst w3 w2. rewrite Hd. reflexivity. }
    destruct (status =? 200) eqn:H200.
    + destruct (unmarshal data) as [x [e|]]; do 2 eexists; (split; [reflexivity|]);
        (split; [exact A|]); (split; [exact B|]); (split; [exact C|]);
        right; (split; [exact D|reflexivity]).
    + destruct ((status =? 401) || (status =? 404)) eqn:H404.
      * do 2 eexists; (split; [reflexivity|]);
        (split; [exact A|]); (split; [exact B|]); (split; [exact C|]);
        right; (split; [exact D|reflexivity]).
      * destruct (status =? 409) eqn:H409.
        -- do 2 eexists; (split; [reflexivity|]);
           (split; [exact A|]); (split; [exact B|]); (split; [exact C|]);
           right; (split; [exact D|reflexivity]).
        -- unfold serverMessage.
           destruct (Unmarshal_errorsResult lib data) as [[|msg errs] [e|]];
           do 2 eexists; (split; [reflexivity|]);
           (split; [exact A|]); (split; [exact B|]); (split; [exact C|]);
           right; (split; [exact D|reflexivity]).
Qed.

End RemoteFacts.

Section LoadFacts.

Variable lib : Lib.

Variable slib : StartLib.

Variable env : Env.

Variable flags : Flags.

Variable f : Forum.

Local Arguments do : simpl never.

Lemma logf_frame format args w :
  exists w', logf format args w = (Done tt, w') /\
    topic w' = topic w /\ quietMode w' = quietMode w /\ calls w' = calls w /\
    (quietMode w = true -> logged w' = logged w).
Proof.
  unfold logf. destruct (quietMode w) eqn:Hq; eexists; (split; [reflexivity|]); cbn;
    repeat split; auto; discriminate.
Qed.

(** X12. When [do] returns an error, that error is a [NotFoundError]
    exactly when the request was sent and the server answered with status
    401 or 404; it then names the path of the request, and nothing was
    decoded into the result. *)
Theorem do_NotFound_iff {R} verb path body (zero : R) unmarshal w r e w' :
  do lib env flags f verb path body zero unmarshal w = (Done (r, Some e), w') ->
  let req := requestOf f verb path body in
  (isNotFound e = true <->
   calls w' = (calls w ++ [CallHTTP req])%list /\
   exists status data,
     http_Do env (calls w) req = Response status data /\ (status = 401 \/ status = 404)) /\
  (isNotFound e = true -> e = NotFoundError ("resource not found: " ++ path) /\ r = zero).
Proof.
  intros H req.
  destruct (do_cases lib env flags f verb path body zero unmarshal w)
    as (r0 & w0 & Hdo & _ & _ & _ & Hcases).
  rewrite Hdo in H. inversion H; subst r0 w0. clear H. fold req in Hcases.
  destruct Hcases as [(Hc & e0 & E & Hnf)|(Hc & Hresp)].
  - inversion E; subst. rewrite Hnf. split; [|discriminate].
    split; [discriminate|]. intros (Hc' & _). rewrite Hc in Hc'.
    apply (f_equal (@List.length Call)) in Hc'. rewrite List.length_app in Hc'. cbn in Hc'. lia.
  - destruct (http_Do env (calls w) req) as [e0|status e0|status data].
    + inversion Hresp; subst. cbn. split; [|discriminate].
      split; [discriminate|]. intros (_ & s & d & Hx & _). discriminate.
    + inversion Hresp; subst. cbn. split; [|discriminate].
      split; [discriminate|]. intros (_ & s & d & Hx & _). discriminate.
    + destruct (status =? 200) eqn:H200.
      { inversion Hresp. destruct (snd (unmarshal data)); inversion H1; subst. cbn.
        split; [|discriminate].
        split; [discriminate|]. intros (_ & s & d & Hx & Hs). inversion Hx; subst. lia. }
      destruct ((status =? 401) || (status =? 404)) eqn:H404.
      { inversion Hresp; subst. cbn. split; [|auto].
        split; [|reflexivity]. intros _. split; [exact Hc|].
        exists status, data. split; [reflexivity|lia]. }
      destruct (status =? 409) eqn:H409.
      { inversion Hresp; subst. cbn. split; [|discriminate].
        split; [discriminate|]. intros (_ & s & d & Hx & Hs). inversion Hx; subst. lia. }
      inversion Hresp; subst. cbn. split; [|discriminate].
      split; [discriminate|]. intros (_ & s & d & Hx & Hs). inversion Hx; subst. lia.
Qed.

(** X11. [LoadTopic] never panics and leaves the current topic alone;
    it sends at most one request, the GET of the topic with its raw text.
    It returns a topic or an error, never both and never neither. The
    topic returned is the one decoded from an answer of status 200, with
    the first post of the stream as its post; an answer of status 200
    that decodes to no topic, or to no posts, gives the error "topic has
    no posts". *)
Theorem LoadTopic_result topicID w :
  let req := getTopicRequest f topicID in
  exists loaded err w',
    LoadTopic lib slib env flags f topicID w = (Done (loaded, err), w') /\
    topic w' = topic w /\
    (calls w' = calls w \/ calls w' = (calls w ++ [CallHTTP req])%list) /\
    (loaded = None <-> err <> None) /\
    (forall t, loaded = Some t ->
       exists data t0 post0 rest,
         http_Do env (calls w) req = Response 200 data /\
         Unmarshal_loadTopicResult slib data = ((Some t0, post0 :: rest), None) /\
         t = Topic.set_Post post0 t0) /\
    (forall data posts,
       calls w' <> calls w ->
       http_Do env (calls w) req = Response 200 data ->
       (Unmarshal_loadTopicResult slib data = ((None, posts), None) \/
        exists x, Unmarshal_loadTopicResult slib data = ((x, []), None)) ->
       err = Some (Errorf "internal error: topic %d has no posts!?" [ArgInt topicID])).
Proof.
  intros req. unfold LoadTopic. unfold bind at 1.
  destruct (logf_frame "Loading topic %d..." [ArgInt topicID] w)
    as (w1 & -> & Ht1 & Hq1 & Hc1 & _).
  unfold bind at 1.
  destruct (do_cases lib env flags f "GET"
              ("/t/" ++ strconv.Itoa topicID ++ ".json?include_raw=true") None
              (@None Topic.t, @nil (option Post.t)) (Unmarshal_loadTopicResult slib) w1)
    as (r & w2 & -> & Ht2 & _ & _ & Hcases).
  fold (getTopicRequest f topicID) in Hcases. fold req in Hcases.
  rewrite Hc1 in Hcases.
  destruct r as [[t0 posts] err]. unfold ret.
  destruct Hcases as [(Hc & e0 & E & _)|(Hc & Hresp)].
  - inversion E; subst. do 3 eexists. split; [reflexivity|].
    split; [congruence|]. split; [left; exact Hc|].
    split; [split; [discriminate|reflexivity]|]. split; [discriminate|].
    intros data t0 Hne. contradiction.
  - destruct (http_Do env (calls w) req) as [e0|status e0|status data] eqn:Hhttp.
    + inversion Hresp; subst. do 3 eexists. split; [reflexivity|].
      split; [congruence|]. split; [right; exact Hc|].
      split; [split; [discriminate|reflexivity]|]. split; [discriminate|].
      intros; discriminate.
    + inversion Hresp; subst. do 3 eexists. split; [reflexivity|].
      split; [congruence|]. split; [right; exact Hc|].
      split; [split; [discriminate|reflexivity]|]. split; [discriminate|].
      intros; discriminate.
    + destruct (status =? 200) eqn:H200.
      * apply Z.eqb_eq in H200. subst status.
        destruct (Unmarshal_loadTopicResult slib data) as [[x ps] ue] eqn:Hun.
        cbn [fst snd] in Hresp. inversion Hresp; subst. clear Hresp.
        destruct ue as [e|].
        { do 3 eexists. split; [reflexivity|].
          split; [congruence|]. split; [right; exact Hc|].
          split; [split; [discriminate|reflexivity]|]. split; [discriminate|].
          intros d t1 _ Hd [Hx|[y Hx]]; inversion Hd; subst; rewrite Hun in Hx; discriminate. }
        destruct x as [t1|]; [destruct ps as [|post0 rest]|].
        -- do 3 eexists. split; [reflexivity|].
           split; [congruence|]. split; [right; exact Hc|].
           split; [split; [discriminate|reflexivity]|]. split; [discriminate|].
           intros; reflexivity.
        -- do 3 eexists. split; [reflexivity|].
           split; [congruence|]. split; [right; exact Hc|].
           split; [split; [discriminate|intros Hx; contradiction]|].
           split.
           ++ intros t Ht. inversion Ht; subst. exists data, t1, post0, rest. auto.
           ++ intros d t2 _ Hd [Hx|[y Hx]]; inversion Hd; subst; rewrite Hun in Hx;
                discriminate.
        -- do 3 eexists. split; [reflexivity|].
           split; [congruence|]. split; [right; exact Hc|].
           split; [split; [discriminate|reflexivity]|]. split; [discriminate|].
           intros; reflexivity.
      * assert (E : exists e, (t0, posts, err) = (@None Topic.t, @nil (option Post.t), Some e)).
        { destruct ((status =? 401) || (status =? 404)); [eauto|].
          destruct (status =? 409); eauto. }
        destruct E as (e & E). inversion E; subst.
        do 3 eexists. split; [reflexivity|].
        split; [congruence|]. split; [right; exact Hc|].
        split; [split; [discriminate|reflexivity]|]. split; [discriminate|].
        intros d t1 _ Hd. inversion Hd; subst. discriminate.
Qed.

End LoadFacts.

Section DraftLoadFacts.

Variable lib : Lib.

Variable env : Env.

Variable flags : Flags.

Variable f : Forum.

Local Arguments do : simpl never.

(** [LoadDraft] returns after at most one request; the topic it leaves
    has the identity of the one it found. *)
Lemma LoadDraft_frame w :
  exists err w',
    LoadDraft lib env flags f w = (Done err, w') /\
    Topic.ID (topic w') = Topic.ID (topic w) /\
    Topic.Post (topic w') = Topic.Post (topic w) /\
    (err <> None -> topic w' = topic w) /\
    (calls w' = calls w \/
     calls w' = (calls w ++ [CallHTTP (getDraftRequest f (Topic.ID (topic w)))])%list).
Proof.
  unfold LoadDraft. unfold bind at 1. unfold getTopic at 1. unfold bind at 1.
  destruct (logf_frame "Loading draft for topic %d..." [ArgInt (Topic.ID (topic w))] w)
    as (w1 & -> & Ht1 & Hq1 & Hc1 & _).
  unfold bind at 1.
  destruct (do_cases lib env flags f "GET"
              ("/draft.json?draft_key=" ++ "topic_" ++ strconv.Itoa (Topic.ID (topic w)))
              None (@None DraftData.t, 0) (Unmarshal_loadDraftResult lib) w1)
    as (r & w2 & -> & Ht2 & _ & _ & Hcases).
  fold (getDraftRequest f (Topic.ID (topic w))) in Hcases. rewrite Hc1 in Hcases.
  assert (Hcalls : calls w2 = calls w \/
            calls w2 = (calls w ++ [CallHTTP (getDraftRequest f (Topic.ID (topic w)))])%list).
  { destruct Hcases as [(Hc & _)|(Hc & _)]; [left|right]; congruence. }
  clear Hcases. destruct r as [[data sequence] [e|]]; unfold_m.
  - do 2 eexists. split; [reflexivity|]. rewrite Ht2, Ht1. auto.
  - destruct data as [dd|]; do 2 eexists; (split; [reflexivity|]); cbn;
      rewrite ?Ht2, ?Ht1; repeat split; auto; intros H; contradiction.
Qed.

Lemma CheckDraft_error_not_NotFound t e :
  Topic.CheckDraft t = Done (Some e) -> isNotFound e = false.
Proof.
  unfold Topic.CheckDraft. intros H.
  destruct (Topic.Draft t) as [d|]; [|discriminate].
  destruct (Draft.OriginalText d) as [dtext|]; [|discriminate]. cbn in H.
  destruct (deref (Topic.Post t)); [|discriminate]. cbn in H.
  destruct (negb _); inversion H. reflexivity.
Qed.

(** Every way [checkLoaded] can end. *)
Lemma checkLoaded_cases w :
  exists r w',
    checkLoaded flags w = (r, w') /\
    topic w' = topic w /\ calls w' = calls w /\ quietMode w' = quietMode w /\
    match Topic.CheckDraft (topic w) with
    | Done (Some e) => r = Done (if forceDraft flags then None else Some e)
    | Done None => r = Done None
    | Panic => r = Panic
    end.
Proof.
  unfold checkLoaded. unfold bind at 1. unfold topicCheckDraft at 1.
  destruct (Topic.CheckDraft (topic w)) as [[e|]|].
  - destruct (forceDraft flags).
    + unfold bind.
      destruct (logf_frame "Previous draft has problems: %s" [ArgErr e] w)
        as (w1 & -> & Ht1 & Hq1 & Hc1 & _).
      destruct (logf_frame "Using draft anyway due to -force-draft" [] w1)
        as (w2 & -> & Ht2 & Hq2 & Hc2 & _).
      unfold ret. do 2 eexists. split; [reflexivity|]. repeat split; congruence.
    + unfold ret. do 2 eexists. split; [reflexivity|]. auto.
  - unfold ret. do 2 eexists. split; [reflexivity|]. auto.
  - do 2 eexists. split; [reflexivity|]. auto.
Qed.

(** Every way [loadAndCheck] can end. *)
Lemma loadAndCheck_cases w :
  exists r w',
    loadAndCheck lib env flags f w = (r, w') /\
    Topic.Post (topic w') = Topic.Post (topic w) /\
    Topic.ID (topic w') = Topic.ID (topic w) /\
    (calls w' = calls w \/
     (ignoreDraft flags = false /\
      calls w' = (calls w ++ [CallHTTP (getDraftRequest f (Topic.ID (topic w)))])%list)) /\
    (ignoreDraft flags = true -> r = Done None /\ w' = w) /\
    (r = Done None ->
     ignoreDraft flags = true \/ forceDraft flags = true \/
     Topic.CheckDraft (topic w') = Done None) /\
    (forall e, r = Done (Some e) -> isNotFound e = false).
Proof.
  unfold loadAndCheck. destruct (ignoreDraft flags) eqn:Hignore.
  - unfold ret. do 2 eexists. split; [reflexivity|].
    repeat split; auto; discriminate.
  - unfold bind at 1.
    destruct (LoadDraft_frame w) as (err & w1 & -> & Hid & Hpost & Hkeep & Hcalls).
    destruct (checkLoaded_cases w1) as (r & w2 & Hcl & Ht2 & Hc2 & _ & Hr).
    assert (Hchecked :
      exists r0 w',
        checkLoaded flags w1 = (r0, w') /\
        Topic.Post (topic w') = Topic.Post (topic w) /\
        Topic.ID (topic w') = Topic.ID (topic w) /\
        (calls w' = calls w \/
         (false = false /\
          calls w' = (calls w ++ [CallHTTP (getDraftRequest f (Topic.ID (topic w)))])%list)) /\
        (false = true -> r0 = Done None /\ w' = w) /\
        (r0 = Done None ->
         false = true \/ forceDraft flags = true \/
         Topic.CheckDraft (topic w') = Done None) /\
        (forall e, r0 = Done (Some e) -> isNotFound e = false)).
    { exists r, w2. split; [exact Hcl|]. rewrite Ht2, Hc2.
      split; [exact Hpost|]. split; [exact Hid|].
      split; [destruct Hcalls; auto|]. split; [discriminate|].
      destruct (Topic.CheckDraft (topic w1)) as [[e|]|] eqn:Hcheck; subst r.
      - destruct (forceDraft flags); split; auto; try discriminate.
        intros e0 E. inversion E; subst.
        eapply CheckDraft_error_not_NotFound; eauto.
      - split; [auto|discriminate].
      - split; discriminate. }
    destruct err as [e|]; [|exact Hchecked].
    destruct (isNotFound e) eqn:Hnf; cbn [negb]; [exact Hchecked|].
    unfold ret. do 2 eexists. split; [reflexivity|].
    split; [exact Hpost|]. split; [exact Hid|].
    split; [destruct Hcalls; auto|]. split; [discriminate|]. split; [discriminate|].
    intros e0 E. inversion E; subst. exact Hnf.
Qed.

(** X13. The draft step of [run], when it ends without a panic. With
    [-ignore-draft] nothing is done.
    Otherwise at most one request is sent, the GET of the draft of the
    topic; the step ends without error only if the draft check passes or
    [-force-draft] is given; and the error it returns, if any, is never a
    [NotFoundError]: a draft that is not there is not an error. *)
Theorem loadAndCheck_result w r w' :
  loadAndCheck lib env flags f w = (Done r, w') ->
  (ignoreDraft flags = true -> r = None /\ w' = w) /\
  (r = None ->
   ignoreDraft flags = true \/ forceDraft flags = true \/
   Topic.CheckDraft (topic w') = Done None) /\
  (forall e, r = Some e -> isNotFound e = false) /\
  (calls w' = calls w \/
   calls w' = (calls w ++ [CallHTTP (getDraftRequest f (Topic.ID (topic w)))])%list).
Proof.
  intros H.
  destruct (loadAndCheck_cases w) as (r0 & w0 & Hl & _ & _ & Hc & Hi & Hn & He).
  rewrite Hl in H. inversion H; subst r0 w0. clear H.
  split; [intros Hig; destruct (Hi Hig) as [E ->]; inversion E; auto|].
  split; [intros ->; apply Hn; reflexivity|].
  split; [intros e ->; apply (He e); reflexivity|].
  destruct Hc as [Hc|[_ Hc]]; auto.
Qed.

End DraftLoadFacts.

Section RunStartFacts.

Variable lib : Lib.

Variable slib : StartLib.

Variable env : Env.

Variable flags : Flags.

Variable configPath : string.

Variable rangeOrder : Forums.t -> list string.

Local Arguments do : simpl never.

Lemma LoadTopic_frame f topicID w :
  exists loaded err w',
    LoadTopic lib slib env flags f topicID w = (Done (loaded, err), w') /\
    topic w' = topic w /\
    ((loaded = None /\ err <> None /\
      (calls w' = calls w \/
       calls w' = (calls w ++ [CallHTTP (getTopicRequest f topicID)])%list)) \/
     (loaded <> None /\ err = None /\
      calls w' = (calls w ++ [CallHTTP (getTopicRequest f topicID)])%list)).
Proof.
  unfold LoadTopic. unfold bind at 1.
  destruct (logf_frame "Loading topic %d..." [ArgInt topicID] w)
    as (w1 & -> & Ht1 & Hq1 & Hc1 & _).
  unfold bind at 1.
  destruct (do_cases lib env flags f "GET"
              ("/t/" ++ strconv.Itoa topicID ++ ".json?include_raw=true") None
              (@None Topic.t, @nil (option Post.t)) (Unmarshal_loadTopicResult slib) w1)
    as (r & w2 & -> & Ht2 & _ & _ & Hcases).
  fold (getTopicRequest f topicID) in Hcases. rewrite Hc1 in Hcases.
  assert (Hcalls : calls w2 = calls w \/
            calls w2 = (calls w ++ [CallHTTP (getTopicRequest f topicID)])%list).
  { destruct Hcases as [(Hc & _)|(Hc & _)]; auto. }
  assert (Hsent : snd r = None ->
            calls w2 = (calls w ++ [CallHTTP (getTopicRequest f topicID)])%list).
  { destruct Hcases as [(Hc & e & -> & _)|(Hc & _)]; [discriminate|auto]. }
  clear Hcases. destruct r as [[t0 posts] [e|]]; unfold ret.
  - do 3 eexists. split; [reflexivity|]. split; [congruence|].
    left. repeat split; auto; discriminate.
  - specialize (Hsent eq_refl).
    destruct t0 as [t0|]; [destruct posts as [|post0 rest]|].
    + do 3 eexists. split; [reflexivity|]. split; [congruence|].
      left. repeat split; auto; discriminate.
    + do 3 eexists. split; [reflexivity|]. split; [congruence|].
      right. repeat split; auto; discriminate.
    + do 3 eexists. split; [reflexivity|]. split; [congruence|].
      left. repeat split; auto; discriminate.
Qed.

(** X14. What [run] has done when it reaches [edit] or stops before
    it. Without exactly one argument it leaves with [os.Exit(1)] and has
    called nothing. Otherwise it has read the configuration file, once,
    and then sent nothing, or the GET of the topic, or the GET of the
    topic and (unless [-ignore-draft]) the GET of a draft; the requests
    go to the forum the URL names, with the settings the configuration
    holds for it. *)
Theorem runStart_requests args w r w' :
  runStart lib slib env flags configPath rangeOrder args w = (r, w') ->
  (calls w' = calls w /\ r = Done (Exit 1) /\ forall u, args <> [u]) \/
  exists topicURL https,
    args = [topicURL] /\
    calls w' = (calls w ++ CallReadFile configPath :: map CallHTTP https)%list /\
    startRequests slib env flags configPath rangeOrder topicURL w https.
Proof.
  unfold runStart.
  destruct args as [|topicURL [|u2 args]].
  { unfold ret. intros H. inversion H; subst. left. repeat split. discriminate. }
  2:{ unfold ret. intros H. inversion H; subst. left. repeat split. discriminate. }
  intros H. right. exists topicURL.
  unfold bind at 1 in H.
  destruct (readConfig_cases slib env configPath rangeOrder w) as (rc & Hrc & Hkind & _).
  rewrite Hrc in H.
  assert (Hnone : forall w0, calls w0 = calls (record (CallReadFile configPath) w) ->
            exists https,
              [topicURL] = [topicURL] /\
              calls w0 = (calls w ++ CallReadFile configPath :: map CallHTTP https)%list /\
              startRequests slib env flags configPath rangeOrder topicURL w https).
  { intros w0 Hw0. exists []. split; [reflexivity|]. split; [exact Hw0|]. left. reflexivity. }
  destruct Hkind as [->|[(forums & ->)|(e & ->)]].
  - inversion H; subst. apply Hnone. reflexivity.
  - destruct (parseTopicURL topicURL) as [[base id] [e|]] eqn:Hparse.
    { unfold ret in H. inversion H; subst. apply Hnone. reflexivity. }
    unfold bind at 1 in H. unfold lift at 1, deref in H.
    destruct (Forums.index forums base) as [fc|] eqn:Hindex.
    2:{ unfold ret in H. inversion H; subst. apply Hnone. reflexivity. }
    unfold bind at 1 in H.
    destruct (LoadTopic_frame (mkForum fc base) id (record (CallReadFile configPath) w))
      as (loaded & err & w1 & Hload & Ht1 & Hkind).
    rewrite Hload in H.
    assert (Hone : forall w0,
              calls w0 = (calls (record (CallReadFile configPath) w)
                          ++ [CallHTTP (getTopicRequest (mkForum fc base) id)])%list ->
              exists https,
                [topicURL] = [topicURL] /\
                calls w0 = (calls w ++ CallReadFile configPath :: map CallHTTP https)%list /\
                startRequests slib env flags configPath rangeOrder topicURL w https).
    { intros w0 Hw0. exists [getTopicRequest (mkForum fc base) id].
      split; [reflexivity|]. split; [rewrite Hw0; cbn; rewrite <- app_assoc; reflexivity|].
      right. exists forums, base, id, fc. rewrite Hrc. cbn. auto. }
    destruct Hkind as [(-> & Herr & Hc1)|(Hloaded & -> & Hc1)].
    { destruct err as [e|]; [|contradiction].
      unfold ret in H. inversion H; subst.
      destruct Hc1 as [Hc1|Hc1]; [apply Hnone|apply Hone]; exact Hc1. }
    destruct loaded as [t|]; [|contradiction].
    unfold lift at 1, deref in H. unfold bind at 1 in H.
    unfold bind at 1 in H. unfold modifyTopic at 1 in H.
    unfold bind at 1 in H.
    destruct (loadAndCheck_cases lib env flags (mkForum fc base)
                (mkWorld t (quietMode w1) (calls w1) (logged w1)))
      as (lr & w2 & Hlc & _ & _ & Hc2 & _).
    rewrite Hlc in H. cbn [calls topic] in Hc2.
    assert (Hw2 : exists https,
              [topicURL] = [topicURL] /\
              calls w2 = (calls w ++ CallReadFile configPath :: map CallHTTP https)%list /\
              startRequests slib env flags configPath rangeOrder topicURL w https).
    { destruct Hc2 as [Hc2|[Hig Hc2]].
      - apply Hone. congruence.
      - exists [getTopicRequest (mkForum fc base) id;
                getDraftRequest (mkForum fc base) (Topic.ID t)].
        split; [reflexivity|].
        split; [rewrite Hc2, Hc1; cbn; rewrite <- !app_assoc; reflexivity|].
        right. exists forums, base, id, fc. rewrite Hrc. cbn.
        repeat split; auto. right. exists (Topic.ID t). auto. }
    destruct lr as [[e|]|].
    + unfold ret in H. inversion H; subst. exact Hw2.
    + unfold bind at 1 in H. unfold topicOriginalText at 1 in H.
      destruct (Topic.OriginalText (topic w2)); unfold ret in H; inversion H; subst;
        exact Hw2.
    + inversion H; subst. exact Hw2.
  - unfold ret in H. inversion H; subst. apply Hnone. reflexivity.
Qed.

(** X15. When [run] reaches [edit], the text it keeps as [initial] is
    the original text of the topic it edits; unless [-ignore-draft] or
    [-force-draft] is given the draft check passes on that topic; the
    forum's base is one the URL check lets through, its user name and key
    are not empty, and the base is the one [parseTopicURL] found in the
    single argument. *)
Theorem runStart_edit args w f initial w' :
  coversKeys rangeOrder ->
  runStart lib slib env flags configPath rangeOrder args w = (Done (Edit f initial), w') ->
  Topic.OriginalText (topic w') = Done initial /\
  (ignoreDraft flags = false -> forceDraft flags = false ->
   Topic.CheckDraft (topic w') = Done None) /\
  isBase (baseURL f) /\
  Username (config f) <> EmptyString /\ Key (config f) <> EmptyString /\
  exists topicURL id,
    args = [topicURL] /\ parseTopicURL topicURL = (baseURL f, id, None).
Proof.
  intros Hcover. unfold runStart.
  destruct args as [|topicURL [|u2 args]]; try discriminate.
  intros H. unfold bind at 1 in H.
  destruct (readConfig slib env configPath rangeOrder w) as [[[cfg err]|] w0] eqn:Hrc;
    [|discriminate].
  destruct err as [e|]; [unfold ret in H; discriminate|].
  destruct (parseTopicURL topicURL) as [[base id] [e|]] eqn:Hparse;
    [unfold ret in H; discriminate|].
  unfold bind at 1 in H. unfold lift at 1, deref in H.
  destruct cfg as [forums|]; [|discriminate].
  destruct (Forums.index forums base) as [fc|] eqn:Hindex;
    [|unfold ret in H; discriminate].
  unfold bind at 1 in H.
  destruct (LoadTopic lib slib env flags (mkForum fc base) id w0)
    as [[[loaded err]|] w1]; [|discriminate].
  destruct err as [e|]; [unfold ret in H; discriminate|].
  unfold bind at 1 in H. unfold lift at 1, deref in H.
  destruct loaded as [t|]; [|discriminate].
  unfold bind at 1 in H. unfold modifyTopic at 1 in H. unfold bind at 1 in H.
  destruct (loadAndCheck_cases lib env flags (mkForum fc base)
              (mkWorld t (quietMode w1) (calls w1) (logged w1)))
    as (lr & w2 & Hlc & _ & _ & _ & _ & Hnone & _).
  rewrite Hlc in H.
  destruct lr as [[e|]|]; [unfold ret in H; discriminate| |discriminate].
  unfold bind at 1 in H. unfold topicOriginalText at 1 in H.
  destruct (Topic.OriginalText (topic w2)) as [original|] eqn:Horig; [|discriminate].
  unfold ret in H. inversion H; subst. clear H.
  split; [exact Horig|]. split.
  - intros Hig Hforce. destruct (Hnone eq_refl) as [Hx|[Hx|Hx]]; congruence.
  - cbn [baseURL config].
    unfold Forums.index in Hindex.
    destruct (Forums.get base forums) as [v|] eqn:Hget; [|discriminate].
    subst v.
    destruct (readConfig_ok _ _ _ _ _ _ _ Hrc) as (Hrange & _ & _).
    eapply readConfig_range_inv in Hrange; [|apply rangeInv_start, Hcover].
    destruct Hrange as (seen' & I1 & _ & _).
    destruct (I1 _ _ Hget) as [(_ & _ & fc' & E & Hu & Hk)|[[] _]].
    inversion E; subst fc'.
    split.
    + unfold parseTopicURL in Hparse.
      destruct (regexp.FindStringSubmatch topicURLPattern topicURL) as [m|] eqn:Hm;
        [|discriminate].
      destruct (strconv_Atoi (m 3%nat)) as [v [e|]]; [discriminate|].
      inversion Hparse; subst.
      apply FindStringSubmatch_shape in Hm.
      destruct Hm as (_ & _ & _ & _ & Hb & _). exact Hb.
    + split; [exact Hu|]. split; [exact Hk|]. eauto.
Qed.

End RunStartFacts.

Section SaveFrames.

Variable lib : Lib.

Variable env : Env.

Variable flags : Flags.

Variable f : Forum.

Variable filename : string.

Local Arguments do : simpl never.

Lemma silent_refl w : silent flags w w.
Proof. split; auto. Qed.

Lemma silent_trans w1 w2 w3 : silent flags w1 w2 -> silent flags w2 w3 -> silent flags w1 w3.
Proof.
  intros [Hq1 Hl1] [Hq2 Hl2]. split; [congruence|].
  intros Hq Hd. rewrite Hl2, Hl1; auto. congruence.
Qed.

Lemma do_sent {R} verb path body (zero : R) unmarshal w r w' :
  do lib env flags f verb path body zero unmarshal w = (r, w') ->
  silent flags w w' /\ topic w' = topic w /\
  (calls w' = calls w \/
   exists req, calls w' = (calls w ++ [CallHTTP req])%list /\
               req_verb req = verb /\ sentTo f req).
Proof.
  intros H.
  destruct (do_cases lib env flags f verb path body zero unmarshal w)
    as (r0 & w0 & Hdo & Ht & Hq & Hl & Hcases).
  rewrite Hdo in H. inversion H; subst. clear H.
  split; [split; auto|]. split; [exact Ht|].
  destruct Hcases as [(Hc & _)|(Hc & _)]; [left; exact Hc|right].
  eexists. split; [exact Hc|]. split; [reflexivity|].
  split; [reflexivity|]. split; [reflexivity|]. exists path. reflexivity.
Qed.

Lemma logf_silent format args w :
  exists w', logf format args w = (Done tt, w') /\
    silent flags w w' /\ topic w' = topic w /\ calls w' = calls w.
Proof.
  destruct (logf_frame format args w) as (w' & H & Ht & Hq & Hc & Hl).
  exists w'. split; [exact H|]. split; [split; auto|]. auto.
Qed.

Lemma debugf_silent format args w :
  exists w', debugf flags format args w = (Done tt, w') /\
    silent flags w w' /\ topic w' = topic w /\ calls w' = calls w.
Proof.
  unfold debugf. destruct (debug flags) eqn:Hd; eexists; (split; [reflexivity|]).
  - split; [split; [reflexivity|intros _ Hx; congruence]|auto].
  - split; [apply silent_refl|auto].
Qed.

Lemma record_silent c w : silent flags w (record c w).
Proof. split; auto. Qed.

Lemma SaveTopic_frame w r w' :
  SaveTopic lib env flags f filename w = (r, w') ->
  silent flags w w' /\
  exists l, calls w' = (calls w ++ l)%list /\ saveTrace f "PUT" filename l.
Proof.
  unfold SaveTopic. unfold bind at 1. unfold ioutil_ReadFile at 1.
  destruct (os_ReadFile env (calls w) filename) as [content [e|]].
  { unfold ret. intros H. inversion H; subst.
    split; [apply record_silent|]. exists [CallReadFile filename]. split; [reflexivity|].
    left. reflexivity. }
  unfold bind at 1. unfold getTopic at 1. unfold bind at 1.
  destruct (logf_silent "Saving topic %s ..."
              [ArgStr (Topic_String (topic (record (CallReadFile filename) w)))]
              (record (CallReadFile filename) w)) as (w1 & -> & Hs1 & Ht1 & Hc1).
  assert (Hbase : silent flags w w1 /\
            exists l, calls w1 = (calls w ++ l)%list /\ saveTrace f "PUT" filename l).
  { split; [eapply silent_trans; [apply record_silent|exact Hs1]|].
    exists [CallReadFile filename]. split; [exact Hc1|left; reflexivity]. }
  unfold bind at 1. unfold topicOriginalText at 1.
  destruct (Topic.OriginalText (topic w1)) as [raw_old|];
    [|intros H; inversion H; subst; exact Hbase].
  unfold bind at 1. unfold lift at 1.
  destruct (deref (Topic.Post (topic (record (CallReadFile filename) w)))) as [post|];
    [|intros H; inversion H; subst; exact Hbase].
  unfold bind at 1.
  destruct (do lib env flags f "PUT" _ _ _ _ w1) as [rd w2] eqn:Hdo.
  apply do_sent in Hdo. destruct Hdo as (Hs2 & Ht2 & Hc2).
  assert (Hafter : forall w3, silent flags w2 w3 -> calls w3 = calls w2 ->
            silent flags w w3 /\
            exists l, calls w3 = (calls w ++ l)%list /\ saveTrace f "PUT" filename l).
  { intros w3 Hs3 Hc3. destruct Hbase as [Hs0 _].
    split; [eapply silent_trans; [exact Hs0|eapply silent_trans; eassumption]|].
    rewrite Hc3. destruct Hc2 as [Hc2|(req & Hc2 & Hverb & Hto)]; rewrite Hc2, Hc1.
    - exists [CallReadFile filename]. split; [reflexivity|left; reflexivity].
    - exists [CallReadFile filename; CallHTTP req].
      split; [cbn; rewrite <- app_assoc; reflexivity|right; eauto]. }
  destruct rd as [[result [e|]]|].
  - unfold ret. intros H. inversion H; subst. apply Hafter; [apply silent_refl|reflexivity].
  - unfold bind at 1.
    destruct (logf_silent "Saved %s."
                [ArgStr (Topic_String (topic (record (CallReadFile filename) w)))] w2)
      as (w3 & -> & Hs3 & Ht3 & Hc3).
    unfold_m. destruct (deref result); intros H; inversion H; subst;
      (apply Hafter; [destruct Hs3 as [A B]; split; cbn; assumption|cbn; exact Hc3]).
  - intros H. inversion H; subst. apply Hafter; [apply silent_refl|reflexivity].
Qed.

Lemma SaveDraft_frame w r w' :
  SaveDraft lib env flags f filename w = (r, w') ->
  silent flags w w' /\
  exists l, calls w' = (calls w ++ l)%list /\ saveTrace f "POST" filename l.
Proof.
  unfold SaveDraft. unfold bind at 1. unfold ioutil_ReadFile at 1.
  destruct (os_ReadFile env (calls w) filename) as [content [e|]].
  { unfold ret. intros H. inversion H; subst.
    split; [apply record_silent|]. exists [CallReadFile filename]. split; [reflexivity|].
    left. reflexivity. }
  unfold bind at 1. unfold getTopic at 1. unfold bind at 1.
  destruct (logf_silent "Saving draft for %s ..."
              [ArgStr (Topic_String (topic (record (CallReadFile filename) w)))]
              (record (CallReadFile filename) w)) as (w1 & -> & Hs1 & Ht1 & Hc1).
  assert (Hbase : silent flags w w1 /\
            exists l, calls w1 = (calls w ++ l)%list /\ saveTrace f "POST" filename l).
  { split; [eapply silent_trans; [apply record_silent|exact Hs1]|].
    exists [CallReadFile filename]. split; [exact Hc1|left; reflexivity]. }
  unfold bind at 1. unfold lift at 1.
  destruct (newDraft (topic (record (CallReadFile filename) w)) content) as [draft|];
    [|intros H; inversion H; subst; exact Hbase].
  unfold bind at 1.
  destruct (do lib env flags f "POST" _ _ _ _ w1) as [rd w2] eqn:Hdo.
  apply do_sent in Hdo. destruct Hdo as (Hs2 & Ht2 & Hc2).
  assert (Hafter : forall w3, silent flags w2 w3 -> calls w3 = calls w2 ->
            silent flags w w3 /\
            exists l, calls w3 = (calls w ++ l)%list /\ saveTrace f "POST" filename l).
  { intros w3 Hs3 Hc3. destruct Hbase as [Hs0 _].
    split; [eapply silent_trans; [exact Hs0|eapply silent_trans; eassumption]|].
    rewrite Hc3. destruct Hc2 as [Hc2|(req & Hc2 & Hverb & Hto)]; rewrite Hc2, Hc1.
    - exists [CallReadFile filename]. split; [reflexivity|left; reflexivity].
    - exists [CallReadFile filename; CallHTTP req].
      split; [cbn; rewrite <- app_assoc; reflexivity|right; eauto]. }
  destruct rd as [[[success sequence] [e|]]|].
  - unfold ret. intros H. inversion H; subst. apply Hafter; [apply silent_refl|reflexivity].
  - destruct (negb (String.eqb success "OK")).
    + unfold ret. intros H. inversion H; subst.
      apply Hafter; [apply silent_refl|reflexivity].
    + unfold bind at 1. unfold modifyTopic at 1.
      unfold bind at 1. unfold modifyTopic at 1. unfold bind at 1.
      match goal with
      | |- context [logf ?fmt ?args ?w0] =>
          destruct (logf_silent fmt args w0) as (w3 & -> & Hs3 & Ht3 & Hc3)
      end.
      unfold ret. intros H. inversion H; subst.
      apply Hafter; [destruct Hs3 as [A B]; split; cbn in *; assumption|exact Hc3].
  - intros H. inversion H; subst. apply Hafter; [apply silent_refl|reflexivity].
Qed.

Local Arguments SaveTopic : simpl never.

Local Arguments SaveDraft : simpl never.

Lemma fileChanged_frame original w :
  exists r,
    fileChanged lib env filename original w = (Done r, record (CallReadFile filename) w).
Proof.
  unfold fileChanged. unfold_m.
  destruct (os_ReadFile env (calls w) filename) as [data [e|]]; eexists; reflexivity.
Qed.

Lemma topicEditText_frame w r w' : topicEditText w = (r, w') -> w' = w.
Proof. unfold topicEditText. intros H. inversion H. reflexivity. Qed.

Lemma watcherBody_trace v w r w' :
  watcherBody lib env flags f filename v w = (r, w') ->
  silent flags w w' /\
  exists l, calls w' = (calls w ++ l)%list /\ watcherTrace f filename l.
Proof.
  unfold watcherBody. unfold bind at 1. unfold osStat at 1.
  destruct (os_Stat env (calls w) filename) as [curstat [e|]].
  { unfold bind at 1.
    destruct (debugf_silent "Error stating file for draft: %v" [ArgErr e]
                (record (CallStat filename) w)) as (w1 & -> & Hs1 & _ & Hc1).
    unfold ret. intros H. inversion H; subst.
    split; [eapply silent_trans; [apply record_silent|exact Hs1]|].
    exists [CallStat filename]. split; [exact Hc1|left; reflexivity]. }
  destruct (curstat =? wv_stat v).
  { unfold ret. intros H. inversion H; subst.
    split; [apply record_silent|]. exists [CallStat filename].
    split; [reflexivity|left; reflexivity]. }
  unfold bind at 1.
  destruct (fileChanged_frame (wv_text v) (record (CallStat filename) w))
    as ([[different empty] err] & ->).
  set (w1 := record (CallReadFile filename) (record (CallStat filename) w)).
  assert (Hs1 : silent flags w w1) by (split; auto).
  assert (Hc1 : calls w1 = (calls w ++ [CallStat filename; CallReadFile filename])%list).
  { subst w1. cbn. rewrite <- app_assoc. reflexivity. }
  destruct (isSome err || negb different || empty).
  { unfold ret. intros H. inversion H; subst.
    split; [exact Hs1|]. exists [CallStat filename; CallReadFile filename].
    split; [exact Hc1|right; left; reflexivity]. }
  assert (Hfinish : forall w2 l1 l2 (m : M WatchVars),
            silent flags w1 w2 -> calls w2 = (calls w1 ++ l1 ++ l2)%list ->
            ((saveTrace f "PUT" filename l1 /\ (l2 = [] \/ saveTrace f "POST" filename l2)) \/
             (l1 = [] /\ saveTrace f "POST" filename l2)) ->
            (forall r0 w3, m w2 = (r0, w3) -> silent flags w2 w3 /\ calls w3 = calls w2) ->
            m w2 = (r, w') ->
            silent flags w w' /\
            exists l, calls w' = (calls w ++ l)%list /\ watcherTrace f filename l).
  { intros w2 l1 l2 m Hs2 Hc2 Htrace Hm Hrun.
    destruct (Hm _ _ Hrun) as [Hs3 Hc3].
    split; [eapply silent_trans; [exact Hs1|eapply silent_trans; eassumption]|].
    exists (CallStat filename :: CallReadFile filename :: l1 ++ l2)%list.
    split; [rewrite Hc3, Hc2, Hc1, <- app_assoc; reflexivity|].
    right; right. exists l1, l2. auto. }
  assert (Hrefresh : forall curstat0 w2 r0 w3,
            (text <- topicEditText ;; ret (mkWatchVars curstat0 text)) w2 = (r0, w3) ->
            silent flags w2 w3 /\ calls w3 = calls w2).
  { intros c0 w2 r0 w3. unfold_m. destruct (Topic.EditText (topic w2));
      intros Hx; inversion Hx; subst; split; auto; apply silent_refl. }
  assert (Hdebugret : forall fmt args w2 r0 w3,
            (debugf flags fmt args ;;; ret v) w2 = (r0, w3) ->
            silent flags w2 w3 /\ calls w3 = calls w2).
  { intros fmt args w2 r0 w3. unfold bind.
    destruct (debugf_silent fmt args w2) as (w4 & -> & Hs4 & _ & Hc4).
    unfold ret. intros Hx. inversion Hx; subst. auto. }
  destruct (liveEdit flags) eqn:Hlive.
  - unfold bind at 1. unfold bind at 1.
    destruct (SaveTopic lib env flags f filename w1) as [rt w2] eqn:Hst.
    apply SaveTopic_frame in Hst. destruct Hst as (Hs2 & l1 & Hc2 & Hl1).
    destruct rt as [[e|]|].
    + unfold bind at 1.
      destruct (debugf_silent "Error saving live edit: %v" [ArgErr e] w2)
        as (w3 & -> & Hs3 & _ & Hc3).
      unfold ret at 1. cbn [negb orb isSome].
      unfold bind at 1.
      destruct (SaveDraft lib env flags f filename w3) as [rd w4] eqn:Hsd.
      apply SaveDraft_frame in Hsd. destruct Hsd as (Hs4 & l2 & Hc4 & Hl2).
      assert (Hs14 : silent flags w1 w4).
      { eapply silent_trans; [exact Hs2|]. eapply silent_trans; eassumption. }
      assert (Hc14 : calls w4 = (calls w1 ++ l1 ++ l2)%list).
      { rewrite Hc4, Hc3, Hc2, <- app_assoc. reflexivity. }
      destruct rd as [[e2|]|].
      * apply (Hfinish w4 l1 l2 _ Hs14 Hc14); [left; auto|]. apply Hdebugret.
      * apply (Hfinish w4 l1 l2 _ Hs14 Hc14); [left; auto|]. apply Hrefresh.
      * intros H.
        apply (Hfinish w4 l1 l2 (fun _ => (r, w')) Hs14 Hc14); [left; auto| |reflexivity].
        intros r0 w5 Hx. inversion Hx; subst. inversion H; subst.
        split; [apply silent_refl|reflexivity].
    + unfold bind at 1. unfold ret at 1. unfold ret at 1. cbn [negb orb isSome].
      apply (Hfinish w2 l1 [] _ Hs2); [rewrite app_nil_r; exact Hc2|left; auto|].
      apply Hrefresh.
    + intros H.
      apply (Hfinish w2 l1 [] (fun _ => (r, w')) Hs2);
        [rewrite app_nil_r; exact Hc2|left; auto| |reflexivity].
      intros r0 w5 Hx. inversion Hx; subst. inversion H; subst.
      split; [apply silent_refl|reflexivity].
  - unfold bind at 1. unfold ret at 1. cbn [negb orb].
    unfold bind at 1.
    destruct (SaveDraft lib env flags f filename w1) as [rd w4] eqn:Hsd.
    apply SaveDraft_frame in Hsd. destruct Hsd as (Hs4 & l2 & Hc4 & Hl2).
    destruct rd as [[e2|]|].
    + apply (Hfinish w4 [] l2 _ Hs4 Hc4); [right; auto|]. apply Hdebugret.
    + apply (Hfinish w4 [] l2 _ Hs4 Hc4); [right; auto|]. apply Hrefresh.
    + intros H.
      apply (Hfinish w4 [] l2 (fun _ => (r, w')) Hs4 Hc4); [right; auto| |reflexivity].
      intros r0 w5 Hx. inversion Hx; subst. inversion H; subst.
      split; [apply silent_refl|reflexivity].
Qed.

(** X16. One iteration of the watcher calls [os.Stat] on the file,
    reads the file at most once to compare it and once per save, and
    sends at most two requests, a PUT then a POST or one of them, each to
    this forum with its settings; it removes and renames nothing. It
    leaves [quietMode] as it is, and logs nothing while [quietMode] is set
    unless [-debug] is given. *)
Theorem watcherBody_frame v w r w' :
  watcherBody lib env flags f filename v w = (r, w') ->
  silent flags w w' /\
  exists l, calls w' = (calls w ++ l)%list /\ watcherTrace f filename l.
Proof.
  exact (watcherBody_trace v w r w').
Qed.

End SaveFrames.

Section QuietFacts.

Variable lib : Lib.

Variable env : Env.

Variable flags : Flags.

Variable configPath : string.

Variable f : Forum.

Variable filename : string.

Local Arguments do : simpl never.

Local Arguments SaveTopic : simpl never.

Local Arguments SaveDraft : simpl never.

(** X17. An iteration of the watcher that detects no change (the file
    cannot be examined, has its recorded modification time, cannot be
    read, is empty or holds the recorded text) ends normally, keeps the
    recorded time and text and the topic, and sends nothing: it only
    calls [os.Stat] and, at most once, reads the file. *)
Theorem watcherBody_idle v w :
  (forall curstat, ~ detectedChange lib env filename v w curstat) ->
  exists w',
    watcherBody lib env flags f filename v w = (Done v, w') /\
    topic w' = topic w /\
    (calls w' = (calls w ++ [CallStat filename])%list \/
     calls w' = (calls w ++ [CallStat filename; CallReadFile filename])%list).
Proof.
  intros Hidle. unfold watcherBody. unfold bind at 1. unfold osStat at 1.
  destruct (os_Stat env (calls w) filename) as [curstat [e|]] eqn:Hstat.
  { unfold bind at 1.
    destruct (debugf_silent flags "Error stating file for draft: %v" [ArgErr e]
                (record (CallStat filename) w)) as (w1 & -> & _ & Ht1 & Hc1).
    unfold ret. eexists. split; [reflexivity|]. split; [exact Ht1|left; exact Hc1]. }
  destruct (curstat =? wv_stat v) eqn:Hsame.
  { unfold ret. eexists. split; [reflexivity|]. split; [reflexivity|left; reflexivity]. }
  unfold bind at 1. unfold fileChanged. unfold bind at 1. unfold ioutil_ReadFile at 1.
  destruct (os_ReadFile env (calls (record (CallStat filename) w)) filename)
    as [data [e|]] eqn:Hread.
  { unfold ret. cbn [isSome orb]. eexists. split; [reflexivity|].
    split; [reflexivity|right; cbn; rewrite <- app_assoc; reflexivity]. }
  unfold ret at 1.
  destruct (String.eqb_spec (bytes_TrimSpace lib data) (strings_TrimSpace lib (wv_text v)))
    as [Heq|Hne]; cbn [negb isSome orb].
  { unfold ret. eexists. split; [reflexivity|].
    split; [reflexivity|right; cbn; rewrite <- app_assoc; reflexivity]. }
  destruct (String.length (bytes_TrimSpace lib data) =? 0)%nat eqn:Hlen.
  { unfold ret. eexists. split; [reflexivity|].
    split; [reflexivity|right; cbn; rewrite <- app_assoc; reflexivity]. }
  exfalso. apply (Hidle curstat). exists data.
  split; [exact Hstat|]. split; [lia|]. split; [exact Hread|].
  split; [|exact Hne]. intros E. rewrite E in Hlen. discriminate.
Qed.

Lemma reconcile_no_change initial w original data :
  Topic.OriginalText (topic w) = Done original ->
  os_ReadFile env (calls w) filename = (data, None) ->
  bytes_TrimSpace lib data <> EmptyString ->
  bytes_TrimSpace lib data = strings_TrimSpace lib original ->
  reconcile lib env flags configPath f initial filename None w =
  closeUnchanged env flags filename initial original (record (CallReadFile filename) w).
Proof.
  intros Horig Hread Hne Heq.
  unfold reconcile, fileChanged, withDefer, closeUnchanged. unfold_m.
  rewrite Horig, Hread. cbn. rewrite Heq, String.eqb_refl. cbn.
  destruct (String.length (strings_TrimSpace lib original) =? 0)%nat eqn:Hlen.
  { exfalso. apply Hne. rewrite Heq.
    destruct (strings_TrimSpace lib original); [reflexivity|discriminate]. }
  rewrite andb_false_r. cbn.
  destruct (liveEdit flags); cbn; rewrite ?Horig; cbn.
  - destruct (negb (String.eqb initial original)); cbn; destruct (quietMode w); reflexivity.
  - destruct (quietMode w); reflexivity.
Qed.

Lemma closeUnchanged_result initial original w :
  exists w',
    closeUnchanged env flags filename initial original w = (Done None, w') /\
    calls w' = (calls w ++ [CallRemove filename])%list /\
    topic w' = topic w /\
    (quietMode w = false ->
     logged w' =
     (logged w ++
      [mkLogLine (if liveEdit flags && negb (String.eqb initial original)
                  then "Changes already saved." else "No changes to save.") []])%list).
Proof.
  unfold closeUnchanged. unfold_m.
  destruct (quietMode w) eqn:Hq; eexists; (split; [reflexivity|]); cbn;
    repeat split; auto; discriminate.
Qed.

(** X18. When the editor exits and the file, trimmed, is not empty and
    equals the trimmed original text of the topic, [run] returns nil: it
    reads the file, removes it, sends nothing and leaves the topic alone.
    It logs one line, "Changes already saved." when [-live-edit] is given
    and the original text is no longer the initial one, "No changes to
    save." otherwise. *)
Theorem reconcile_unchanged initial w original data :
  Topic.OriginalText (topic w) = Done original ->
  os_ReadFile env (calls w) filename = (data, None) ->
  bytes_TrimSpace lib data <> EmptyString ->
  bytes_TrimSpace lib data = strings_TrimSpace lib original ->
  exists w',
    reconcile lib env flags configPath f initial filename None w = (Done None, w') /\
    calls w' = (calls w ++ [CallReadFile filename; CallRemove filename])%list /\
    topic w' = topic w /\
    (quietMode w = false ->
     logged w' =
     (logged w ++
      [mkLogLine (if liveEdit flags && negb (String.eqb initial original)
                  then "Changes already saved." else "No changes to save.") []])%list).
Proof.
  intros Horig Hread Hne Heq.
  rewrite (reconcile_no_change _ _ _ _ Horig Hread Hne Heq).
  destruct (closeUnchanged_result initial original (record (CallReadFile filename) w))
    as (w' & Hr & Hc & Ht & Hl).
  exists w'. split; [exact Hr|]. cbn in Hc. rewrite <- app_assoc in Hc. auto.
Qed.

(** X19. When the editor exits and the file cannot be read, [run]
    returns the error "cannot tell whether the file changed" with the
    cause, and does nothing else: the file is neither removed nor
    renamed, and nothing is sent. *)
Theorem reconcile_read_error initial w original data e :
  Topic.OriginalText (topic w) = Done original ->
  os_ReadFile env (calls w) filename = (data, Some e) ->
  reconcile lib env flags configPath f initial filename None w =
    (Done (Some (Errorf "cannot tell whether %s changed: %v"
                        [ArgStr filename; ArgErr e])),
     record (CallReadFile filename) w).
Proof.
  intros Horig Hread.
  unfold reconcile, fileChanged, withDefer. unfold_m.
  rewrite Horig, Hread. cbn. rewrite andb_false_r. reflexivity.
Qed.

(** X20. [SaveDraft] never changes what the edit is compared to: when
    it has returned, the original text of the topic, the result of the draft check and
    the post are as before. When it succeeds, the text the topic offers
    for editing is the content of the file it read. *)
Theorem SaveDraft_keeps_baseline w r w' :
  SaveDraft lib env flags f filename w = (Done r, w') ->
  Topic.OriginalText (topic w') = Topic.OriginalText (topic w) /\
  Topic.CheckDraft (topic w') = Topic.CheckDraft (topic w) /\
  Topic.Post (topic w') = Topic.Post (topic w) /\
  (r = None ->
   exists content,
     os_ReadFile env (calls w) filename = (content, None) /\
     Topic.EditText (topic w') = Done content).
Proof.
  intros H. destruct r as [e|].
  - apply SaveDraft_error_keeps_topic in H. rewrite H.
    repeat split; auto. discriminate.
  - apply SaveDraft_ok in H.
    destruct H as (content & draft & data & sequence & Hread & Hnew & _ & _ & Ht & _).
    rewrite Ht. unfold newDraft in Hnew.
    destruct (Topic.Post (topic w)) as [post|] eqn:Hpost; [|discriminate]. cbn in Hnew.
    destruct (Topic.OriginalText (topic w)) as [original|] eqn:Horig; [|discriminate].
    cbn in Hnew. inversion Hnew; subst draft. clear Hnew.
    unfold draftedTopic, Topic.OriginalText, Topic.CheckDraft, Topic.EditText,
      Draft.OriginalText, Draft.EditText. cbn. rewrite Hpost. cbn.
    split; [reflexivity|]. split; [|split; [reflexivity|eauto]].
    unfold Topic.OriginalText in Horig.
    destruct (Topic.Draft (topic w)) as [d|].
    + unfold Draft.OriginalText in *.
      destruct (deref (Draft.Data d)) as [dd|]; [|discriminate]. cbn in *.
      inversion Horig; subst. reflexivity.
    + rewrite Hpost in Horig. cbn in Horig. inversion Horig; subst.
      unfold Post.OriginalText. rewrite String.eqb_refl. reflexivity.
Qed.

(** X21. After a live edit that was saved, there is nothing left to
    save. When [SaveTopic] has succeeded on the file, and the file and
    the topic are still the same when the editor exits (trimming being
    idempotent and the file not empty), [run] returns nil after reading
    and removing the file, without sending anything; the original text of
    the topic is then the trimmed content of the file. *)
Theorem live_edit_leaves_nothing_to_save initial w0 w1 w :
  SaveTopic lib env flags f filename w0 = (Done None, w1) ->
  topic w = topic w1 ->
  os_ReadFile env (calls w) filename = os_ReadFile env (calls w0) filename ->
  let raw := bytes_TrimSpace lib (fst (os_ReadFile env (calls w0) filename)) in
  strings_TrimSpace lib raw = raw ->
  raw <> EmptyString ->
  exists w',
    reconcile lib env flags configPath f initial filename None w = (Done None, w') /\
    calls w' = (calls w ++ [CallReadFile filename; CallRemove filename])%list /\
    topic w' = topic w /\ Topic.OriginalText (topic w') = Done raw.
Proof.
  intros Hsave Htopic Hsame raw Hidem Hne.
  apply SaveTopic_ok in Hsave.
  destruct Hsave as (content & raw_old & post & data & newpost & Hsave). cbn in Hsave.
  destruct Hsave as (Hread & _ & _ & _ & _ & Ht1 & _).
  subst raw. rewrite Hread in *. cbn [fst] in *.
  assert (Horig : Topic.OriginalText (topic w) = Done (bytes_TrimSpace lib content)).
  { rewrite Htopic, Ht1. reflexivity. }
  rewrite (reconcile_no_change initial w _ content Horig Hsame Hne (eq_sym Hidem)).
  destruct (closeUnchanged_result initial (bytes_TrimSpace lib content)
              (record (CallReadFile filename) w)) as (w' & Hr & Hc & Ht & _).
  exists w'. split; [exact Hr|]. cbn in Hc. rewrite <- app_assoc in Hc.
  split; [exact Hc|]. split; [exact Ht|]. rewrite Ht. exact Horig.
Qed.

End QuietFacts.

Section ThreadFacts.

Variable lib : Lib.

Variable env : Env.

Variable flags : Flags.

Variable configPath : string.

Variable f : Forum.

Variable filename : string.

Variable initial : string.

Local Arguments watcherBody : simpl never.

Local Arguments reconcile : simpl never.

Lemma editing_spawned stat text w : editing (spawned stat text w).
Proof. unfold editing, spawned; cbn. repeat split; intros; discriminate. Qed.

Ltac close_editing :=
  match goal with
  | Hstep : Some _ = Some _ |- _ => inversion Hstep; subst; clear Hstep
  end;
  unfold editing in *; cbn in *;
  repeat match goal with
  | H : fg ?c = _ |- _ => rewrite H in *; clear H
  | H : wt ?c = _ |- _ => rewrite H in *; clear H
  | H : done_closed ?c = _ |- _ => rewrite H in *; clear H
  end;
  intuition (try discriminate; try congruence; eauto).

Lemma stepWatcher_quiet c c' :
  stepWatcher lib env flags f filename c = Some c' ->
  fg c' = fg c /\ silent flags (world c) (world c') /\
  (wt c' = WtDone -> done_closed c' = true).
Proof.
  unfold stepWatcher.
  destruct (wt c) as [|last| | |]; try discriminate.
  - destruct (watcherBody lib env flags f filename (vars c) (world c)) as [r w'] eqn:Hb.
    destruct (watcherBody_trace _ _ _ _ _ _ _ _ _ Hb) as (Hs & _).
    destruct r as [v'|]; intros H; inversion H; subst; cbn.
    + repeat split; try apply Hs. destruct last; discriminate.
    + repeat split; try apply Hs. discriminate.
  - intros H. inversion H; subst; cbn. repeat split; auto.
Qed.

Lemma editing_step c ch c' :
  editing c ->
  step lib env flags configPath f filename initial c ch = Some c' ->
  editing c'.
Proof.
  intros Hinv Hstep. unfold step in Hstep.
  destruct (processEnded c); [discriminate|].
  destruct ch.
  - unfold stepForeground in Hstep.
    destruct (fg c) as [| |[e|]| |name err|r|] eqn:Hfg; try discriminate.
    + close_editing.
    + close_editing.
    + close_editing.
    + destruct (done_closed c) eqn:Hdone; [|discriminate]. close_editing.
    + destruct (reconcile lib env flags configPath f initial name err (world c))
        as [[r|] w']; close_editing.
  - destruct (fg c) eqn:Hfg; try discriminate. close_editing.
  - destruct (wt c) eqn:Hwt; try discriminate. close_editing.
  - destruct (wt c) eqn:Hwt; try discriminate.
    destruct (stop_closed c) eqn:Hstop; [|discriminate]. close_editing.
  - apply stepWatcher_quiet in Hstep. destruct Hstep as (Hfg & [Hsq _] & Hdone).
    unfold editing in *. rewrite Hfg, Hsq. intuition.
Qed.

Lemma editing_exec chs : forall c c',
  editing c ->
  exec lib env flags configPath f filename initial c chs = Some c' ->
  editing c'.
Proof.
  induction chs as [|ch chs IH]; intros c c' Hinv Hexec; cbn in Hexec.
  - inversion Hexec; subst. exact Hinv.
  - destruct (step lib env flags configPath f filename initial c ch) as [c1|] eqn:Hstep;
      [|discriminate].
    eapply IH; [|exact Hexec]. eapply editing_step; eauto.
Qed.

(** X22. In every state [edit] can reach, while the editor runs
    [quietMode] is set and, unless [-debug] is given, no step of either
    goroutine adds a line to the log; and when [edit] has returned
    [quietMode] is clear. *)
Theorem quiet_while_editor_runs stat text w chs c :
  exec lib env flags configPath f filename initial (spawned stat text w) chs = Some c ->
  (fg c = FgInEditor ->
   quietMode (world c) = true /\
   (debug flags = false ->
    forall ch c', step lib env flags configPath f filename initial c ch = Some c' ->
                  logged (world c') = logged (world c))) /\
  (forall name err, fg c = FgEditReturned name err -> quietMode (world c) = false).
Proof.
  intros Hexec.
  assert (Hinv : editing c).
  { eapply editing_exec; [apply editing_spawned|exact Hexec]. }
  destruct Hinv as (Hq & _ & _ & Hx & _). split.
  - intros Hfg. split; [auto|]. intros Hdebug ch c' Hstep. unfold step in Hstep.
    destruct (processEnded c); [discriminate|].
    destruct ch.
    + unfold stepForeground in Hstep. rewrite Hfg in Hstep. discriminate.
    + rewrite Hfg in Hstep. inversion Hstep; subst. reflexivity.
    + destruct (wt c); try discriminate. inversion Hstep; subst. reflexivity.
    + destruct (wt c); try discriminate. destruct (stop_closed c); [|discriminate].
      inversion Hstep; subst. reflexivity.
    + apply stepWatcher_quiet in Hstep. destruct Hstep as (_ & [_ Hl] & _).
      apply Hl; auto.
  - exact Hx.
Qed.

End ThreadFacts.

Section Completion.

Variable lib : Lib.

Variable env : Env.

Variable flags : Flags.

Variable configPath : string.

Variable f : Forum.

Variable filename : string.

Variable initial : string.

Local Arguments watcherBody : simpl never.

Local Arguments reconcile : simpl never.

Lemma reaches_step n c ch c1 :
  step lib env flags configPath f filename initial c ch = Some c1 ->
  reaches lib env flags configPath f filename initial n c1 -> reaches lib env flags configPath f filename initial (S n) c.
Proof.
  intros Hstep (more & c' & Hlen & Hexec & Hover).
  exists (ch :: more), c'. split; [cbn; lia|]. split; [|exact Hover].
  cbn. rewrite Hstep. exact Hexec.
Qed.

Lemma reaches_now n c : editOver filename c -> reaches lib env flags configPath f filename initial n c.
Proof. intros H. exists [], c. split; [cbn; lia|]. split; [reflexivity|exact H]. Qed.

Lemma reaches_mono n m c : (n <= m)%nat -> reaches lib env flags configPath f filename initial n c -> reaches lib env flags configPath f filename initial m c.
Proof.
  intros Hle (more & c' & Hlen & H). exists more, c'. split; [lia|exact H].
Qed.

Lemma reaches_WtDone sc v w :
  reaches lib env flags configPath f filename initial 1 (mkConfig FgWaitDone WtDone sc true v w).
Proof.
  eapply reaches_step with (ch := ChForeground); [reflexivity|].
  apply reaches_now. left. reflexivity.
Qed.

Lemma reaches_WtLeaving sc dc v w :
  reaches lib env flags configPath f filename initial 2 (mkConfig FgWaitDone WtLeaving sc dc v w).
Proof.
  eapply reaches_step with (ch := ChWatcher); [reflexivity|].
  apply reaches_WtDone.
Qed.

Lemma reaches_last_body sc dc v w :
  reaches lib env flags configPath f filename initial 3 (mkConfig FgWaitDone (WtBody true) sc dc v w).
Proof.
  destruct (watcherBody lib env flags f filename v w) as [[v'|] w'] eqn:Hb.
  - eapply reaches_step with (ch := ChWatcher).
    + unfold step, stepWatcher; cbn. rewrite Hb. reflexivity.
    + apply reaches_WtLeaving.
  - eapply reaches_step with (ch := ChWatcher).
    + unfold step, stepWatcher; cbn. rewrite Hb. reflexivity.
    + apply reaches_now. right. reflexivity.
Qed.

Lemma reaches_WtSelect dc v w :
  reaches lib env flags configPath f filename initial 4 (mkConfig FgWaitDone WtSelect true dc v w).
Proof.
  eapply reaches_step with (ch := ChStop); [reflexivity|].
  apply reaches_last_body.
Qed.

Lemma reaches_body dc v w :
  reaches lib env flags configPath f filename initial 5 (mkConfig FgWaitDone (WtBody false) true dc v w).
Proof.
  destruct (watcherBody lib env flags f filename v w) as [[v'|] w'] eqn:Hb.
  - eapply reaches_step with (ch := ChWatcher).
    + unfold step, stepWatcher; cbn. rewrite Hb. reflexivity.
    + apply reaches_WtSelect.
  - eapply reaches_step with (ch := ChWatcher).
    + unfold step, stepWatcher; cbn. rewrite Hb. reflexivity.
    + apply reaches_now. right. reflexivity.
Qed.

Lemma reaches_waiting wtc dc v w :
  (wtc = WtDone -> dc = true) ->
  reaches lib env flags configPath f filename initial 5 (mkConfig FgWaitDone wtc true dc v w).
Proof.
  intros Hdone. destruct wtc as [|[|]| | |].
  - eapply reaches_mono; [|apply reaches_WtSelect]. lia.
  - eapply reaches_mono; [|apply reaches_last_body]. lia.
  - apply reaches_body.
  - eapply reaches_mono; [|apply reaches_WtLeaving]. lia.
  - rewrite (Hdone eq_refl). eapply reaches_mono; [|apply reaches_WtDone]. lia.
  - apply reaches_now. right. reflexivity.
Qed.

(** X23. [edit] cannot get stuck once the editor has exited without
    error: from every state it can reach where the editor has exited or
    [edit] waits for the watcher, some schedule of at most six steps ends
    with [edit] returning the file name and nil, or with the watcher's
    panic. *)
Theorem edit_can_finish stat text w chs c :
  exec lib env flags configPath f filename initial (spawned stat text w) chs = Some c ->
  fg c = FgEditorExited None \/ fg c = FgWaitDone ->
  exists more c',
    (List.length more <= 6)%nat /\
    exec lib env flags configPath f filename initial c more = Some c' /\
    (fg c' = FgEditReturned filename None \/ wt c' = WtPanicked).
Proof.
  intros Hexec Hfg.
  assert (Hh : handover c).
  { eapply handover_exec; [apply handover_spawned|exact Hexec]. }
  assert (He : editing c).
  { eapply editing_exec; [apply editing_spawned|exact Hexec]. }
  destruct Hh as (_ & _ & Hstop & _). destruct He as (_ & _ & _ & _ & Hdone).
  change (reaches lib env flags configPath f filename initial 6 c).
  destruct c as [fgc wtc sc dc v w0]; cbn in *.
  destruct Hfg as [-> | ->].
  - destruct wtc as [|last| | |] eqn:Hwt.
    5:{ apply reaches_now. right. reflexivity. }
    all: eapply reaches_step with (ch := ChForeground); [reflexivity|];
         apply reaches_waiting; auto; discriminate.
  - rewrite (Hstop eq_refl). eapply reaches_mono; [|apply reaches_waiting; exact Hdone]. lia.
Qed.

End Completion.

Lemma encodeRunes_invalid n c s :
  0x80 <= byteval c ->
  utf8.DecodeRuneInString (String c s) = (utf8.RuneError, 1%nat) ->
  json.encodeRunes (S n) (String c s) = replacement ++ json.encodeRunes n s.
Proof.
  intros Hc Hdec. cbn [json.encodeRunes]. unfold utf8.RuneSelf.
  replace (byteval c <? 128) with false by lia.
  rewrite Hdec. reflexivity.
Qed.

Lemma unquote_replacement fuel tail :
  jsondec.unquote (S fuel) (replacement ++ tail) =
  jsondec.prepend (utf8.enc3 utf8.RuneError) (jsondec.unquote fuel tail).
Proof. reflexivity. Qed.

Lemma toValid_ascii n c s :
  byteval c < 0x80 -> toValid (S n) (String c s) = String c (toValid n s).
Proof.
  intros Hc. cbn [toValid]. unfold utf8.RuneSelf.
  replace (byteval c <? 128) with true by lia. reflexivity.
Qed.

Lemma toValid_invalid n c s :
  0x80 <= byteval c ->
  utf8.DecodeRuneInString (String c s) = (utf8.RuneError, 1%nat) ->
  toValid (S n) (String c s) = utf8.enc3 utf8.RuneError ++ toValid n s.
Proof.
  intros Hc Hdec. cbn [toValid]. unfold utf8.RuneSelf.
  replace (byteval c <? 128) with false by lia.
  rewrite Hdec. reflexivity.
Qed.

Lemma toValid_seq n p r s :
  goodseq p r -> toValid (S n) (p ++ s) = p ++ toValid n s.
Proof.
  intros Hg. destruct (goodseq_not_error _ _ Hg s) as [Hdec Hok].
  destruct Hg as (Hlen & _ & _ & (c & p' & -> & Hc) & _).
  cbn [append toValid]. unfold utf8.RuneSelf.
  replace (byteval c <? 128) with false by lia.
  change (String c (p' ++ s)) with (String c p' ++ s).
  rewrite Hdec, Hok, str_take_app, str_drop_app. reflexivity.
Qed.

(** The three ways a string that is not empty starts. *)
Lemma string_head c t :
  byteval c < 0x80 \/
  (0x80 <= byteval c /\ utf8.DecodeRuneInString (String c t) = (utf8.RuneError, 1%nat)) \/
  (exists p r t', String c t = p ++ t' /\ goodseq p r).
Proof.
  destruct (utf8.DecodeRuneInString (String c t)) as [r size] eqn:Hdec.
  destruct (decode_cases _ _ _ Hdec) as [[E _]|[(Hsz & c' & t' & E & Hc)|(p & t' & E & Hg & Hsz)]].
  - discriminate.
  - inversion E; subst c' t'. subst size.
    destruct Hc as [[Hlt _]|[Hge Hr]]; [left; exact Hlt|right; left].
    subst r. auto.
  - right; right. eauto.
Qed.

(** Decoding the encoding of any string gives the string with its
    invalid bytes replaced. *)
Lemma unquote_encodeRunes_any n : forall s fuel rest,
  (String.length s <= n)%nat -> (String.length s < fuel)%nat ->
  jsondec.unquote fuel (json.encodeRunes n s ++ String dquote rest) =
  Some (toValid n s, rest).
Proof.
  induction n as [|n IH]; intros s fuel rest Hn Hfuel.
  - destruct s; [|cbn in Hn; lia]. destruct fuel; [lia|]. reflexivity.
  - destruct s as [|c t].
    { destruct fuel; [cbn in Hfuel; lia|]. reflexivity. }
    destruct fuel as [|fuel]; [lia|]. cbn [String.length] in Hn, Hfuel.
    destruct (string_head c t) as [Hc|[[Hc Hdec]|(p & r & t' & E & Hg)]].
    + rewrite encodeRunes_ascii, toValid_ascii by exact Hc.
      rewrite app_assoc_str, unquote_ascii by exact Hc.
      rewrite IH by lia. reflexivity.
    + rewrite encodeRunes_invalid, toValid_invalid by assumption.
      rewrite app_assoc_str, unquote_replacement.
      rewrite IH by lia. reflexivity.
    + rewrite E. rewrite (encodeRunes_seq _ _ _ _ Hg), (toValid_seq _ _ _ _ Hg).
      rewrite app_assoc_str, (unquote_seq _ _ _ _ Hg).
      assert (Hlen : (String.length t' < String.length t)%nat).
      { apply (f_equal String.length) in E. rewrite length_app in E.
        cbn [String.length] in E. destruct Hg as (H2 & _). lia. }
      rewrite IH by lia. reflexivity.
Qed.

Lemma encodeRunes_length_any n : forall s,
  (String.length s <= n)%nat ->
  (String.length s <= String.length (json.encodeRunes n s))%nat.
Proof.
  induction n as [|n IH]; intros s Hn.
  - destruct s; cbn in *; lia.
  - destruct s as [|c t]; [cbn; lia|]. cbn [String.length] in Hn.
    destruct (string_head c t) as [Hc|[[Hc Hdec]|(p & r & t' & E & Hg)]].
    + rewrite encodeRunes_ascii by exact Hc. rewrite length_app.
      pose proof (encodeAscii_length c). specialize (IH t). cbn [String.length]. lia.
    + rewrite encodeRunes_invalid by assumption. rewrite length_app.
      specialize (IH t). cbn [String.length] in *. cbn. lia.
    + rewrite E. rewrite (encodeRunes_seq _ _ _ _ Hg). rewrite !length_app.
      pose proof (encodeSeq_length _ _ Hg).
      assert (Hlen : (String.length t' <= n)%nat).
      { apply (f_equal String.length) in E. rewrite length_app in E.
        cbn [String.length] in E. destruct Hg as (H2 & _). lia. }
      specialize (IH t' Hlen). lia.
Qed.

Lemma encodeRunes_Valid_any n : forall s,
  (String.length s <= n)%nat -> Valid (json.encodeRunes n s).
Proof.
  induction n as [|n IH]; intros s Hn.
  - constructor.
  - destruct s as [|c t]; [constructor|]. cbn [String.length] in Hn.
    destruct (string_head c t) as [Hc|[[Hc Hdec]|(p & r & t' & E & Hg)]].
    + rewrite encodeRunes_ascii by exact Hc.
      apply Valid_app; [apply allAscii_Valid, encodeAscii_allAscii, Hc|apply IH; lia].
    + rewrite encodeRunes_invalid by assumption.
      apply Valid_app; [apply allAscii_Valid; reflexivity|apply IH; lia].
    + rewrite E. rewrite (encodeRunes_seq _ _ _ _ Hg).
      apply Valid_app; [apply encodeSeq_Valid, Hg|apply IH].
      apply (f_equal String.length) in E. rewrite length_app in E.
      cbn [String.length] in E. destruct Hg as (H2 & _). lia.
Qed.

Lemma encodeString_Valid_any s : Valid (json.encodeString s).
Proof.
  unfold json.encodeString.
  apply Valid_ascii; [vm_compute; reflexivity|].
  apply Valid_app; [apply encodeRunes_Valid_any; lia|].
  apply Valid_ascii; [vm_compute; reflexivity|constructor].
Qed.

Lemma toValid_Valid s : Valid s -> forall n, (String.length s <= n)%nat -> toValid n s = s.
Proof.
  induction 1 as [|c s Hc Hs IH|p r s Hg Hs IH]; intros n Hn.
  - destruct n; reflexivity.
  - cbn [String.length] in Hn. destruct n as [|n]; [lia|].
    rewrite toValid_ascii by exact Hc. rewrite IH by lia. reflexivity.
  - rewrite length_app in Hn. pose proof Hg as (Hlen & _).
    destruct n as [|n]; [lia|].
    rewrite (toValid_seq _ _ _ _ Hg). rewrite IH by lia. reflexivity.
Qed.

Lemma replacement_rune_good : goodseq (utf8.enc3 utf8.RuneError) utf8.RuneError.
Proof.
  unfold goodseq. split; [cbn; lia|]. split; [reflexivity|]. split; [vm_compute; discriminate|].
  split.
  - eexists _, _. split; [reflexivity|]. vm_compute. discriminate.
  - intros t. reflexivity.
Qed.

Lemma toValid_is_Valid n : forall s, (String.length s <= n)%nat -> Valid (toValid n s).
Proof.
  induction n as [|n IH]; intros s Hn.
  - constructor.
  - destruct s as [|c t]; [constructor|]. cbn [String.length] in Hn.
    destruct (string_head c t) as [Hc|[[Hc Hdec]|(p & r & t' & E & Hg)]].
    + rewrite toValid_ascii by exact Hc. apply Valid_ascii; [exact Hc|apply IH; lia].
    + rewrite toValid_invalid by assumption.
      apply Valid_rune with (r := utf8.RuneError);
        [apply replacement_rune_good|apply IH; lia].
    + rewrite E. rewrite (toValid_seq _ _ _ _ Hg).
      apply Valid_rune with (r := r); [exact Hg|apply IH].
      apply (f_equal String.length) in E. rewrite length_app in E.
      cbn [String.length] in E. destruct Hg as (H2 & _). lia.
Qed.

Lemma parseValue_string_any fuel s tail :
  jsondec.parseValue (S fuel) (json.encodeString s ++ tail) =
  Some (JString (replaceInvalid s), tail).
Proof.
  unfold json.encodeString. cbn [append].
  rewrite app_assoc_str. change (str1 dquote ++ tail) with (String dquote tail).
  rewrite parseValue_quote.
  rewrite unquote_encodeRunes_any; [reflexivity|lia|].
  rewrite length_app. cbn [String.length].
  pose proof (encodeRunes_length_any (String.length s) s (le_n _)). lia.
Qed.

Lemma parseMembers_draftData_any dd fuel :
  jsondec.parseMembers (S (S (S (S (S (S (S (S (S fuel)))))))))
    (json.joinMembers
       [ json.member "action" (json.encodeString (DraftData.Action dd));
         json.member "title" (json.encodeString (DraftData.Title dd));
         json.member "reply" (json.encodeString (DraftData.Reply dd));
         json.member "originalText" (json.encodeString (DraftData.OriginalText dd));
         json.member "composerTime" (json.encodeInt (DraftData.ComposerTime dd));
         json.member "typingTime" (json.encodeInt (DraftData.TypingTime dd));
         json.member "postId" (json.encodeInt (DraftData.PostID dd));
         json.member "whisper" (json.encodeBool (DraftData.Whisper dd)) ] ++ "}")
  = match draftDataTree (replaceInvalidData dd) with
    | JObject ms => Some (ms, EmptyString)
    | _ => None
    end.
Proof.
  cbn [json.joinMembers draftDataTree replaceInvalidData DraftData.Action DraftData.Title
       DraftData.Reply DraftData.OriginalText DraftData.ComposerTime DraftData.TypingTime
       DraftData.PostID DraftData.Whisper].
  repeat (progress (rewrite ?app_assoc_str; cbn [append])).
  apply parseMembers_cons; [reflexivity|apply parseValue_string_any|].
  apply parseMembers_cons; [reflexivity|apply parseValue_string_any|].
  apply parseMembers_cons; [reflexivity|apply parseValue_string_any|].
  apply parseMembers_cons; [reflexivity|apply parseValue_string_any|].
  apply parseMembers_cons; [reflexivity|apply parseValue_int; reflexivity|].
  apply parseMembers_cons; [reflexivity|apply parseValue_int; reflexivity|].
  apply parseMembers_cons; [reflexivity|apply parseValue_int; reflexivity|].
  apply parseMembers_last; [reflexivity|apply parseValue_bool].
Qed.

Lemma parse_draftData_any dd :
  jsondec.parse (fst (json.Marshal_draftData dd)) = Some (draftDataTree (replaceInvalidData dd)).
Proof.
  unfold jsondec.parse.
  destruct (Marshal_draftData_length dd) as (fuel & ->).
  unfold json.Marshal_draftData, json.object. cbn [fst].
  pose proof (parseMembers_draftData_any dd (S fuel)) as Hm.
  cbn [draftDataTree] in Hm.
  assert (Hshape : exists text,
            json.joinMembers
              [ json.member "action" (json.encodeString (DraftData.Action dd));
                json.member "title" (json.encodeString (DraftData.Title dd));
                json.member "reply" (json.encodeString (DraftData.Reply dd));
                json.member "originalText" (json.encodeString (DraftData.OriginalText dd));
                json.member "composerTime" (json.encodeInt (DraftData.ComposerTime dd));
                json.member "typingTime" (json.encodeInt (DraftData.TypingTime dd));
                json.member "postId" (json.encodeInt (DraftData.PostID dd));
                json.member "whisper" (json.encodeBool (DraftData.Whisper dd)) ] ++ "}"
            = String dquote text).
  { cbn [json.joinMembers]. rewrite !app_assoc_str, member_app. eexists. reflexivity. }
  destruct Hshape as (text & Hshape). rewrite Hshape in *.
  rewrite (parseValue_object _ _ _ _ Hm). reflexivity.
Qed.

Lemma store_draftDataTree_ints dd dd0 :
  intsInRange dd ->
  match draftDataTree dd with
  | JObject ms => jsondec.storeMembers ms dd0 None
  | _ => (dd0, None)
  end = (dd, None).
Proof.
  intros (Hc & Hy & Hp).
  destruct dd as [action title reply original composer typing postid whisper].
  destruct dd0 as [a0 t0 r0 o0 c0 y0 p0 w0].
  cbn [DraftData.ComposerTime DraftData.TypingTime DraftData.PostID] in Hc, Hy, Hp.
  cbn [draftDataTree DraftData.Action DraftData.Title DraftData.Reply
       DraftData.OriginalText DraftData.ComposerTime DraftData.TypingTime
       DraftData.PostID DraftData.Whisper jsondec.storeMembers].
  change (jsondec.findField "action") with (Some jsondec.FAction).
  change (jsondec.findField "title") with (Some jsondec.FTitle).
  change (jsondec.findField "reply") with (Some jsondec.FReply).
  change (jsondec.findField "originalText") with (Some jsondec.FOriginalText).
  change (jsondec.findField "composerTime") with (Some jsondec.FComposerTime).
  change (jsondec.findField "typingTime") with (Some jsondec.FTypingTime).
  change (jsondec.findField "postId") with (Some jsondec.FPostID).
  change (jsondec.findField "whisper") with (Some jsondec.FWhisper).
  repeat (cbn [jsondec.storeField jsondec.storeString jsondec.storeBool
               jsondec.storeInt jsondec.saveError];
          rewrite ?ParseInt_Itoa by assumption).
  reflexivity.
Qed.

Lemma Marshal_draftData_Valid_any dd : Valid (fst (json.Marshal_draftData dd)).
Proof.
  unfold json.Marshal_draftData, json.object. cbn [fst].
  apply Valid_ascii; [vm_compute; reflexivity|].
  apply Valid_app; [|apply allAscii_Valid; reflexivity].
  apply joinMembers_Valid.
  repeat (apply Forall_cons;
          [apply member_Valid;
           [reflexivity
           |first [apply encodeString_Valid_any
                  |apply allAscii_Valid, Itoa_allAscii
                  |apply allAscii_Valid; destruct (DraftData.Whisper dd); reflexivity]]
          |]).
  apply Forall_nil.
Qed.

Lemma replaceInvalid_Valid s : Valid s -> replaceInvalid s = s.
Proof. intros H. apply toValid_Valid; [exact H|lia]. Qed.

Lemma replaceInvalid_is_Valid s : Valid (replaceInvalid s).
Proof. apply toValid_is_Valid. lia. Qed.

(** X24. [MarshalJSON] followed by [UnmarshalJSON], for any payload.
    [MarshalJSON] returns no error, and [UnmarshalJSON] of its output,
    into any receiver, returns no error and leaves the receiver equal to
    the payload in which every byte of a string that is not part of a
    UTF-8 sequence is replaced by U+FFFD. The result's strings are valid
    UTF-8, a valid string comes back unchanged, and the byte FF comes
    back as the three bytes of U+FFFD. *)
Theorem MarshalJSON_round_trip_replaces_invalid_bytes dd dd0 :
  intsInRange dd ->
  snd (DraftData_MarshalJSON dd) = None /\
  DraftData_UnmarshalJSON (fst (DraftData_MarshalJSON dd)) dd0 =
    (replaceInvalidData dd, None) /\
  (forall s, Valid (replaceInvalid s)) /\
  (forall s, Valid s -> replaceInvalid s = s) /\
  replaceInvalid (str1 (bytechr 0xFF)) = utf8.enc3 utf8.RuneError.
Proof.
  intros Hints. split; [reflexivity|].
  split; [|split; [apply replaceInvalid_is_Valid|split;
    [apply replaceInvalid_Valid|reflexivity]]].
  assert (Hm : DraftData_MarshalJSON dd =
               (json.encodeString (fst (json.Marshal_draftData dd)), None))
    by reflexivity.
  rewrite Hm. cbn [fst]. unfold DraftData_UnmarshalJSON.
  rewrite (Unmarshal_string_Marshal _ _ (Marshal_draftData_Valid_any dd)).
  unfold jsondec.Unmarshal_draftData. rewrite parse_draftData_any.
  apply (store_draftDataTree_ints (replaceInvalidData dd) dd0).
  exact Hints.
Qed.

Lemma parseValue_object_str fuel text ms rest :
  jsondec.parseMembers fuel (String dquote text) = Some (ms, rest) ->
  forall tail, rest = tail ->
  jsondec.parseValue (S fuel) (String "{" (String dquote text)) = Some (JObject ms, tail).
Proof. intros H tail <-. apply parseValue_object. exact H. Qed.

Lemma parseValue_PostUpdate raw raw_old fuel :
  jsondec.parseValue (S (S (S (S (S (S (S fuel)))))))
    (json.object
       [json.member "post"
          (json.object [json.member "raw" (json.encodeString raw);
                        json.member "raw_old" (json.encodeString raw_old)])])
  = Some (postUpdateTree raw raw_old, EmptyString).
Proof.
  unfold json.object at 1. cbn [json.joinMembers].
  rewrite member_app. unfold postUpdateTree.
  apply parseValue_object.
  rewrite <- member_app.
  apply parseMembers_last; [reflexivity|].
  unfold json.object. cbn [json.joinMembers].
  repeat (progress (rewrite ?app_assoc_str; cbn [append])).
  rewrite member_app.
  apply parseValue_object.
  rewrite <- member_app.
  apply parseMembers_cons; [reflexivity|apply parseValue_string_any|].
  apply parseMembers_last; [reflexivity|apply parseValue_string_any].
Qed.

Lemma parseValue_DraftEnvelope d dd fuel :
  jsondec.parseValue (S (S (S (S (S (S fuel))))))
    (json.object
       [json.member "draft_key" (json.encodeString (Draft.Key d));
        json.member "topic_id" (json.encodeInt (Draft.TopicID d));
        json.member "sequence" (json.encodeInt (Draft.Sequence d));
        json.member "data" (json.encodeString (fst (json.Marshal_draftData dd)))])
  = Some (draftEnvelopeTree d dd, EmptyString).
Proof.
  unfold json.object at 1. cbn [json.joinMembers].
  repeat (progress (rewrite ?app_assoc_str; cbn [append])).
  rewrite member_app. unfold draftEnvelopeTree.
  apply parseValue_object.
  rewrite <- member_app.
  apply parseMembers_cons; [reflexivity|apply parseValue_string_any|].
  apply parseMembers_cons; [reflexivity|apply parseValue_int; reflexivity|].
  apply parseMembers_cons; [reflexivity|apply parseValue_int; reflexivity|].
  rewrite <- (replaceInvalid_Valid _ (Marshal_draftData_Valid_any dd)) at 2.
  apply parseMembers_last; [reflexivity|apply parseValue_string_any].
Qed.

(** X25. The bodies this program sends are JSON texts, whatever bytes
    the strings hold. The body of a post update parses to an object with
    the member [post], an object with the strings [raw] and [raw_old]. The
    body of a draft parses to an object with [draft_key], [topic_id],
    [sequence] and [data], where [data] is a string, and that string
    parses in turn to the object of the payload. Invalid bytes of the
    strings read as U+FFFD. *)
Theorem request_bodies_are_JSON :
  (forall raw raw_old,
     jsondec.parse (fst (json_Marshal_body (PostUpdate raw raw_old))) =
       Some (postUpdateTree raw raw_old)) /\
  (forall d dd, Draft.Data d = Some dd ->
     jsondec.parse (fst (json_Marshal_body (DraftEnvelope d))) =
       Some (draftEnvelopeTree d dd) /\
     jsondec.parse (fst (json.Marshal_draftData dd)) =
       Some (draftDataTree (replaceInvalidData dd))).
Proof.
  split.
  - intros raw raw_old. unfold jsondec.parse, json_Marshal_body. cbn [fst].
    assert (Hlen : exists fuel,
              String.length
                (json.object
                   [json.member "post"
                      (json.object [json.member "raw" (json.encodeString raw);
                                    json.member "raw_old" (json.encodeString raw_old)])])
              = S (S (S (S (S (S fuel)))))).
    { unfold json.object. cbn [json.joinMembers]. rewrite member_app.
      cbn [String.length append]. eexists. reflexivity. }
    destruct Hlen as (fuel & ->).
    rewrite parseValue_PostUpdate. reflexivity.
  - intros d dd Hd. split; [|apply parse_draftData_any].
    unfold jsondec.parse, json_Marshal_body. rewrite Hd.
    assert (Hm : DraftData_MarshalJSON dd =
                 (json.encodeString (fst (json.Marshal_draftData dd)), None))
      by reflexivity.
    rewrite Hm. cbn [fst].
    assert (Hlen : exists fuel,
              String.length
                (json.object
                   [json.member "draft_key" (json.encodeString (Draft.Key d));
                    json.member "topic_id" (json.encodeInt (Draft.TopicID d));
                    json.member "sequence" (json.encodeInt (Draft.Sequence d));
                    json.member "data" (json.encodeString (fst (json.Marshal_draftData dd)))])
              = S (S (S (S (S fuel))))).
    { unfold json.object. cbn [json.joinMembers]. rewrite member_app.
      cbn [String.length append]. eexists. reflexivity. }
    destruct Hlen as (fuel & ->).
    rewrite parseValue_DraftEnvelope. reflexivity.
Qed.

(** ** The theorems of the start-up and of the frames, at the sample values *)

Lemma sample_isBase : isBase "https://forum.example".
Proof.
  right. exists "https", "forum.example".
  split; [right; reflexivity|]. split; [discriminate|]. split; reflexivity.
Defined.

Lemma sample_isSlug : isSlug "greetings".
Proof. split; [discriminate|reflexivity]. Defined.

Lemma keysInOrder_covers : coversKeys StartSample.keysInOrder.
Proof.
  intros m. induction m as [|[k' v] m IH]; intros k H.
  - contradiction H. reflexivity.
  - cbn in H |- *. destruct (String.eqb_spec k' k) as [E|_].
    + left. exact E.
    + right. apply IH. exact H.
Defined.

Lemma parseTopicURL_canonical_witness :
  parseTopicURL ("https://forum.example" ++ "/t/" ++ "greetings" ++ "/" ++ strconv.Itoa 7)
    = ("https://forum.example", 7, None) /\
  forall post, 0 <= post ->
    parseTopicURL ("https://forum.example" ++ "/t/" ++ "greetings" ++ "/" ++ strconv.Itoa 7
                     ++ "/" ++ strconv.Itoa post) = ("https://forum.example", 7, None).
Proof.
  apply (parseTopicURL_canonical "https://forum.example" "greetings" 7).
  - exact sample_isBase.
  - exact sample_isSlug.
  - unfold isTopicID. lia.
Defined.

Lemma parseTopicURL_short_witness :
  parseTopicURL ("" ++ "/t/" ++ strconv.Itoa 7) = ("", 7, None).
Proof.
  apply (parseTopicURL_short "" 7).
  - left. reflexivity.
  - unfold isTopicID. lia.
Defined.

Lemma parseTopicURL_post_number_taken_as_id_witness :
  parseTopicURL ("https://forum.example" ++ "/t/" ++ strconv.Itoa 7 ++ "/" ++ strconv.Itoa 12)
    = ("https://forum.example", 12, None).
Proof.
  apply (parseTopicURL_post_number_taken_as_id "https://forum.example" 7 12).
  - exact sample_isBase.
  - lia.
  - unfold isTopicID. lia.
Defined.

Lemma parseTopicURL_id_out_of_range_witness :
  parseTopicURL ("https://forum.example" ++ "/t/" ++ "greetings" ++ "/"
                   ++ strconv.Itoa 9223372036854775808) =
    (EmptyString, 0,
     Some (Errorf "internal error: URL pattern matched with non-int page ID" [])).
Proof.
  apply (parseTopicURL_id_out_of_range "https://forum.example" "greetings"
           9223372036854775808).
  - exact sample_isBase.
  - exact sample_isSlug.
  - lia.
Defined.

Lemma parseTopicURL_sound_witness :
  isTopicID 7 /\
  exists ids, topicURLShape StartSample.topicURL "https://forum.example" ids /\
              strconv_Atoi ids = (7, None).
Proof.
  apply (parseTopicURL_sound StartSample.topicURL "https://forum.example" 7).
  vm_compute. reflexivity.
Defined.

Lemma forum_URL_check_witness :
  validForumURL "https://forum.example/t" <->
  isBase "https://forum.example/t" \/
  exists base, isBase base /\ "https://forum.example/t" = base ++ "/t".
Proof.
  apply (forum_URL_check "https://forum.example/t"). reflexivity.
Defined.

Lemma readConfig_entries_checked_witness :
  (exists fc, Some StartSample.forumConfig = Some fc /\
              Username fc <> EmptyString /\ Key fc <> EmptyString) /\
  strings_TrimRight "https://forum.example" "/" = "https://forum.example" /\
  (isBase "https://forum.example" \/
   exists base, isBase base /\ "https://forum.example" = base ++ "/t").
Proof.
  apply (readConfig_entries_checked StartSample.slib (Sample.envWith "" 1 200)
           Sample.configPath StartSample.keysInOrder (Sample.world Sample.plainTopic)
           [("https://forum.example", Some StartSample.forumConfig)]
           (record (CallReadFile Sample.configPath) (Sample.world Sample.plainTopic))).
  - exact keysInOrder_covers.
  - vm_compute. reflexivity.
  - reflexivity.
Defined.

Lemma readConfig_drops_final_slashes_witness :
  Forums.index [("https://forum.example", Some StartSample.forumConfig)]
    (strings_TrimRight "https://forum.example/" "/") = Some StartSample.forumConfig /\
  Some StartSample.forumConfig <> None.
Proof.
  apply (readConfig_drops_final_slashes StartSample.slib (Sample.envWith "" 1 200)
           Sample.configPath StartSample.keysInOrder (Sample.world Sample.plainTopic)
           [("https://forum.example", Some StartSample.forumConfig)]
           (record (CallReadFile Sample.configPath) (Sample.world Sample.plainTopic))
           "https://forum.example/" (Some StartSample.forumConfig)).
  - exact keysInOrder_covers.
  - vm_compute. reflexivity.
  - reflexivity.
  - intros k1 Hk1 _.
    change (configuredForums StartSample.slib (Sample.envWith "" 1 200) Sample.configPath
              (Sample.world Sample.plainTopic))
      with [("https://forum.example/", Some StartSample.forumConfig)] in Hk1.
    cbn [Forums.get] in Hk1.
    destruct (String.eqb_spec "https://forum.example/" k1) as [E|_].
    + symmetry. exact E.
    + contradiction Hk1. reflexivity.
Defined.

Lemma readConfig_depends_on_range_order_witness :
  let k := "https://forum.example" in
  let env := Sample.envWith "" 1 200 in
  let w := Sample.world Sample.plainTopic in
  (forall x, Forums.get x [(k, None); (k ++ "/", Some StartSample.forumConfig)] <> None ->
     In x [k ++ "/"; k] /\ In x [k; k ++ "/"]) /\
  fst (readConfig StartSample.slibTwice env Sample.configPath
         (fun _ => [k ++ "/"; k]) w) = Done (Some [(k, Some StartSample.forumConfig)], None) /\
  fst (readConfig StartSample.slibTwice env Sample.configPath
         (fun _ => [k; k ++ "/"]) w) = Panic.
Proof.
  intros k env w.
  apply (readConfig_depends_on_range_order StartSample.slibTwice env Sample.configPath w
           k StartSample.forumConfig "").
  - reflexivity.
  - vm_compute. reflexivity.
  - discriminate.
  - discriminate.
  - reflexivity.
  - reflexivity.
Defined.

Lemma do_NotFound_iff_witness :
  let env := Sample.envWith "Hello there" 2 404 in
  let w := Sample.world Sample.plainTopic in
  let path := "/posts/11.json" in
  let e := NotFoundError ("resource not found: " ++ path) in
  let w' := snd (do Sample.lib env Sample.flagsDraft Sample.forum "PUT" path None
                    (@None Post.t) (Unmarshal_postResult Sample.lib) w) in
  let req := requestOf Sample.forum "PUT" path None in
  (isNotFound e = true <->
   calls w' = (calls w ++ [CallHTTP req])%list /\
   exists status data,
     http_Do env (calls w) req = Response status data /\ (status = 401 \/ status = 404)) /\
  (isNotFound e = true -> e = NotFoundError ("resource not found: " ++ path) /\
                          @None Post.t = None).
Proof.
  intros env w path e w'.
  apply (do_NotFound_iff Sample.lib env Sample.flagsDraft Sample.forum "PUT" path None
           (@None Post.t) (Unmarshal_postResult Sample.lib) w None e w').
  vm_compute. reflexivity.
Defined.

Lemma loadAndCheck_result_witness :
  let env := Sample.envWith "Hello there" 2 200 in
  let w := Sample.world Sample.plainTopic in
  let flags := Sample.flagsDraft in
  let w' := snd (loadAndCheck Sample.lib env flags Sample.forum w) in
  (ignoreDraft flags = true -> @None error = None /\ w' = w) /\
  (@None error = None ->
   ignoreDraft flags = true \/ forceDraft flags = true \/
   Topic.CheckDraft (topic w') = Done None) /\
  (forall e, @None error = Some e -> isNotFound e = false) /\
  (calls w' = calls w \/
   calls w' = (calls w ++ [CallHTTP (getDraftRequest Sample.forum (Topic.ID (topic w)))])%list).
Proof.
  intros env w flags w'.
  apply (loadAndCheck_result Sample.lib env flags Sample.forum w None w').
  vm_compute. reflexivity.
Defined.

Lemma runStart_requests_witness :
  let env := Sample.envWith "Hello there" 2 200 in
  let w := Sample.world Sample.plainTopic in
  let flags := Sample.flagsDraft in
  let args := [StartSample.topicURL] in
  let res := runStart Sample.lib StartSample.slib env flags Sample.configPath
               StartSample.keysInOrder args w in
  (calls (snd res) = calls w /\ fst res = Done (Exit 1) /\ forall u, args <> [u]) \/
  exists topicURL https,
    args = [topicURL] /\
    calls (snd res) = (calls w ++ CallReadFile Sample.configPath :: map CallHTTP https)%list /\
    startRequests StartSample.slib env flags Sample.configPath StartSample.keysInOrder
      topicURL w https.
Proof.
  intros env w flags args res.
  apply (runStart_requests Sample.lib StartSample.slib env flags Sample.configPath
           StartSample.keysInOrder args w (fst res) (snd res)).
  vm_compute. reflexivity.
Defined.

Lemma runStart_edit_witness :
  let env := Sample.envWith "Hello there" 2 200 in
  let w := Sample.world Sample.plainTopic in
  let flags := Sample.flagsDraft in
  let args := [StartSample.topicURL] in
  let w' := snd (runStart Sample.lib StartSample.slib env flags Sample.configPath
                   StartSample.keysInOrder args w) in
  let f := Sample.forum in
  Topic.OriginalText (topic w') = Done "Hello world" /\
  (ignoreDraft flags = false -> forceDraft flags = false ->
   Topic.CheckDraft (topic w') = Done None) /\
  isBase (baseURL f) /\
  Username (config f) <> EmptyString /\ Key (config f) <> EmptyString /\
  exists topicURL id,
    args = [topicURL] /\ parseTopicURL topicURL = (baseURL f, id, None).
Proof.
  intros env w flags args w' f.
  apply (runStart_edit Sample.lib StartSample.slib env flags Sample.configPath
           StartSample.keysInOrder args w f "Hello world" w').
  - exact keysInOrder_covers.
  - vm_compute. reflexivity.
Defined.

Lemma watcherBody_frame_witness :
  let env := Sample.envWith "Hello there" 2 200 in
  let w := Sample.world Sample.plainTopic in
  let v := mkWatchVars 1 "Hello world" in
  let w' := snd (watcherBody Sample.lib env Sample.flagsLive Sample.forum Sample.filename v w) in
  silent Sample.flagsLive w w' /\
  exists l, calls w' = (calls w ++ l)%list /\ watcherTrace Sample.forum Sample.filename l.
Proof.
  intros env w v w'.
  apply (watcherBody_frame Sample.lib env Sample.flagsLive Sample.forum Sample.filename v w
           (Done (mkWatchVars 2 "Hello there")) w').
  vm_compute. reflexivity.
Defined.

Lemma watcherBody_idle_witness :
  let env := Sample.envWith "Hello world" 1 200 in
  let w := Sample.world Sample.plainTopic in
  let v := mkWatchVars 1 "Hello world" in
  exists w',
    watcherBody Sample.lib env Sample.flagsLive Sample.forum Sample.filename v w = (Done v, w') /\
    topic w' = topic w /\
    (calls w' = (calls w ++ [CallStat Sample.filename])%list \/
     calls w' = (calls w ++ [CallStat Sample.filename; CallReadFile Sample.filename])%list).
Proof.
  intros env w v.
  apply (watcherBody_idle Sample.lib env Sample.flagsLive Sample.forum Sample.filename v w).
  intros curstat (data & Hstat & Hne & _).
  apply Hne. cbn in Hstat. inversion Hstat. reflexivity.
Defined.

Lemma reconcile_unchanged_witness :
  let env := Sample.envWith "Hello world" 2 200 in
  let w := Sample.world Sample.plainTopic in
  let flags := Sample.flagsLive in
  exists w',
    reconcile Sample.lib env flags Sample.configPath Sample.forum "Hello world"
      Sample.filename None w = (Done None, w') /\
    calls w' = (calls w ++ [CallReadFile Sample.filename; CallRemove Sample.filename])%list /\
    topic w' = topic w /\
    (quietMode w = false ->
     logged w' =
     (logged w ++
      [mkLogLine (if liveEdit flags && negb (String.eqb "Hello world" "Hello world")
                  then "Changes already saved." else "No changes to save.") []])%list).
Proof.
  intros env w flags.
  apply (reconcile_unchanged Sample.lib env flags Sample.configPath Sample.forum
           Sample.filename "Hello world" w "Hello world" "Hello world").
  - reflexivity.
  - reflexivity.
  - vm_compute. discriminate.
  - vm_compute. reflexivity.
Defined.

Lemma reconcile_read_error_witness :
  let w := Sample.world Sample.plainTopic in
  reconcile Sample.lib StartSample.envUnreadable Sample.flagsDraft Sample.configPath
    Sample.forum "Hello world" Sample.filename None w =
    (Done (Some (Errorf "cannot tell whether %s changed: %v"
                        [ArgStr Sample.filename; ArgErr (SysError "permission denied")])),
     record (CallReadFile Sample.filename) w).
Proof.
  intros w.
  apply (reconcile_read_error Sample.lib StartSample.envUnreadable Sample.flagsDraft
           Sample.configPath Sample.forum Sample.filename "Hello world" w "Hello world"
           EmptyString (SysError "permission denied")).
  - reflexivity.
  - reflexivity.
Defined.

Lemma SaveDraft_keeps_baseline_witness :
  let env := Sample.envWith "Hello there" 2 200 in
  let w := Sample.world Sample.plainTopic in
  let w' := snd (SaveDraft Sample.lib env Sample.flagsDraft Sample.forum Sample.filename w) in
  Topic.OriginalText (topic w') = Topic.OriginalText (topic w) /\
  Topic.CheckDraft (topic w') = Topic.CheckDraft (topic w) /\
  Topic.Post (topic w') = Topic.Post (topic w) /\
  (@None error = None ->
   exists content,
     os_ReadFile env (calls w) Sample.filename = (content, None) /\
     Topic.EditText (topic w') = Done content).
Proof.
  intros env w w'.
  apply (SaveDraft_keeps_baseline Sample.lib env Sample.flagsDraft Sample.forum
           Sample.filename w None w').
  vm_compute. reflexivity.
Defined.

Lemma live_edit_leaves_nothing_to_save_witness :
  let env := Sample.envWith "Hello there" 2 200 in
  let w0 := Sample.world Sample.plainTopic in
  let w := snd (SaveTopic Sample.lib env Sample.flagsLive Sample.forum Sample.filename w0) in
  exists w',
    reconcile Sample.lib env Sample.flagsLive Sample.configPath Sample.forum "Hello world"
      Sample.filename None w = (Done None, w') /\
    calls w' = (calls w ++ [CallReadFile Sample.filename; CallRemove Sample.filename])%list /\
    topic w' = topic w /\ Topic.OriginalText (topic w') = Done "Hello there".
Proof.
  intros env w0 w.
  apply (live_edit_leaves_nothing_to_save Sample.lib env Sample.flagsLive Sample.configPath
           Sample.forum Sample.filename "Hello world" w0 w w).
  - vm_compute. reflexivity.
  - reflexivity.
  - reflexivity.
  - vm_compute. reflexivity.
  - vm_compute. discriminate.
Defined.

Lemma quiet_while_editor_runs_witness :
  let env := Sample.envWith "Hello there" 2 200 in
  let flags := Sample.flagsLive in
  let c0 := spawned 1 "Hello world" (Sample.world Sample.plainTopic) in
  let chs := [ChForeground; ChTimer; ChWatcher] in
  exists c,
    exec Sample.lib env flags Sample.configPath Sample.forum Sample.filename
      "Hello world" c0 chs = Some c /\
    (fg c = FgInEditor ->
     quietMode (world c) = true /\
     (debug flags = false ->
      forall ch c', step Sample.lib env flags Sample.configPath Sample.forum
                      Sample.filename "Hello world" c ch = Some c' ->
                    logged (world c') = logged (world c))) /\
    (forall name err, fg c = FgEditReturned name err -> quietMode (world c) = false).
Proof.
  intros env flags c0 chs.
  destruct (exec Sample.lib env flags Sample.configPath Sample.forum Sample.filename
              "Hello world" c0 chs) as [c|] eqn:Hexec;
    [|vm_compute in Hexec; discriminate].
  exists c. split; [reflexivity|].
  exact (quiet_while_editor_runs Sample.lib env flags Sample.configPath Sample.forum
           Sample.filename "Hello world" 1 "Hello world"
           (Sample.world Sample.plainTopic) chs c Hexec).
Defined.

Lemma edit_can_finish_witness :
  let env := Sample.envWith "Hello there" 2 200 in
  let flags := Sample.flagsLive in
  let c0 := spawned 1 "Hello world" (Sample.world Sample.plainTopic) in
  let chs := [ChForeground; ChTimer; ChWatcher; ChEditorExits None] in
  exists c,
    exec Sample.lib env flags Sample.configPath Sample.forum Sample.filename
      "Hello world" c0 chs = Some c /\
    exists more c',
      (List.length more <= 6)%nat /\
      exec Sample.lib env flags Sample.configPath Sample.forum Sample.filename
        "Hello world" c more = Some c' /\
      (fg c' = FgEditReturned Sample.filename None \/ wt c' = WtPanicked).
Proof.
  intros env flags c0 chs.
  destruct (exec Sample.lib env flags Sample.configPath Sample.forum Sample.filename
              "Hello world" c0 chs) as [c|] eqn:Hexec;
    [|vm_compute in Hexec; discriminate].
  exists c. split; [reflexivity|].
  apply (edit_can_finish Sample.lib env flags Sample.configPath Sample.forum
           Sample.filename "Hello world" 1 "Hello world"
           (Sample.world Sample.plainTopic) chs c Hexec).
  left. vm_compute in Hexec. inversion Hexec. reflexivity.
Defined.

Lemma MarshalJSON_round_trip_replaces_invalid_bytes_witness :
  snd (DraftData_MarshalJSON Sample.rawByteDraftData) = None /\
  DraftData_UnmarshalJSON (fst (DraftData_MarshalJSON Sample.rawByteDraftData))
    zeroDraftData = (replaceInvalidData Sample.rawByteDraftData, None) /\
  (forall s, Valid (replaceInvalid s)) /\
  (forall s, Valid s -> replaceInvalid s = s) /\
  replaceInvalid (str1 (bytechr 0xFF)) = utf8.enc3 utf8.RuneError.
Proof.
  apply (MarshalJSON_round_trip_replaces_invalid_bytes Sample.rawByteDraftData
           zeroDraftData).
  unfold intsInRange, int64. cbn. lia.
Defined.
